(** * The tabular preprocessor of the SageMaker immersion-day notebook

    A shallow embedding of [preprocessing.py] (cell 06 of
    [processing_xgboost.ipynb]) and the properties of its train /
    validation / test pipeline.

    The script is a straight line of pandas and numpy calls.  Each call is
    embedded as a function on an explicit data-frame model; the script's
    [__main__] block is embedded as [main], a computation over an explicit
    world (file system, standard output, ambient random generator) that can
    fail with the exception the call would raise.

    The function [predict] of cell 16, which sends the test rows to the
    endpoint in batches, is embedded as well, with the endpoint and
    [np.fromstring] as parameters. *)

From Stdlib Require Import ZArith Lia Ascii String.
From stdpp Require Import base option list strings gmap sorting.

Local Open Scope Z_scope.

(** ** Double-precision arithmetic used by the split points

    [int(0.7 * len(df))] multiplies the double nearest to 0.7 by the row
    count converted to a double, rounds the product to the nearest double
    (ties to even) and truncates.  Only non-negative finite values occur, so
    a double is carried as [m * 2^e] with [0 <= m <= 2^53]; the exponents met
    here stay far from the overflow and subnormal ranges. *)
Module Float64.

(** Number of significand bits of a binary64 value. *)
Definition prec : Z := 53.

(** Round a non-negative integer to [prec] significant bits, to nearest,
    ties to even.  The result is again an integer, a multiple of [2^s]
    where [s] is the number of bits dropped. *)
Definition rnd (x : Z) : Z :=
  let s := Z.log2 x + 1 - prec in
  if s <=? 0 then x
  else
    let q := Z.shiftr x s in
    let r := x - Z.shiftl q s in
    let half := Z.shiftl 1 (s - 1) in
    let up := (half <? r) || ((r =? half) && Z.odd q) in
    Z.shiftl (if up then q + 1 else q) s.

(** A non-negative finite double [m * 2^e]. *)
Record t := mk { mant : Z; expo : Z }.

(** [float(n)] for a non-negative Python int. *)
Definition of_int (n : Z) : t := mk (rnd n) 0.

(** [a * b] on doubles. *)
Definition mul (a b : t) : t := mk (rnd (mant a * mant b)) (expo a + expo b).

(** [int(a)]: truncation, which is the floor on non-negative values. *)
Definition to_int (a : t) : Z := Z.shiftl (mant a) (expo a).

(** The literal [0.7], i.e. [0x1.6666666666666p-1]. *)
Definition lit_0_7 : t := mk 0x16666666666666 (-53).

(** The literal [0.9], i.e. [0x1.ccccccccccccdp-1]. *)
Definition lit_0_9 : t := mk 0x1ccccccccccccd (-53).

(** Comparison of a double with an integer, as in [x == 999]. *)
Definition eqb_int (a : t) (z : Z) : bool :=
  if 0 <=? expo a then Z.shiftl (mant a) (expo a) =? z
  else mant a =? Z.shiftl z (- expo a).

End Float64.

(** [int(0.7 * n)] and [int(0.9 * n)] as the script evaluates them. *)
Definition cut_0_7 (n : Z) : Z :=
  Float64.to_int (Float64.mul Float64.lit_0_7 (Float64.of_int n)).

Definition cut_0_9 (n : Z) : Z :=
  Float64.to_int (Float64.mul Float64.lit_0_9 (Float64.of_int n)).

(** ** Exceptions *)

Inductive error : Type :=
  | KeyError (label : string)
  | FileNotFoundError (path : string)
  | OSError (path : string).

Inductive result (A : Type) : Type :=
  | Ok (a : A)
  | Err (e : error).
Arguments Ok {A} a.
Arguments Err {A} e.

(** ** The regular expressions of the normalization step

    Only what the two patterns [r'\.'] and [r'\_$'] need: literal characters
    and the anchor [$], which Python matches at the end of the string and
    also just before a newline that ends the string. *)
Module Re.

Inductive atom : Type :=
  | Lit (c : ascii)
  | Eol.

Definition pattern : Type := list atom.

(** [r'\.']: an escaped, hence literal, full stop. *)
Definition dot : pattern := [Lit "."%char].

(** [r'\_$']: an escaped, hence literal, underscore followed by [$]. *)
Definition underscore_eol : pattern := [Lit "_"%char; Eol].

Definition newline : ascii := "010"%char.

(** Where [$] matches: at the very end, or before a final newline. *)
Definition at_eol (s : string) : bool :=
  match s with
  | EmptyString => true
  | String c EmptyString => Ascii.eqb c newline
  | _ => false
  end.

(** Match [p] at the start of [s]; the number of characters consumed. *)
Fixpoint match_len (p : pattern) (s : string) : option nat :=
  match p with
  | [] => Some 0%nat
  | Lit c :: p' =>
      match s with
      | String d s' => if Ascii.eqb c d then S <$> match_len p' s' else None
      | EmptyString => None
      end
  | Eol :: p' => if at_eol s then match_len p' s else None
  end.

(** [re.sub(p, repl, s)]: every non-overlapping match, scanning from the
    left, is replaced by [repl].  [skip] counts the characters of the
    current match that are still to be passed over.  A match that consumes
    no character does not occur with the two patterns above. *)
Fixpoint sub_from (p : pattern) (repl : string) (skip : nat) (s : string) : string :=
  match s with
  | EmptyString => EmptyString
  | String c s' =>
      match skip with
      | S k => sub_from p repl k s'
      | O =>
          match match_len p s with
          | Some (S k) => repl +:+ sub_from p repl k s'
          | _ => String c (sub_from p repl 0 s')
          end
      end
  end.

Definition sub (p : pattern) (repl : string) (s : string) : string :=
  sub_from p repl 0 s.

End Re.

(** ** Data frames *)

Inductive dtype : Type := int64 | float64 | boolean | uint8 | object.

Global Instance dtype_eq_dec : EqDecision dtype.
Proof. solve_decision. Defined.

(** A cell.  [VNaN] is the float NaN pandas uses for a missing entry. *)
Inductive value : Type :=
  | VInt (z : Z)
  | VFloat (neg : bool) (a : Float64.t)
  | VNaN
  | VBool (b : bool)
  | VStr (s : string).

Global Instance float64_eq_dec : EqDecision Float64.t.
Proof. solve_decision. Defined.

Global Instance value_eq_dec : EqDecision value.
Proof. solve_decision. Defined.

(** A column: label, dtype and cells. *)
Record Series : Type := mkSeries {
  name : string;
  dt : dtype;
  values : list value
}.

(** A frame: the row labels (pandas' index) and the columns, each holding
    one cell per row.  [pd.read_csv] labels the rows [0 .. N-1] and gives
    every column a distinct name. *)
Record DataFrame : Type := mkDF {
  index : list nat;
  columns : list Series
}.

(** [len(df)] *)
Definition len (df : DataFrame) : nat := length (index df).

(** [df.columns] *)
Definition names (df : DataFrame) : list string := name <$> columns df.

(** Every column has one cell per row. *)
Definition rectangular (df : DataFrame) : Prop :=
  Forall (λ c, length (values c) = len df) (columns df).

(** The row at position [i]: its label and its cells, column by column. *)
Definition row_at (df : DataFrame) (i : nat) : option (nat * list (option value)) :=
  lbl ← index df !! i; Some (lbl, (λ c, values c !! i) <$> columns df).

(** *** Element-wise operations *)

(** [df.replace(regex=p, value=repl)]: [re.sub] on every string cell of every
    object column; other cells and other columns are left as they are. *)
Definition replace_value (p : Re.pattern) (repl : string) (v : value) : value :=
  match v with
  | VStr s => VStr (Re.sub p repl s)
  | _ => v
  end.

Definition replace_series (p : Re.pattern) (repl : string) (c : Series) : Series :=
  match dt c with
  | object => mkSeries (name c) object (replace_value p repl <$> values c)
  | _ => c
  end.

Definition replace (p : Re.pattern) (repl : string) (df : DataFrame) : DataFrame :=
  mkDF (index df) (replace_series p repl <$> columns df).

(** [v == z] for an integer [z]. *)
Definition value_eq_int (z : Z) (v : value) : bool :=
  match v with
  | VInt x => x =? z
  | VFloat neg a => Float64.eqb_int a (if neg then - z else z)
  | VBool b => (if b then 1 else 0) =? z
  | VNaN | VStr _ => false
  end.

(** [v in items] for a list of strings, as [Series.isin] tests it. *)
Definition value_isin (items : list string) (v : value) : bool :=
  match v with
  | VStr s => bool_decide (s ∈ items)
  | _ => false
  end.

(** [.astype(int)] on a boolean. *)
Definition bool_to_int (b : bool) : value := VInt (if b then 1 else 0).

(** *** Column access *)

(** [df[label]] for a label held by one column, as the labels of a table
    that was just read are: the column, or [KeyError] if there is none. *)
Definition getitem (label : string) (df : DataFrame) : result Series :=
  match list_find (λ c, name c = label) (columns df) with
  | Some (_, c) => Ok c
  | None => Err (KeyError label)
  end.

(** [df[label] = vs]: overwrite the column of that label in place, or append
    a new last column. *)
Definition setitem (label : string) (d : dtype) (vs : list value) (df : DataFrame) : DataFrame :=
  if bool_decide (label ∈ names df) then
    mkDF (index df)
         ((λ c, if bool_decide (name c = label) then mkSeries label d vs else c) <$> columns df)
  else
    mkDF (index df) (columns df ++ [mkSeries label d vs]).

(** [df.drop(labels, axis=1)]: every label must be present ([KeyError]
    otherwise); all columns carrying one of the labels go. *)
Definition drop_columns (labels : list string) (df : DataFrame) : result DataFrame :=
  match list_find (λ l, l ∉ names df) labels with
  | Some (_, l) => Err (KeyError l)
  | None => Ok (mkDF (index df) (filter (λ c, name c ∉ labels) (columns df)))
  end.

(** [df[label]] on a frame whose labels may repeat (after [get_dummies]):
    all the columns of that label, [KeyError] if there is none. *)
Definition select (label : string) (df : DataFrame) : result DataFrame :=
  if bool_decide (label ∈ names df) then
    Ok (mkDF (index df) (filter (λ c, name c = label) (columns df)))
  else Err (KeyError label).

(** [pd.concat([a, b], axis=1)] of two frames with the same index. *)
Definition concat_columns (a b : DataFrame) : DataFrame :=
  mkDF (index a) (columns a ++ columns b).

(** *** One-hot encoding *)

(** *** The text of a number: Python's [str]

    [pd.get_dummies] labels an indicator column with [str] of its level.
    For an int that is its decimal numeral; for a float it is the shortest
    decimal numeral that reads back as the same double, written with an
    exponent when the decimal point falls outside the digits by more than
    a few places. *)
Module PyStr.

Definition digit (d : Z) : ascii :=
  ascii_of_nat (48 + Z.to_nat d).

(** The decimal numeral of a non-negative integer, prepended to [acc]. *)
Fixpoint decimal_go (fuel : nat) (n : Z) (acc : string) : string :=
  match fuel with
  | O => acc
  | S fuel' =>
      let acc' := String (digit (n mod 10)) acc in
      if n <? 10 then acc' else decimal_go fuel' (n / 10) acc'
  end.

Definition decimal (n : Z) : string :=
  decimal_go (S (Z.to_nat (Z.log2 n))) n "".

(** [str(z)] for an int. *)
Definition of_int (z : Z) : string :=
  if z <? 0 then "-" +:+ decimal (- z) else decimal z.

(** [num / den < 10^d], for positive [num] and [den]. *)
Definition below_pow10 (num den d : Z) : bool :=
  if 0 <=? d then num <? den * 10 ^ d else num * 10 ^ (- d) <? den.

(** The position of the decimal point: the least [d] from [start] on with
    [num / den < 10^d]. *)
Fixpoint find_point (fuel : nat) (num den d : Z) : Z :=
  match fuel with
  | O => d
  | S fuel' => if below_pow10 num den d then d else find_point fuel' num den (d + 1)
  end.

Definition point (num den : Z) : Z :=
  find_point 8 num den ((Z.log2 num - Z.log2 den - 1) * 1233 / 4096 - 1).

(** The double nearest to [num / den] (ties to even), as [m * 2^q]; below
    [2^-1022] the doubles are the multiples of [2^-1074]. *)
Definition to_double (num den : Z) : Z * Z :=
  let l := Z.log2 num - Z.log2 den in
  let l := if (if 0 <=? l then num <? den * 2 ^ l else num * 2 ^ (- l) <? den)
           then l - 1 else l in
  let q := Z.max (l - 52) (-1074) in
  let a := if 0 <=? q then num else num * 2 ^ (- q) in
  let b := if 0 <=? q then den * 2 ^ q else den in
  let f := a / b in
  let r := a mod b in
  let up := (b <? 2 * r) || ((2 * r =? b) && Z.odd f) in
  (if up then f + 1 else f, q).

(** Whether [c * 10^k] reads back as [num / den]. *)
Definition reads_back (c k num den : Z) : bool :=
  let '(m, q) := if 0 <=? k then to_double (c * 10 ^ k) 1 else to_double c (10 ^ (- k)) in
  (* m * 2^q = num / den *)
  if 0 <=? q then m * 2 ^ q * den =? num else m * den =? num * 2 ^ (- q).

(** The shortest digits: for [n = 1, 2, ...] the integers next to
    [num / den * 10^(n - d)] are tried; of two that read back the nearer one
    is taken.  Seventeen digits always read back. *)
Fixpoint shortest (fuel : nat) (n d num den : Z) : Z * Z :=
  let a := if 0 <=? n - d then num * 10 ^ (n - d) else num in
  let b := if 0 <=? n - d then den else den * 10 ^ (d - n) in
  let lo := a / b in
  let r := a mod b in
  let ok_lo := reads_back lo (d - n) num den in
  let ok_hi := negb (r =? 0) && reads_back (lo + 1) (d - n) num den in
  let nearer_lo := (2 * r <? b) || ((2 * r =? b) && Z.even lo) in
  match fuel with
  | O => (if nearer_lo then lo else lo + 1, n)
  | S fuel' =>
      if ok_lo && (negb ok_hi || nearer_lo) then (lo, n)
      else if ok_hi then (lo + 1, n)
      else shortest fuel' (n + 1) d num den
  end.

(** Drop the zeros that end a numeral. *)
Fixpoint strip_zeros (fuel : nat) (c : Z) : Z :=
  match fuel with
  | O => c
  | S fuel' => if (c mod 10 =? 0) && negb (c =? 0) then strip_zeros fuel' (c / 10) else c
  end.

Definition zeros (k : Z) : string :=
  String.concat "" (replicate (Z.to_nat k) "0").

(** [repr] of the positive double [m * 2^e]. *)
Definition of_positive (m e : Z) : string :=
  let num := if 0 <=? e then m * 2 ^ e else m in
  let den := if 0 <=? e then 1 else 2 ^ (- e) in
  let d0 := point num den in
  let '(c, n) := shortest 16 1 d0 num den in
  (* [c] has [n] digits, or is [10^n] *)
  let d := if c =? 10 ^ n then d0 + 1 else d0 in
  let ds := decimal (strip_zeros 17 c) in
  let len := Z.of_nat (String.length ds) in
  if (d <=? -4) || (16 <? d) then
    let x := d - 1 in
    let mantissa :=
      match ds with
      | String c1 EmptyString => String c1 EmptyString
      | String c1 rest => String c1 ("." +:+ rest)
      | EmptyString => EmptyString
      end in
    let digits := decimal (Z.abs x) in
    mantissa +:+ "e" +:+ (if x <? 0 then "-" else "+")
      +:+ (if Z.abs x <? 10 then "0" +:+ digits else digits)
  else if d <=? 0 then "0." +:+ zeros (- d) +:+ ds
  else if d <? len then
    substring 0 (Z.to_nat d) ds +:+ "." +:+ substring (Z.to_nat d) (Z.to_nat (len - d)) ds
  else ds +:+ zeros (d - len) +:+ ".0".

(** [str(x)] for the float [± m * 2^e]. *)
Definition of_float (negative : bool) (m e : Z) : string :=
  (if negative then "-" else "")
  +:+ (if m <=? 0 then "0.0" else of_positive m e).

End PyStr.

(** Whether a cell is missing. *)
Definition missing (v : value) : bool :=
  match v with VNaN => true | _ => false end.

(** The number a cell stands for when Python compares it, as [n / 2^k]:
    booleans count as 0 and 1; strings and missing cells are no numbers. *)
Definition number_of (v : value) : option (Z * Z) :=
  match v with
  | VInt z => Some (z, 0)
  | VBool b => Some (if b then 1 else 0, 0)
  | VFloat neg a =>
      let m := if neg then - Float64.mant a else Float64.mant a in
      Some (if 0 <=? Float64.expo a then (m * 2 ^ Float64.expo a, 0)
            else (m, - Float64.expo a))
  | VNaN | VStr _ => None
  end.

Definition number_compare (p q : Z * Z) : comparison :=
  p.1 * 2 ^ q.2 ?= q.1 * 2 ^ p.2.

(** The order the levels are put in ([safe_sort]): the numbers first, by
    value, then the strings in code-point order.  (A missing cell is no
    level; it is placed last to make the comparison total.) *)
Definition level_compare (v w : value) : comparison :=
  match number_of v, number_of w with
  | Some p, Some q => number_compare p q
  | Some _, None => Lt
  | None, Some _ => Gt
  | None, None =>
      match v, w with
      | VStr s, VStr t => String.compare s t
      | VStr _, _ => Lt
      | _, VStr _ => Gt
      | _, _ => Eq
      end
  end.

(** Whether two cells are the same level: neither is missing and Python
    finds them equal, as the hash table of [factorize] does ([True], [1]
    and [1.0] are one level). *)
Definition same_level (v w : value) : bool :=
  negb (missing v) && negb (missing w) && bool_decide (level_compare v w = Eq).

(** [factorize]: the cells that are not missing, every level once, in the
    order of first appearance and in the form it first appears in. *)
Fixpoint uniques (vs : list value) : list value :=
  match vs with
  | [] => []
  | v :: vs' =>
      if missing v then uniques vs'
      else v :: filter (λ u, same_level v u = false) (uniques vs')
  end.

(** Insertion into a list of levels in increasing order. *)
Fixpoint insert_level (v : value) (l : list value) : list value :=
  match l with
  | [] => [v]
  | x :: l' =>
      match level_compare v x with
      | Gt => x :: insert_level v l'
      | _ => v :: l
      end
  end.

(** The levels of an object column: its distinct cells, sorted; missing
    entries are no level ([dummy_na=False]). *)
Definition categories (vs : list value) : list value :=
  foldr insert_level [] (uniques vs).

(** [str(level)], the text a level is labelled with. *)
Definition level_text (v : value) : string :=
  match v with
  | VStr s => s
  | VBool b => if b then "True" else "False"
  | VInt z => PyStr.of_int z
  | VFloat neg a => PyStr.of_float neg (Float64.mant a) (Float64.expo a)
  | VNaN => "nan"
  end.

(** The indicator column of one level, named [prefix_level]; its cells are
    the integers 0 and 1 (dtype uint8), as [get_dummies] makes them in the
    pandas 1.x of the scikit-learn 0.23 container the notebook runs in. *)
Definition dummy_column (c : Series) (level : value) : Series :=
  mkSeries (name c +:+ "_" +:+ level_text level) uint8
           ((λ v, VInt (if same_level v level then 1 else 0)) <$> values c).

Definition dummies (c : Series) : list Series :=
  dummy_column c <$> categories (values c).

(** [pd.get_dummies(df)]: the columns that are not of object dtype, in their
    order, followed by the indicator columns of each object column in turn. *)
Definition get_dummies (df : DataFrame) : DataFrame :=
  mkDF (index df)
       (filter (λ c, dt c ≠ object) (columns df)
        ++ (filter (λ c, dt c = object) (columns df) ≫= dummies)).

(** *** Row selection *)

(** [l.take(p)]: the entries of [l] at the positions [p], in that order. *)
Definition take_rows {A} (p : list nat) (l : list A) : list A :=
  omap (λ i, l !! i) p.

Definition take_frame (p : list nat) (df : DataFrame) : DataFrame :=
  mkDF (take_rows p (index df))
       ((λ c, mkSeries (name c) (dt c) (take_rows p (values c))) <$> columns df).

(** [l[st:en]] *)
Definition slice {A} (st en : nat) (l : list A) : list A :=
  take (en - st) (drop st l).

(** [df[st:en]], by position. *)
Definition slice_frame (st en : nat) (df : DataFrame) : DataFrame :=
  mkDF (slice st en (index df))
       ((λ c, mkSeries (name c) (dt c) (slice st en (values c))) <$> columns df).

(** [np.split(df, [i1, i2])]: the row ranges [0:i1], [i1:i2] and [i2:N]. *)
Definition np_split (df : DataFrame) (i1 i2 : nat) : DataFrame * DataFrame * DataFrame :=
  (slice_frame 0 i1 df, slice_frame i1 i2 df, slice_frame i2 (len df) df).

(** *** CSV records *)

(** The cells of the row at position [i]. *)
Definition record_at (df : DataFrame) (i : nat) : list value :=
  omap (λ c, values c !! i) (columns df).

(** What [to_csv(index=..., header=...)] writes: an optional line of column
    names, then one record per row, each optionally led by the row label. *)
Definition csv_records (with_index with_header : bool) (df : DataFrame) : list (list value) :=
  (if with_header then [VStr <$> names df] else [])
  ++ imap (λ i lbl, (if with_index then [VInt (Z.of_nat lbl)] else []) ++ record_at df i)
          (index df).

(** ** Paths *)

(** [os.path.join(a, b)] on POSIX. *)
Definition path_join (a b : string) : string :=
  if String.prefix "/" b then b
  else if bool_decide (a = "") || String.prefix "/" (String.rev a) then a +:+ b
  else a +:+ "/" +:+ b.

(** Drop the slashes that end a string. *)
Fixpoint rstrip_slash (s : string) : string :=
  match s with
  | EmptyString => EmptyString
  | String c s' =>
      match rstrip_slash s' with
      | EmptyString => if Ascii.eqb c "/" then EmptyString else String c EmptyString
      | t => String c t
      end
  end.

(** The part of a path up to and including its last slash. *)
Fixpoint head_of (s : string) : string :=
  match s with
  | EmptyString => EmptyString
  | String c s' =>
      match head_of s' with
      | EmptyString => if Ascii.eqb c "/" then String c EmptyString else EmptyString
      | t => String c t
      end
  end.

(** [os.path.dirname(p)] on POSIX: the head, without its trailing slashes
    unless it consists of slashes only. *)
Definition dirname (p : string) : string :=
  let h := head_of p in
  match rstrip_slash h with
  | EmptyString => h
  | t => t
  end.

(** ** Command-line arguments

    The namespace [parse_known_args] returns; [default_args] holds the
    defaults declared in [_parse_args]. *)
Record Args : Type := mkArgs {
  filepath : string;
  filename : string;
  outputpath : string;
  categorical_features : string
}.

Definition default_args : Args :=
  mkArgs "/opt/ml/processing/input/"
         "bank-additional-full.csv"
         "/opt/ml/processing/output/"
         "y, job, marital, education, default, housing, loan, contact, month, day_of_week, poutcome".

(** ** The random generator

    [df.sample(frac=1, random_state=42)] asks numpy for a permutation of the
    row positions, drawn from a generator freshly seeded with 42.  numpy's
    Mersenne Twister is outside the notebook; it enters as an interface:
    seeding, and drawing a permutation of [0 .. n-1] from a generator state. *)
Class RandomState : Type := {
  rng : Type;
  seeded : Z → rng;
  permutation : rng → nat → list nat * rng;
  permutation_perm : ∀ g n, (permutation g n).1 ≡ₚ seq 0 n
}.

(** A generator for running the model: its state is a counter, and a draw
    rotates the positions by the counter. *)
Definition rotate_permutation (g n : nat) : list nat :=
  drop (g `mod` S n) (seq 0 n) ++ take (g `mod` S n) (seq 0 n).

Definition rotating_generator : RandomState.
Proof.
  refine {| rng := nat;
            seeded z := Z.to_nat z;
            permutation g n := (rotate_permutation g n, S g) |}.
  intros g n. simpl. unfold rotate_permutation.
  rewrite (Permutation_app_comm _ _). by rewrite take_drop.
Defined.

Section Script.

Context `{RandomState}.

(** ** The world the script runs in

    [tables]: the CSV files that can be read, each identified with the
    frame [pd.read_csv] parses from it; [dirs]: the directories that
    exist, by path; [files]: the files written by [to_csv], as records;
    [stdout]: the lines printed; [global_rng]: numpy's global generator. *)
Record World : Type := mkWorld {
  tables : gmap string DataFrame;
  dirs : gset string;
  files : gmap string (list (list value));
  stdout : list string;
  global_rng : rng
}.

(** A computation: it ends in a value or in an exception, and leaves a
    world behind in both cases. *)
Definition M (A : Type) : Type := World → result A * World.

Definition ret {A} (a : A) : M A := λ w, (Ok a, w).

Definition bind {A B} (c : M A) (k : A → M B) : M B :=
  λ w, match c w with
       | (Ok a, w') => k a w'
       | (Err e, w') => (Err e, w')
       end.

(** A pure step that may raise. *)
Definition lift {A} (r : result A) : M A := λ w, (r, w).

Global Instance M_ret : MRet M := @ret.
Global Instance M_bind : MBind M := λ A B k c, bind c k.

(** [pd.read_csv(path)] *)
Definition read_csv (path : string) : M DataFrame :=
  λ w, match tables w !! path with
       | Some df => (Ok df, w)
       | None => (Err (FileNotFoundError path), w)
       end.

(** The world after a file has been created or overwritten. *)
Definition write_file (path : string) (records : list (list value)) (w : World) : World :=
  mkWorld (delete path (tables w)) (dirs w) (<[path := records]> (files w))
          (stdout w) (global_rng w).

(** The world after a line has been printed. *)
Definition print_line (line : string) (w : World) : World :=
  mkWorld (tables w) (dirs w) (files w) (stdout w ++ [line]) (global_rng w).

(** Whether a file can be created at [path]: its directory has to exist
    (the empty directory name stands for the working directory). *)
Definition writable (path : string) (w : World) : Prop :=
  dirname path = "" ∨ dirname path ∈ dirs w.

(** [df.to_csv(path, index=..., header=...)]: the file is created or
    overwritten; no directory is created, [OSError] if it is missing. *)
Definition to_csv (path : string) (with_index with_header : bool) (df : DataFrame) : M unit :=
  λ w, if bool_decide (writable path w) then
         (Ok (), write_file path (csv_records with_index with_header df) w)
       else (Err (OSError path), w).

(** [print(line)] *)
Definition print (line : string) : M unit :=
  λ w, (Ok (), print_line line w).

(** [df.sample(frac=1, random_state=...)]: all rows, in the order of a
    permutation drawn from a generator seeded with [random_state], or from
    the global generator when no [random_state] is given. *)
Definition sample (random_state : option Z) (df : DataFrame) : M DataFrame :=
  λ w, match random_state with
       | Some s => (Ok (take_frame (permutation (seeded s) (len df)).1 df), w)
       | None =>
           let '(p, g) := permutation (global_rng w) (len df) in
           (Ok (take_frame p df),
            mkWorld (tables w) (dirs w) (files w) (stdout w) g)
       end.

(** ** The script *)

(** [# Change the value . into _] *)
Definition normalize (df : DataFrame) : DataFrame :=
  let df := replace Re.dot "_" df in
  replace Re.underscore_eol "" df.

(** [# Add two new indicators] *)
Definition add_indicators (df : DataFrame) : result DataFrame :=
  match getitem "pdays" df with
  | Err e => Err e
  | Ok pdays =>
      let df := setitem "no_previous_contact" int64
                  ((λ v, bool_to_int (value_eq_int 999 v)) <$> values pdays) df in
      match getitem "job" df with
      | Err e => Err e
      | Ok job =>
          Ok (setitem "not_working" int64
                ((λ v, bool_to_int (value_isin ["student"; "retired"; "unemployed"] v))
                   <$> values job) df)
      end
  end.

(** The columns the script drops. *)
Definition pruned : list string :=
  ["duration"; "emp.var.rate"; "cons.price.idx"; "cons.conf.idx"; "euribor3m"; "nr.employed"].

Definition prune (df : DataFrame) : result DataFrame := drop_columns pruned df.

(** [# Train, test, validation split] *)
Definition shuffle_split (df : DataFrame) : M (DataFrame * DataFrame * DataFrame) :=
  shuffled ← sample (Some 42) df;
  mret (np_split shuffled (Z.to_nat (cut_0_7 (Z.of_nat (len df))))
                         (Z.to_nat (cut_0_9 (Z.of_nat (len df))))).

(** The label column(s) and the feature columns of a partition. *)
Definition label_of (part : DataFrame) : result DataFrame := select "y_yes" part.
Definition features_of (part : DataFrame) : result DataFrame :=
  drop_columns ["y_yes"; "y_no"] part.

(** [pd.concat([part['y_yes'], part.drop(['y_yes','y_no'], axis=1)], axis=1)
      .to_csv(path, index=False, header=False)] *)
Definition store_labelled (part : DataFrame) (path : string) : M unit :=
  y ← lift (label_of part);
  x ← lift (features_of part);
  to_csv path false false (concat_columns y x).

(** [if __name__ == "__main__":] the script, statement by statement.  It
    returns the three partitions [train_data], [validation_data] and
    [test_data] it has built. *)
Definition main (args : Args) : M (DataFrame * DataFrame * DataFrame) :=
  df ← read_csv (path_join (filepath args) (filename args));
  let df := normalize df in
  df ← lift (add_indicators df);
  df ← lift (prune df);
  let df := get_dummies df in
  parts ← shuffle_split df;
  let '(train_data, validation_data, test_data) := parts in
  store_labelled train_data (path_join (outputpath args) "train/train.csv");;
  store_labelled validation_data (path_join (outputpath args) "validation/validation.csv");;
  y ← lift (label_of test_data);
  to_csv (path_join (outputpath args) "test/test_y.csv") false false y;;
  x ← lift (features_of test_data);
  to_csv (path_join (outputpath args) "test/test_x.csv") false false x;;
  print "## Processing complete. Exiting.";;
  mret (train_data, validation_data, test_data).

(** The paths the script reads and writes. *)
Definition input_of (args : Args) : string := path_join (filepath args) (filename args).
Definition train_csv (args : Args) : string := path_join (outputpath args) "train/train.csv".
Definition validation_csv (args : Args) : string :=
path_join (outputpath args) "validation/validation.csv".
Definition test_y_csv (args : Args) : string := path_join (outputpath args) "test/test_y.csv".
Definition test_x_csv (args : Args) : string := path_join (outputpath args) "test/test_x.csv".

(** The frame the partitions are cut from: the loaded table after
    normalization, indicator derivation, pruning and encoding. *)
Definition derive (df : DataFrame) : result DataFrame :=
  match add_indicators (normalize df) with
  | Err e => Err e
  | Ok df =>
      match prune df with
      | Err e => Err e
      | Ok df => Ok (get_dummies df)
      end
  end.

End Script.

(** ** A small table in the layout of [bank-additional-full.csv]

    Ten rows with the columns the script names and one more categorical
    column; used to run the model. *)
Definition flt (m e : Z) : value := VFloat false (Float64.mk m e).

Definition bank_sample : DataFrame :=
  mkDF (seq 0 10)
    [ mkSeries "age" int64 (VInt <$> [56; 57; 37; 40; 56; 45; 59; 41; 24; 25]);
      mkSeries "job" object
        (VStr <$> ["housemaid"; "services"; "admin."; "student"; "retired";
                   "unemployed"; "admin."; "blue-collar"; "technician"; "student"]);
      mkSeries "marital" object
        (VStr <$> ["married"; "married"; "single"; "single"; "married";
                   "married"; "divorced"; "married"; "single"; "single"]);
      mkSeries "duration" int64 (VInt <$> [261; 149; 226; 151; 307; 198; 139; 217; 380; 50]);
      mkSeries "pdays" int64 (VInt <$> [999; 999; 6; 999; 3; 999; 999; 999; 999; 12]);
      mkSeries "emp.var.rate" float64 (replicate 10 (flt 0x1199999999999a (-52)));
      mkSeries "cons.price.idx" float64 (replicate 10 (flt 0x177f9db22d0e56 (-46)));
      mkSeries "cons.conf.idx" float64 (replicate 10 (VFloat true (Float64.mk 0x12333333333333 (-47))));
      mkSeries "euribor3m" float64 (replicate 10 (flt 0x136d916872b021 (-50)));
      mkSeries "nr.employed" float64 (replicate 10 (flt 5191 0));
      mkSeries "y" object
        (VStr <$> ["no"; "no"; "yes"; "no"; "yes"; "no"; "no"; "no"; "yes"; "no"]) ].

(** As many rows as wanted in the same layout. *)
Definition bank_rows (n : nat) : DataFrame :=
  let cycle (l : list string) (i : nat) : value :=
    VStr (default "" (l !! (i `mod` length l)%nat)) in
  let col (f : nat → value) : list value := f <$> seq 0 n in
  mkDF (seq 0 n)
    [ mkSeries "age" int64 (col (λ i, VInt (20 + Z.of_nat (i `mod` 50))));
      mkSeries "job" object
        (col (cycle ["admin."; "student"; "blue-collar"; "retired"; "services"; "unemployed"]));
      mkSeries "duration" int64 (col (λ i, VInt (100 + Z.of_nat i)));
      mkSeries "pdays" int64
        (col (λ i, VInt (if (i `mod` 4 =? 0)%nat then 999 else Z.of_nat (i `mod` 30))));
      mkSeries "emp.var.rate" float64 (col (λ _, flt 0x1199999999999a (-52)));
      mkSeries "cons.price.idx" float64 (col (λ _, flt 0x177f9db22d0e56 (-46)));
      mkSeries "cons.conf.idx" float64
        (col (λ _, VFloat true (Float64.mk 0x12333333333333 (-47))));
      mkSeries "euribor3m" float64 (col (λ _, flt 0x136d916872b021 (-50)));
      mkSeries "nr.employed" float64 (col (λ _, flt 5191 0));
      mkSeries "y" object (col (cycle ["no"; "yes"; "no"])) ].

Definition input_path : string := "/opt/ml/processing/input/bank-additional-full.csv".

(** A world as the processing container sets it up: the input file in place
    and the three output directories created. *)
Definition container_with (df : DataFrame) : @World rotating_generator :=
  @mkWorld rotating_generator
    {[ input_path := df ]}
    {[ "/opt/ml/processing/output/train";
       "/opt/ml/processing/output/validation";
       "/opt/ml/processing/output/test" ]}
    ∅ [] 7%nat.

Definition container_world : @World rotating_generator := container_with bank_sample.

(** The same world with an output directory that exists but is empty. *)
Definition bare_world : @World rotating_generator :=
  @mkWorld rotating_generator
    {[ input_path := bank_sample ]}
    {[ "/opt/ml/processing/output" ]}
    ∅ [] 7%nat.

(** A second container world around the same input file: another state of
    the global generator, earlier output on the console, and files left by
    an earlier job. *)
Definition reused_world : @World rotating_generator :=
  @mkWorld rotating_generator
    {[ input_path := bank_sample ]}
    {[ "/opt/ml/processing/output/train";
       "/opt/ml/processing/output/validation";
       "/opt/ml/processing/output/test";
       "/opt/ml/processing/output" ]}
    {[ "/opt/ml/processing/output/test/test_y.csv" := [[VInt 0]; [VInt 0]];
       "/opt/ml/processing/output/notes.txt" := [[VStr "left over"]] ]}
    ["an earlier line"] 1234%nat.

(** The run of the script in [container_world], evaluated once: the three
    partitions it returns and the world it leaves. *)
Definition no_frame : DataFrame := mkDF [] [].

Definition sample_outcome : result (DataFrame * DataFrame * DataFrame) * @World rotating_generator :=
  Eval vm_compute in @main rotating_generator default_args container_world.

Definition sample_train : DataFrame :=
  Eval vm_compute in match sample_outcome.1 with Ok (tr, _, _) => tr | Err _ => no_frame end.

Definition sample_validation : DataFrame :=
  Eval vm_compute in match sample_outcome.1 with Ok (_, va, _) => va | Err _ => no_frame end.

Definition sample_test : DataFrame :=
  Eval vm_compute in match sample_outcome.1 with Ok (_, _, te) => te | Err _ => no_frame end.

Definition sample_final_world : @World rotating_generator :=
  Eval vm_compute in sample_outcome.2.

(** The same for [reused_world]. *)
Definition reused_final_world : @World rotating_generator :=
  Eval vm_compute in (@main rotating_generator default_args reused_world).2.

(** The partitions of a 90-row table in a container world. *)
Definition ninety_outcome : result (DataFrame * DataFrame * DataFrame) * @World rotating_generator :=
  Eval vm_compute in @main rotating_generator default_args (container_with (bank_rows 90)).

Definition ninety_train : DataFrame :=
  Eval vm_compute in match ninety_outcome.1 with Ok (tr, _, _) => tr | Err _ => no_frame end.

Definition ninety_validation : DataFrame :=
  Eval vm_compute in match ninety_outcome.1 with Ok (_, va, _) => va | Err _ => no_frame end.

Definition ninety_test : DataFrame :=
  Eval vm_compute in match ninety_outcome.1 with Ok (_, _, te) => te | Err _ => no_frame end.

Definition ninety_final_world : @World rotating_generator :=
  Eval vm_compute in ninety_outcome.2.

(** ** Vocabulary of the statements *)

(** The normalization of one cell: both replacements in turn. *)
Definition normalize_value (v : value) : value :=
  replace_value Re.underscore_eol "" (replace_value Re.dot "_" v).

(** The normalization of one column. *)
Definition normalize_series (c : Series) : Series :=
  replace_series Re.underscore_eol "" (replace_series Re.dot "_" c).

(** Among the columns [cs], the label [label] is present and every column
    that carries it is [c0]. *)
Definition column_is (label : string) (c0 : Series) (cs : list Series) : Prop :=
  label ∈ name <$> cs ∧ ∀ c, c ∈ cs → name c = label → c = c0.

(** The job categories the script counts as not working. *)
Definition not_working_jobs : list string := ["student"; "retired"; "unemployed"].

(** Whether a cell is a string. *)
Definition textual (v : value) : bool :=
  match v with VStr _ => true | _ => false end.

(** Whether every character of a string passes a test. *)
Fixpoint string_forall (P : ascii → bool) (s : string) : bool :=
  match s with
  | EmptyString => true
  | String c s' => P c && string_forall P s'
  end.

(** A cell that holds a number equal to the integer [z]: an integer, a
    float or a boolean, the number being [m / 2^k]; never a string or a
    missing cell. *)
Definition equals_integer (z : Z) (v : value) : Prop :=
  match number_of v with
  | Some (m, k) => m = z * 2 ^ k
  | None => False
  end.

(** A field that reads as one of the names [items]: the name itself, or the
    name followed by a single full stop or a single underscore. *)
Definition reads_as (items : list string) (v : value) : Prop :=
  ∃ t, t ∈ items ∧ (v = VStr t ∨ v = VStr (t +:+ ".") ∨ v = VStr (t +:+ "_")).

(** The characters of a name that the normalization leaves alone and that
    do not end a line. *)
Definition plain_char (c : ascii) : bool :=
  negb (Ascii.eqb c ".") && negb (Ascii.eqb c "_") && negb (Ascii.eqb c Re.newline).

(** The sample table with three of the jobs spelled with a final full
    stop, as "admin." is in the data. *)
Definition full_stop_sample : DataFrame :=
  setitem "job" object
    (VStr <$> ["retired."; "services"; "admin."; "student."; "retired";
               "unemployed."; "admin."; "blue-collar"; "technician"; "student"])
    bank_sample.

Definition full_stop_derived : DataFrame :=
  Eval vm_compute in match derive full_stop_sample with Ok d => d | Err _ => no_frame end.

(** The sample table with a numeric column of its own labelled [y_yes]
    beside the answers [y]. *)
Definition labelled_sample : DataFrame :=
  setitem "y_yes" int64 (VInt <$> [7; 7; 7; 7; 7; 7; 7; 7; 7; 7]) bank_sample.

Definition labelled_outcome
    : result (DataFrame * DataFrame * DataFrame) * @World rotating_generator :=
  Eval vm_compute in @main rotating_generator default_args (container_with labelled_sample).

Definition labelled_train : DataFrame :=
  Eval vm_compute in match labelled_outcome.1 with Ok (tr, _, _) => tr | Err _ => no_frame end.

Definition labelled_validation : DataFrame :=
  Eval vm_compute in match labelled_outcome.1 with Ok (_, va, _) => va | Err _ => no_frame end.

Definition labelled_test : DataFrame :=
  Eval vm_compute in match labelled_outcome.1 with Ok (_, _, te) => te | Err _ => no_frame end.

Definition labelled_final_world : @World rotating_generator :=
  Eval vm_compute in labelled_outcome.2.


(** The normalization of one string. *)
Definition normalize_string (s : string) : string :=
  Re.sub Re.underscore_eol "" (Re.sub Re.dot "_" s).

(** *** The normalization in the words of the specification *)

(** "Replace every literal [.] character with [_]". *)
Fixpoint spec_replace_dots (s : string) : string :=
  match s with
  | EmptyString => EmptyString
  | String c s' => String (if Ascii.eqb c "." then "_"%char else c) (spec_replace_dots s')
  end.

(** "Strip a single trailing [_] if one remains at the end of the value". *)
Fixpoint spec_strip_trailing (s : string) : string :=
  match s with
  | EmptyString => EmptyString
  | String c s' =>
      match s' with
      | EmptyString => if Ascii.eqb c "_" then EmptyString else s
      | _ => String c (spec_strip_trailing s')
      end
  end.

Definition spec_normalize (s : string) : string :=
  spec_strip_trailing (spec_replace_dots s).

(** Strip a single [_] that ends the string or stands just before a newline
    that ends it. *)
Fixpoint strip_at_eol (s : string) : string :=
  match s with
  | EmptyString => EmptyString
  | String c s' =>
      if Ascii.eqb c "_" && Re.at_eol s' then s' else String c (strip_at_eol s')
  end.

(** Whether a string ends in a newline. *)
Fixpoint ends_in_newline (s : string) : bool :=
  match s with
  | EmptyString => false
  | String c s' =>
      match s' with
      | EmptyString => Ascii.eqb c Re.newline
      | _ => ends_in_newline s'
      end
  end.



(** The two label indicator columns. *)
Definition label_columns : list string := ["y_yes"; "y_no"].




(** The labels the script looks up by name. *)
Definition looked_up : list string := ["pdays"; "job"] ++ pruned ++ label_columns.

(** The arguments with another categorical-features string. *)
Definition with_categorical (cats : string) (args : Args) : Args :=
  mkArgs (filepath args) (filename args) (outputpath args) cats.

(** The column names a categorical-features string lists: its
    comma-separated items, blanks dropped.  (The script never splits the
    string; this is how the invocation surface describes it.) *)
Fixpoint split_commas (cur : string) (s : string) : list string :=
  match s with
  | EmptyString => [String.rev cur]
  | String c s' =>
      if Ascii.eqb c "," then String.rev cur :: split_commas EmptyString s'
      else if Ascii.eqb c " " then split_commas cur s'
      else split_commas (String c cur) s'
  end.

Definition listed_columns (cats : string) : list string := split_commas EmptyString cats.


(** The arguments with a list that names a column no table here has. *)
Definition stray_args : Args := with_categorical "y, job, no_such_column" default_args.


(** ** Vocabulary of the further properties *)

(** *** Levels *)

(** The cell at position [i] is the first of its level. *)
Definition first_of_level (vs : list value) (i : nat) (x : value) : Prop :=
  vs !! i = Some x ∧ missing x = false ∧
  ∀ j u, (j < i)%nat → vs !! j = Some u → same_level u x = false.

(** The strict order of the levels. *)
Definition level_lt (v w : value) : Prop := level_compare v w = Lt.

(** The characters the text of a number is made of. *)
Definition number_char (c : ascii) : bool :=
  bool_decide (c ∈ ["0"; "1"; "2"; "3"; "4"; "5"; "6"; "7"; "8"; "9";
                    "-"; "+"; "."; "e"]%char).

(** The records of the file written for a partition with both label
    columns: the label first, then the features. *)
Definition labelled_records (part : DataFrame) : list (list value) :=
  csv_records false false
    (concat_columns
       (mkDF (index part) (filter (λ c, name c = "y_yes") (columns part)))
       (mkDF (index part) (filter (λ c, name c ∉ label_columns) (columns part)))).

Definition label_records (part : DataFrame) : list (list value) :=
  csv_records false false
    (mkDF (index part) (filter (λ c, name c = "y_yes") (columns part))).

Definition feature_records (part : DataFrame) : list (list value) :=
  csv_records false false
    (mkDF (index part) (filter (λ c, name c ∉ label_columns) (columns part))).

(** The partitions of a derived frame, as the script cuts them. *)
Definition partitions `{RandomState} (d : DataFrame) : DataFrame * DataFrame * DataFrame :=
  np_split (take_frame (permutation (seeded 42) (len d)).1 d)
           (Z.to_nat (cut_0_7 (Z.of_nat (len d))))
           (Z.to_nat (cut_0_9 (Z.of_nat (len d)))).

(** A container world in which only the [train] directory has been made. *)
Definition half_made_world : @World rotating_generator :=
  @mkWorld rotating_generator
    {[ input_path := bank_sample ]}
    {[ "/opt/ml/processing/output/train" ]}
    ∅ [] 7%nat.

(** The world the script leaves there. *)
Definition half_made_final_world : @World rotating_generator :=
  Eval vm_compute in (@main rotating_generator default_args half_made_world).2.

(** The labels of the two indicator columns. *)
Definition indicators : list string := ["no_previous_contact"; "not_working"].

(** Where the indicator column [y_lvl] of the derived frame can come from:
    a column of that label that is not of object dtype, or an object column
    [y] with a string cell whose normalized text is [lvl]. *)
Definition label_source (df0 : DataFrame) (lvl : string) : Prop :=
  (∃ c, c ∈ columns df0 ∧ dt c ≠ object ∧ name c = "y_" +:+ lvl) ∨
  (∃ c s, c ∈ columns df0 ∧ dt c = object ∧ name c = "y" ∧
          VStr s ∈ values c ∧ normalize_string s = lvl).

(** The derived frame of the sample table. *)
Definition sample_derived : DataFrame :=
  Eval vm_compute in match derive bank_sample with Ok d => d | Err _ => no_frame end.

(** Three clients of the sample table who all declined. *)
Definition refusals : DataFrame := take_frame [0; 1; 3]%nat bank_sample.

Definition refusals_derived : DataFrame :=
  Eval vm_compute in match derive refusals with Ok d => d | Err _ => no_frame end.

(** The cells of row [i] in the indicator columns of [c]. *)
Definition dummy_cells (c : Series) (i : nat) : list (option value) :=
  (λ d, values d !! i) <$> dummies c.

(** A table as [pd.read_csv] builds it: strings are held by columns of
    object dtype only. *)
Definition well_typed (df : DataFrame) : Prop :=
  ∀ c, c ∈ columns df → dt c ≠ object → Forall (λ v, textual v = false) (values c).

(** A cell that holds the integer 0 or 1. *)
Definition is_bit (v : value) : Prop := v = VInt 0 ∨ v = VInt 1.

(** ** Batch prediction (notebook cell 16)

    [predict(data, predictor, rows=500)] cuts the rows of [data] into
    batches, sends each batch to the endpoint and joins the answers. *)

(** The exceptions [predict] can end in; what the endpoint raises is kept
    as it comes. *)
Inductive predict_error (E : Type) : Type :=
  | ZeroDivisionError
  | OverflowError
  | ValueError
  | EndpointError (e : E).
Arguments ZeroDivisionError {E}.
Arguments OverflowError {E}.
Arguments ValueError {E}.
Arguments EndpointError {E} e.

(** *** The number of batches: [int(data.shape[0] / float(rows) + 1)]

    The quotient and the sum are double-precision operations.  A double is
    carried as a sign and a magnitude [m * 2^e] with [m] of at most 53
    bits.  The exponent is not bounded here: the only inputs that leave the
    normal range are refused by [float(rows)] ([OverflowError]) or give a
    quotient below [2^-1022], which is absorbed by the addition of 1 as it
    is in hardware. *)
Module Batches.

Record signed := mkSigned { negative : bool; magnitude : Float64.t }.

(** [float(z)] for a Python int: the nearest double, [OverflowError] when
    that is beyond the largest double. *)
Definition of_int {E} (z : Z) : predict_error E + signed :=
  let m := Float64.rnd (Z.abs z) in
  if 2 ^ 1024 <=? m then inl OverflowError
  else inr (mkSigned (z <? 0) (Float64.mk m 0)).

(** Correctly rounded quotient of two magnitudes, the divisor not zero: the
    quotient is computed to more than 55 bits with a sticky bit for the
    remainder, then rounded to 53. *)
Definition div_magnitude (a b : Float64.t) : Float64.t :=
  if Float64.mant a =? 0 then Float64.mk 0 0
  else
    let k := Z.max 0 (56 + Z.log2 (Float64.mant b) - Z.log2 (Float64.mant a)) in
    let num := Z.shiftl (Float64.mant a) k in
    let q := num / Float64.mant b in
    let sticky := if num mod Float64.mant b =? 0 then 0 else 1 in
    Float64.mk (Float64.rnd (2 * q + sticky)) (Float64.expo a - Float64.expo b - k - 1).

(** [a / b] on doubles; [ZeroDivisionError] for a zero divisor. *)
Definition div {E} (a b : signed) : predict_error E + signed :=
  if Float64.mant (magnitude b) =? 0 then inl ZeroDivisionError
  else inr (mkSigned (xorb (negative a) (negative b))
                     (div_magnitude (magnitude a) (magnitude b))).

(** [a + 1] on doubles: the exact sum, rounded. *)
Definition add_one (a : signed) : signed :=
  let m := Float64.mant (magnitude a) in
  let e := Float64.expo (magnitude a) in
  let sm := if negative a then - m else m in
  (* the exact sum, as an integer multiple of [2^(min e 0)] *)
  let sum := if 0 <=? e then Z.shiftl sm e + 1 else sm + Z.shiftl 1 (- e) in
  mkSigned (sum <? 0) (Float64.mk (Float64.rnd (Z.abs sum)) (Z.min e 0)).

(** [int(a)]: truncation towards zero. *)
Definition to_int (a : signed) : Z :=
  let t := Float64.to_int (magnitude a) in
  if negative a then - t else t.

(** [int(n / float(rows) + 1)] for an array of [n] rows. *)
Definition sections {E} (n : nat) (rows : Z) : predict_error E + Z :=
  match of_int rows with
  | inl e => inl e
  | inr fr =>
      match of_int (Z.of_nat n) with
      | inl e => inl e
      | inr fn =>
          match div fn fr with
          | inl e => inl e
          | inr q => inr (to_int (add_one q))
          end
      end
  end.

End Batches.

(** *** [np.array_split(ary, k)] along the first axis

    [k] sections, the first [n mod k] of [n / k + 1] rows and the others of
    [n / k] rows, cut at the running sums of these sizes; [ValueError] when
    [k] is not positive. *)
Definition section_sizes (n k : nat) : list nat :=
  replicate (n `mod` k) (n `div` k + 1)%nat ++ replicate (k - n `mod` k) (n `div` k)%nat.

(** [np.cumsum] of the sizes, led by 0. *)
Fixpoint div_points (start : nat) (sizes : list nat) : list nat :=
  match sizes with
  | [] => [start]
  | s :: sizes' => start :: div_points (start + s) sizes'
  end.

Definition array_split {A E} (ary : list A) (k : Z) : predict_error E + list (list A) :=
  if k <=? 0 then inl ValueError
  else
    let points := div_points 0 (section_sizes (length ary) (Z.to_nat k)) in
    inr ((λ i, slice (points !!! i) (points !!! S i) ary) <$> seq 0 (Z.to_nat k)).

(** *** The function *)

Section Predict.

(** The rows of the array; the state of the endpoint; what a call of the
    endpoint can raise; the array [np.fromstring] returns. *)
Context {A S E B : Type}.

(** [predictor.predict(array).decode('utf-8')] *)
Variable endpoint : list A → S → (E + string) * S.

(** [np.fromstring(text, sep=',')] *)
Variable fromstring : string → B.

(** The loop: [predictions = ','.join([predictions, answer])] for each
    batch in turn. *)
Fixpoint predict_loop (batches : list (list A)) (predictions : string) (s : S)
    : (predict_error E + string) * S :=
  match batches with
  | [] => (inr predictions, s)
  | batch :: batches' =>
      match endpoint batch s with
      | (inl e, s') => (inl (EndpointError e), s')
      | (inr answer, s') =>
          predict_loop batches' (String.concat "," [predictions; answer]) s'
      end
  end.

(** [predictions[1:]] *)
Definition from_second (s : string) : string :=
  match s with
  | EmptyString => EmptyString
  | String _ s' => s'
  end.

Definition predict (data : list A) (rows : Z) (s : S) : (predict_error E + B) * S :=
  match Batches.sections (length data) rows with
  | inl e => (inl e, s)
  | inr k =>
      match array_split data k with
      | inl e => (inl e, s)
      | inr split_array =>
          match predict_loop split_array "" s with
          | (inl e, s') => (inl e, s')
          | (inr predictions, s') => (inr (fromstring (from_second predictions)), s')
          end
      end
  end.

End Predict.

(** *** Reference descriptions of the batching *)

(** The batches sent to the endpoint in turn, up to the first call that
    raises: the answers, or what was raised, and the state the endpoint is
    left in. *)
Fixpoint send_all {A S E} (endpoint : list A → S → (E + string) * S)
    (batches : list (list A)) (s : S) : (E + list string) * S :=
  match batches with
  | [] => (inr [], s)
  | batch :: batches' =>
      match endpoint batch s with
      | (inl e, s') => (inl e, s')
      | (inr answer, s') =>
          match send_all endpoint batches' s' with
          | (inl e, s'') => (inl e, s'')
          | (inr answers, s'') => (inr (answer :: answers), s'')
          end
      end
  end.

(** An endpoint for examples: it answers each batch with the number of its
    rows in unary and keeps a log of the batches it was sent. *)
Definition counting_endpoint (batch : list nat) (log : list (list nat))
    : (unit + string) * list (list nat) :=
  (inr (String.concat "" (replicate (length batch) "1")), log ++ [batch]).

(** The text the loop builds: every answer led by a comma. *)
Fixpoint led_by_commas (answers : list string) : string :=
  match answers with
  | [] => ""
  | answer :: answers' => "," +:+ answer +:+ led_by_commas answers'
  end.

(** The run on a ten-row table of the other layout, in a container world. *)
Definition ten_outcome : result (DataFrame * DataFrame * DataFrame) * @World rotating_generator :=
  Eval vm_compute in @main rotating_generator default_args (container_with (bank_rows 10)).

Definition ten_train : DataFrame :=
  Eval vm_compute in match ten_outcome.1 with Ok (tr, _, _) => tr | Err _ => no_frame end.

Definition ten_validation : DataFrame :=
  Eval vm_compute in match ten_outcome.1 with Ok (_, va, _) => va | Err _ => no_frame end.

Definition ten_test : DataFrame :=
  Eval vm_compute in match ten_outcome.1 with Ok (_, _, te) => te | Err _ => no_frame end.

Definition ten_final_world : @World rotating_generator :=
  Eval vm_compute in ten_outcome.2.

(** * Properties *)

(** ** Rounding to a double *)

Lemma rnd_small x : x < 2 ^ 53 → Float64.rnd x = x.
Proof.
  intros Hx. unfold Float64.rnd, Float64.prec.
  destruct (Z.leb_spec (Z.log2 x + 1 - 53) 0) as [|Hs]; [done|].
  exfalso. destruct (Z.le_gt_cases x 0) as [H0|H0].
  - rewrite Z.log2_nonpos in Hs by done. lia.
  - pose proof (Z.log2_lt_pow2 x 53 H0). lia.
Qed.

(** The rounding error is at most half a unit in the last place, which is
    at most [x / 2^53]. *)
Lemma rnd_error x : 0 ≤ x → 2 ^ 53 * Z.abs (Float64.rnd x - x) ≤ x.
Proof.
  intros Hx. unfold Float64.rnd, Float64.prec.
  destruct (Z.leb_spec (Z.log2 x + 1 - 53) 0) as [|Hs].
  { rewrite Z.sub_diag. simpl. lia. }
  set (s := Z.log2 x + 1 - 53) in *.
  assert (H0 : 0 < x).
  { destruct (Z.eq_dec x 0) as [->|]; [|lia]. subst s. simpl in Hs. lia. }
  destruct (Z.log2_spec x H0) as [Hlo Hhi].
  replace (Z.log2 x) with (s + 52) in Hlo by (subst s; lia).
  rewrite !Z.shiftl_mul_pow2, Z.shiftr_div_pow2 by lia.
  rewrite Z.mul_1_l.
  assert (Hp : 2 ^ s = 2 * 2 ^ (s - 1)).
  { rewrite <- Z.pow_succ_r by lia. f_equal. lia. }
  assert (Hq : 2 ^ (s + 52) = 2 ^ 53 * 2 ^ (s - 1)).
  { rewrite <- Z.pow_add_r by lia. f_equal. lia. }
  assert (Hh : 0 < 2 ^ (s - 1)) by (apply Z.pow_pos_nonneg; lia).
  pose proof (Z.div_mod x (2 ^ s) ltac:(lia)) as Hdm.
  pose proof (Z.mod_pos_bound x (2 ^ s) ltac:(lia)) as Hm.
  set (q := x / 2 ^ s) in *. set (r := x `mod` 2 ^ s) in *.
  replace (x - q * 2 ^ s) with r by lia.
  set (h := 2 ^ (s - 1)) in *.
  destruct (Z.ltb_spec h r); simpl.
  - lia.
  - destruct (Z.eqb_spec r h); simpl; [destruct (Z.odd q)|]; lia.
Qed.

Lemma two_53 : 2 ^ 53 = 9007199254740992.
Proof. reflexivity. Qed.

Lemma rnd_bounds x :
  0 ≤ x →
  9007199254740991 * x ≤ 9007199254740992 * Float64.rnd x ≤ 9007199254740993 * x.
Proof. intros Hx. pose proof (rnd_error x Hx) as He. rewrite two_53 in He. lia. Qed.

Lemma cut_0_7_eq n :
  cut_0_7 n = Float64.rnd (0x16666666666666 * Float64.rnd n) / 2 ^ 53.
Proof.
  unfold cut_0_7, Float64.to_int, Float64.mul, Float64.of_int. simpl.
  by rewrite (Z.shiftl_div_pow2 _ (-53)).
Qed.

Lemma cut_0_9_eq n :
  cut_0_9 n = Float64.rnd (0x1ccccccccccccd * Float64.rnd n) / 2 ^ 53.
Proof.
  unfold cut_0_9, Float64.to_int, Float64.mul, Float64.of_int. simpl.
  by rewrite (Z.shiftl_div_pow2 _ (-53)).
Qed.

(** The two split points are ordered and within the row count, whatever the
    row count. *)
Lemma cut_ordered n : 0 ≤ n → 0 ≤ cut_0_7 n ≤ cut_0_9 n ∧ cut_0_9 n ≤ n.
Proof.
  intros Hn. rewrite cut_0_7_eq, cut_0_9_eq, two_53.
  pose proof (rnd_bounds n Hn) as Hr.
  set (n' := Float64.rnd n) in *.
  assert (Hn' : 0 ≤ n') by lia.
  pose proof (rnd_bounds (0x16666666666666 * n') ltac:(lia)) as Ha.
  pose proof (rnd_bounds (0x1ccccccccccccd * n') ltac:(lia)) as Hb.
  set (a := Float64.rnd (0x16666666666666 * n')) in *.
  set (b := Float64.rnd (0x1ccccccccccccd * n')) in *.
  repeat split.
  - apply Z.div_pos; lia.
  - apply Z.div_le_mono; lia.
  - apply Z.div_le_upper_bound; lia.
Qed.

(** Rounding never goes below a double that is below the argument. *)
Lemma rnd_ge_representable k t x :
  0 ≤ k < 2 ^ 53 → 0 ≤ t → k * 2 ^ t ≤ x → k * 2 ^ t ≤ Float64.rnd x.
Proof.
  intros Hk Ht Hx. unfold Float64.rnd, Float64.prec.
  destruct (Z.leb_spec (Z.log2 x + 1 - 53) 0) as [|Hs]; [done|].
  set (s := Z.log2 x + 1 - 53) in *.
  assert (H0 : 0 < x).
  { destruct (Z.le_gt_cases x 0) as [Hle|]; [|done].
    subst s. rewrite Z.log2_nonpos in Hs by done. lia. }
  destruct (Z.log2_spec x H0) as [Hlo _].
  replace (Z.log2 x) with (s + 52) in Hlo by (subst s; lia).
  assert (Hps : 0 < 2 ^ s) by (apply Z.pow_pos_nonneg; lia).
  rewrite Z.shiftl_mul_pow2, Z.shiftr_div_pow2 by lia.
  set (q := x / 2 ^ s).
  transitivity (q * 2 ^ s).
  2:{ destruct (_ || _); nia. }
  destruct (Z.le_gt_cases s t) as [Hst|Hst].
  - replace t with ((t - s) + s) in * by lia.
    rewrite Z.pow_add_r in * by lia.
    rewrite Z.mul_assoc in *.
    apply Z.mul_le_mono_nonneg_r; [lia|].
    apply Z.div_le_lower_bound; lia.
  - transitivity (2 ^ (s + 52)).
    + transitivity (2 ^ 53 * 2 ^ t).
      * apply Z.mul_le_mono_nonneg_r; [|lia]. apply Z.pow_nonneg; lia.
      * rewrite <- Z.pow_add_r by lia. apply Z.pow_le_mono_r; lia.
    + rewrite (Z.pow_add_r 2 s 52) by lia. rewrite (Z.mul_comm (2 ^ s)).
      apply Z.mul_le_mono_nonneg_r; [lia|].
      apply Z.div_le_lower_bound; [lia|]. rewrite Z.mul_comm, <- Z.pow_add_r by lia.
      by replace (52 + s) with (s + 52) by lia.
Qed.

(** Against the exact quotients: for any row count a frame can have, the
    second split point is [floor(9n/10)], the first is [floor(7n/10)] or
    one less. *)
Lemma cut_0_9_exact n : 0 ≤ n < 2 ^ 49 → cut_0_9 n = 9 * n / 10.
Proof.
  intros [Hn Hlt]. rewrite cut_0_9_eq.
  change (2 ^ 49) with 562949953421312 in Hlt.
  rewrite (rnd_small n) by (rewrite two_53; lia).
  pose proof (Z.div_mod (9 * n) 10 ltac:(lia)) as Hdm.
  pose proof (Z.mod_pos_bound (9 * n) 10 ltac:(lia)) as Hm.
  set (K := 9 * n / 10) in *.
  pose proof (rnd_bounds (0x1ccccccccccccd * n) ltac:(lia)) as Hb.
  pose proof (rnd_ge_representable K 53 (0x1ccccccccccccd * n)
                ltac:(rewrite two_53; lia) ltac:(lia) ltac:(rewrite two_53; lia)) as Hge.
  rewrite two_53 in *.
  set (b := Float64.rnd _) in *.
  symmetry. apply Z.div_unique with (r := b - K * 9007199254740992); lia.
Qed.

Lemma cut_0_7_near n : 0 ≤ n < 2 ^ 49 → 7 * n / 10 - 1 ≤ cut_0_7 n ≤ 7 * n / 10.
Proof.
  intros [Hn Hlt]. rewrite cut_0_7_eq.
  change (2 ^ 49) with 562949953421312 in Hlt.
  rewrite (rnd_small n) by (rewrite two_53; lia).
  pose proof (Z.div_mod (7 * n) 10 ltac:(lia)) as Hdm.
  pose proof (Z.mod_pos_bound (7 * n) 10 ltac:(lia)) as Hm.
  set (K := 7 * n / 10) in *.
  pose proof (rnd_bounds (0x16666666666666 * n) ltac:(lia)) as Hb.
  rewrite two_53 in *.
  set (a := Float64.rnd _) in *.
  split.
  - apply Z.div_le_lower_bound; lia.
  - assert (a / 9007199254740992 < K + 1); [|lia].
    apply Z.div_lt_upper_bound; lia.
Qed.

(** ** Selecting rows by position *)

Section take_rows.
Context {A : Type}.
Implicit Types (l : list A) (p : list nat).

Lemma take_rows_cons i p l x :
  l !! i = Some x → take_rows (i :: p) l = x :: take_rows p l.
Proof. intros Hi. unfold take_rows. simpl. by rewrite Hi. Qed.

Lemma take_rows_length p l :
  Forall (λ i, (i < length l)%nat) p → length (take_rows p l) = length p.
Proof.
  induction 1 as [|i p Hi _ IH]; [done|].
  destruct (lookup_lt_is_Some_2 l i Hi) as [x Hx].
  rewrite (take_rows_cons _ _ _ _ Hx). simpl. by rewrite IH.
Qed.

Lemma take_rows_lookup p l j :
  Forall (λ i, (i < length l)%nat) p → take_rows p l !! j = p !! j ≫= (l !!.).
Proof.
  intros Hp. revert j. induction Hp as [|i p Hi _ IH]; intros j; [done|].
  destruct (lookup_lt_is_Some_2 l i Hi) as [x Hx].
  rewrite (take_rows_cons _ _ _ _ Hx). destruct j as [|j]; simpl; [done|]. apply IH.
Qed.

Lemma take_rows_take k p l :
  Forall (λ i, (i < length l)%nat) p → take k (take_rows p l) = take_rows (take k p) l.
Proof.
  intros Hp. revert k. induction Hp as [|i p Hi _ IH]; intros k; [by destruct k|].
  destruct (lookup_lt_is_Some_2 l i Hi) as [x Hx].
  rewrite (take_rows_cons _ _ _ _ Hx). destruct k as [|k]; [done|].
  cbn [firstn]. by rewrite IH, (take_rows_cons _ _ _ _ Hx).
Qed.

Lemma take_rows_drop k p l :
  Forall (λ i, (i < length l)%nat) p → drop k (take_rows p l) = take_rows (drop k p) l.
Proof.
  intros Hp. revert k. induction Hp as [|i p Hi _ IH]; intros k; [by destruct k|].
  destruct (lookup_lt_is_Some_2 l i Hi) as [x Hx].
  destruct k as [|k]; [done|].
  rewrite (take_rows_cons _ _ _ _ Hx). cbn [skipn]. apply IH.
Qed.

Lemma take_rows_slice st en p l :
  Forall (λ i, (i < length l)%nat) p →
  slice st en (take_rows p l) = take_rows (slice st en p) l.
Proof.
  intros Hp. unfold slice. rewrite take_rows_drop by done.
  apply take_rows_take. by apply Forall_drop.
Qed.

Lemma take_rows_shift x l p : take_rows (S <$> p) (x :: l) = take_rows p l.
Proof.
  unfold take_rows. induction p as [|i p IH]; [done|].
  cbn [fmap list_fmap omap list_omap]. by rewrite IH.
Qed.

Lemma take_rows_all l : take_rows (seq 0 (length l)) l = l.
Proof.
  induction l as [|x l IH]; [done|].
  cbn [length seq]. rewrite <- fmap_S_seq.
  rewrite (take_rows_cons 0 _ (x :: l) x) by done.
  by rewrite take_rows_shift, IH.
Qed.

(** A permutation of all positions selects a permutation of the list. *)
Lemma take_rows_permutation p l : p ≡ₚ seq 0 (length l) → take_rows p l ≡ₚ l.
Proof.
  intros Hp. unfold take_rows. rewrite Hp. by rewrite <- (take_rows_all l) at 2.
Qed.

End take_rows.

(** Positions drawn from a permutation of [0 .. n-1] are below [n]. *)
Lemma permutation_valid p n : p ≡ₚ seq 0 n → Forall (λ i, (i < n)%nat) p.
Proof.
  intros Hp. apply Forall_forall. intros i Hi.
  rewrite Hp in Hi. apply elem_of_seq in Hi. lia.
Qed.

(** Cutting a list at two ordered points loses and repeats nothing. *)
Lemma slice_three {A} (l : list A) i1 i2 :
  (i1 ≤ i2)%nat →
  slice 0 i1 l ++ slice i1 i2 l ++ slice i2 (length l) l = l.
Proof.
  intros Hle. unfold slice. rewrite Nat.sub_0_r, drop_0.
  rewrite (take_ge (drop i2 l)) by (rewrite length_drop; lia).
  rewrite <- (take_drop i1 l) at 4. f_equal.
  rewrite <- (take_drop (i2 - i1) (drop i1 l)) at 2. f_equal.
  rewrite drop_drop. f_equal. lia.
Qed.

Lemma slice_length {A} (l : list A) st en :
  (st ≤ en ≤ length l)%nat → length (slice st en l) = (en - st)%nat.
Proof. intros ?. unfold slice. rewrite length_take, length_drop. lia. Qed.

(** ** Frames: shape is preserved along the pipeline *)

Lemma Forall_filter {A} (P Q : A → Prop) `{∀ x, Decision (Q x)} (l : list A) :
  Forall P l → Forall P (filter Q l).
Proof.
  rewrite !Forall_forall. intros HP x [_ Hx]%list_elem_of_filter. by apply HP.
Qed.

Lemma replace_series_name p r c : name (replace_series p r c) = name c.
Proof. unfold replace_series. by destruct (dt c). Qed.

Lemma replace_series_length p r c :
  length (values (replace_series p r c)) = length (values c).
Proof. unfold replace_series. destruct (dt c); simpl; by rewrite ?length_fmap. Qed.

Lemma replace_names p r df : names (replace p r df) = names df.
Proof.
  unfold names, replace. simpl. rewrite <- list_fmap_compose.
  apply list_fmap_ext. intros _ c _. apply replace_series_name.
Qed.

Lemma replace_rectangular p r df : rectangular df → rectangular (replace p r df).
Proof.
  unfold rectangular, len, replace. simpl. intros Hr.
  apply Forall_fmap. eapply Forall_impl; [exact Hr|].
  intros c Hc. simpl. by rewrite replace_series_length.
Qed.

Lemma getitem_Ok label df c :
  getitem label df = Ok c → c ∈ columns df ∧ name c = label.
Proof.
  unfold getitem. destruct (list_find _ _) as [[i c']|] eqn:Hf; [|done].
  intros [= <-]. apply list_find_Some in Hf as (Hi & Hn & _).
  split; [by eapply list_elem_of_lookup_2|done].
Qed.

Lemma setitem_index label d vs df : index (setitem label d vs df) = index df.
Proof. unfold setitem. by case_bool_decide. Qed.

Lemma setitem_rectangular label d vs df :
  rectangular df → length vs = len df → rectangular (setitem label d vs df).
Proof.
  unfold rectangular, len, setitem. intros Hr Hl.
  case_bool_decide; simpl.
  - apply Forall_fmap. eapply Forall_impl; [exact Hr|].
    intros c Hc. simpl. by case_bool_decide.
  - apply Forall_app. split; [done|]. by apply Forall_singleton.
Qed.

Lemma drop_columns_Ok labels df df' :
  drop_columns labels df = Ok df' →
  labels ⊆ names df ∧
  df' = mkDF (index df) (filter (λ c, name c ∉ labels) (columns df)).
Proof.
  unfold drop_columns. destruct (list_find _ _) as [[i l]|] eqn:Hf; [done|].
  intros [= <-]. split; [|done].
  intros l Hl. destruct (decide (l ∈ names df)) as [|Hn]; [done|].
  eapply list_find_None, Forall_forall in Hf; [|exact Hl]. done.
Qed.

Lemma drop_columns_rectangular labels df df' :
  drop_columns labels df = Ok df' → rectangular df → rectangular df'.
Proof.
  intros (_ & ->)%drop_columns_Ok Hr. unfold rectangular, len in *. simpl.
  by apply Forall_filter.
Qed.

Lemma get_dummies_index df : index (get_dummies df) = index df.
Proof. done. Qed.

Lemma get_dummies_rectangular df : rectangular df → rectangular (get_dummies df).
Proof.
  unfold rectangular, len, get_dummies. simpl. intros Hr.
  apply Forall_app. split; [by apply Forall_filter|].
  apply Forall_forall. intros c (c0 & Hc & Hc0)%list_elem_of_bind.
  apply list_elem_of_filter in Hc0 as [_ Hc0].
  unfold dummies in Hc. apply list_elem_of_fmap in Hc as (lvl & -> & _).
  simpl. rewrite length_fmap. by eapply Forall_forall in Hr.
Qed.

Lemma normalize_names df : names (normalize df) = names df.
Proof. unfold normalize. by rewrite !replace_names. Qed.

Lemma normalize_rectangular df : rectangular df → rectangular (normalize df).
Proof. intros Hr. unfold normalize. by do 2 apply replace_rectangular. Qed.

Lemma getitem_length label df c :
  rectangular df → getitem label df = Ok c → length (values c) = len df.
Proof.
  intros Hr [Hc _]%getitem_Ok. by eapply Forall_forall in Hr.
Qed.

(** What [add_indicators] does when it succeeds. *)
Lemma add_indicators_Ok df df' :
  add_indicators df = Ok df' →
  ∃ pdays job df1,
    getitem "pdays" df = Ok pdays ∧
    df1 = setitem "no_previous_contact" int64
            ((λ v, bool_to_int (value_eq_int 999 v)) <$> values pdays) df ∧
    getitem "job" df1 = Ok job ∧
    df' = setitem "not_working" int64
            ((λ v, bool_to_int (value_isin ["student"; "retired"; "unemployed"] v))
               <$> values job) df1.
Proof.
  unfold add_indicators.
  destruct (getitem "pdays" df) as [pdays|] eqn:Hp; [|done].
  destruct (getitem "job" _) as [job|] eqn:Hj; [|done].
  intros [= <-]. by eexists _, _, _.
Qed.

Lemma add_indicators_index df df' :
  add_indicators df = Ok df' → index df' = index df.
Proof.
  intros (pdays & job & df1 & _ & -> & _ & ->)%add_indicators_Ok.
  by rewrite !setitem_index.
Qed.

Lemma add_indicators_rectangular df df' :
  add_indicators df = Ok df' → rectangular df → rectangular df'.
Proof.
  intros (pdays & job & df1 & Hp & -> & Hj & ->)%add_indicators_Ok Hr.
  assert (rectangular (setitem "no_previous_contact" int64
            ((λ v, bool_to_int (value_eq_int 999 v)) <$> values pdays) df)) as Hr1.
  { apply setitem_rectangular; [done|]. rewrite length_fmap. by eapply getitem_length. }
  apply setitem_rectangular; [done|].
  rewrite length_fmap. erewrite getitem_length by done.
  unfold len. by rewrite setitem_index.
Qed.

(** What [derive] does when it succeeds. *)
Lemma derive_Ok df d :
  derive df = Ok d →
  ∃ df1 df2,
    add_indicators (normalize df) = Ok df1 ∧
    prune df1 = Ok df2 ∧
    d = get_dummies df2.
Proof.
  unfold derive.
  destruct (add_indicators _) as [df1|] eqn:H1; [|done].
  destruct (prune df1) as [df2|] eqn:H2; [|done].
  intros [= <-]. by eexists _, _.
Qed.

Lemma derive_index df d : derive df = Ok d → index d = index df.
Proof.
  intros (df1 & df2 & H1 & H2 & ->)%derive_Ok.
  apply add_indicators_index in H1. apply drop_columns_Ok in H2 as [_ ->].
  by rewrite get_dummies_index.
Qed.

Lemma derive_len df d : derive df = Ok d → len d = len df.
Proof. intros Hd. unfold len. by rewrite (derive_index _ _ Hd). Qed.

Lemma derive_rectangular df d : derive df = Ok d → rectangular df → rectangular d.
Proof.
  intros (df1 & df2 & H1 & H2 & ->)%derive_Ok Hr.
  apply get_dummies_rectangular. eapply drop_columns_rectangular; [exact H2|].
  eapply add_indicators_rectangular; [exact H1|]. by apply normalize_rectangular.
Qed.

(** ** Frames: rows of a selection *)

Lemma take_frame_row p df j :
  rectangular df → Forall (λ i, (i < len df)%nat) p →
  row_at (take_frame p df) j = p !! j ≫= row_at df.
Proof.
  intros Hr Hp. unfold row_at, take_frame. simpl.
  rewrite take_rows_lookup by done.
  destruct (p !! j) as [i|] eqn:Hj; simpl; [|done].
  destruct (index df !! i) as [lbl|]; simpl; [|done].
  do 2 f_equal. rewrite <- list_fmap_compose.
  apply Forall_fmap_ext_1. eapply Forall_impl; [exact Hr|].
  intros c Hc. simpl. rewrite take_rows_lookup by (by rewrite Hc).
  by rewrite Hj.
Qed.

Lemma slice_take_frame st en p df :
  rectangular df → Forall (λ i, (i < len df)%nat) p →
  slice_frame st en (take_frame p df) = take_frame (slice st en p) df.
Proof.
  intros Hr Hp. unfold slice_frame, take_frame. simpl. f_equal.
  - by apply take_rows_slice.
  - rewrite <- !list_fmap_compose.
    apply Forall_fmap_ext_1. eapply Forall_impl; [exact Hr|].
    intros c Hc. simpl. f_equal. apply take_rows_slice. by rewrite Hc.
Qed.

Lemma take_frame_len p df :
  Forall (λ i, (i < len df)%nat) p → len (take_frame p df) = length p.
Proof. intros Hp. unfold len, take_frame. simpl. by apply take_rows_length. Qed.

(** ** Running the script *)

Section Run.

Context `{RandomState}.

Lemma bind_Ok {A B} (c : M A) (k : A → M B) w b w' :
  (c ≫= k) w = (Ok b, w') → ∃ a w1, c w = (Ok a, w1) ∧ k a w1 = (Ok b, w').
Proof.
  unfold mbind, M_bind, bind. destruct (c w) as [[a|e] w1]; [|done].
  intros Hk. by exists a, w1.
Qed.

Lemma lift_Ok {A} (r : result A) w a w' :
  lift r w = (Ok a, w') → r = Ok a ∧ w' = w.
Proof. unfold lift. by intros [= -> ->]. Qed.

Lemma read_csv_Ok path w df w' :
  read_csv path w = (Ok df, w') → tables w !! path = Some df ∧ w' = w.
Proof. unfold read_csv. destruct (tables w !! path); by intros [= -> ->]. Qed.

Lemma to_csv_Ok path i h df w u w' :
  to_csv path i h df w = (Ok u, w') →
  writable path w ∧ w' = write_file path (csv_records i h df) w.
Proof. unfold to_csv. case_bool_decide; [|done]. by intros [= <-]. Qed.

Lemma store_labelled_Ok part path w u w' :
  store_labelled part path w = (Ok u, w') →
  ∃ y x, label_of part = Ok y ∧ features_of part = Ok x ∧
         writable path w ∧
         w' = write_file path (csv_records false false (concat_columns y x)) w.
Proof.
  unfold store_labelled.
  intros (y & w1 & [Hy ->]%lift_Ok & Hk)%bind_Ok.
  apply bind_Ok in Hk as (x & w2 & [Hx ->]%lift_Ok & [Hw ->]%to_csv_Ok).
  by exists y, x.
Qed.

Lemma shuffle_split_Ok df w parts w' :
  shuffle_split df w = (Ok parts, w') →
  parts = np_split (take_frame (permutation (seeded 42) (len df)).1 df)
                   (Z.to_nat (cut_0_7 (Z.of_nat (len df))))
                   (Z.to_nat (cut_0_9 (Z.of_nat (len df)))) ∧
  w' = w.
Proof.
  unfold shuffle_split.
  intros (sh & w1 & Hs & Hr)%bind_Ok.
  unfold sample in Hs. injection Hs as <- <-.
  unfold mret, M_ret, ret in Hr. by injection Hr as <- <-.
Qed.

(** A successful run, spelled out: what was read, what the partitions
    are, what each file holds, and the world it leaves. *)
Lemma main_Ok args w tr va te w' :
  main args w = (Ok (tr, va, te), w') →
  ∃ df0 d ytr xtr yva xva yte xte,
    tables w !! input_of args = Some df0 ∧
    derive df0 = Ok d ∧
    (tr, va, te) = np_split (take_frame (permutation (seeded 42) (len d)).1 d)
                            (Z.to_nat (cut_0_7 (Z.of_nat (len d))))
                            (Z.to_nat (cut_0_9 (Z.of_nat (len d)))) ∧
    label_of tr = Ok ytr ∧ features_of tr = Ok xtr ∧
    label_of va = Ok yva ∧ features_of va = Ok xva ∧
    label_of te = Ok yte ∧ features_of te = Ok xte ∧
    writable (train_csv args) w ∧ writable (validation_csv args) w ∧
    writable (test_y_csv args) w ∧ writable (test_x_csv args) w ∧
    w' = print_line "## Processing complete. Exiting."
           (write_file (test_x_csv args) (csv_records false false xte)
           (write_file (test_y_csv args) (csv_records false false yte)
           (write_file (validation_csv args)
                       (csv_records false false (concat_columns yva xva))
           (write_file (train_csv args)
                       (csv_records false false (concat_columns ytr xtr)) w)))).
Proof.
  unfold main.
  intros (df0 & w1 & [Hread ->]%read_csv_Ok & Hk)%bind_Ok.
  apply bind_Ok in Hk as (df1 & w1 & [H1 ->]%lift_Ok & Hk).
  apply bind_Ok in Hk as (df2 & w1 & [H2 ->]%lift_Ok & Hk).
  apply bind_Ok in Hk as (parts & w1 & [Hparts ->]%shuffle_split_Ok & Hk).
  destruct (np_split _ _ _) as [[tr' va'] te'] eqn:Hsplit. subst parts.
  apply bind_Ok in Hk as ([] & w1 & Htr & Hk).
  apply store_labelled_Ok in Htr as (ytr & xtr & Hytr & Hxtr & Hwtr & ->).
  apply bind_Ok in Hk as ([] & w2 & Hva & Hk).
  apply store_labelled_Ok in Hva as (yva & xva & Hyva & Hxva & Hwva & ->).
  apply bind_Ok in Hk as (yte & w3 & [Hyte ->]%lift_Ok & Hk).
  apply bind_Ok in Hk as ([] & w4 & [Hwy ->]%to_csv_Ok & Hk).
  apply bind_Ok in Hk as (xte & w5 & [Hxte ->]%lift_Ok & Hk).
  apply bind_Ok in Hk as ([] & w6 & [Hwx ->]%to_csv_Ok & Hk).
  apply bind_Ok in Hk as ([] & w7 & Hpr & Hk).
  unfold print in Hpr. injection Hpr as <-.
  unfold mret, M_ret, ret in Hk. injection Hk as <- <- <- <-.
  exists df0, (get_dummies df2), ytr, xtr, yva, xva, yte, xte.
  split_and!; try done.
  unfold derive. by rewrite H1, H2.
Qed.

End Run.

(** ** Looking columns up along the pipeline *)

(** The first column of a label is found in a prefix of the columns when the
    prefix holds the label. *)
Lemma getitem_app label ix cs1 cs2 c0 :
  label ∈ name <$> cs1 →
  (∀ c, c ∈ cs1 → name c = label → c = c0) →
  getitem label (mkDF ix (cs1 ++ cs2)) = Ok c0.
Proof.
  intros (c & Hn & Hc)%list_elem_of_fmap Hall. unfold getitem. simpl.
  destruct (list_find_elem_of (λ c, name c = label) cs1 c Hc (eq_sym Hn))
    as [[i c'] Hf].
  rewrite (list_find_app_l _ _ _ _ _ Hf).
  apply list_find_Some in Hf as (Hi & Hn' & _).
  f_equal. apply Hall; [by eapply list_elem_of_lookup_2|done].
Qed.

Lemma getitem_replace label p r df :
  getitem label (replace p r df) =
    match getitem label df with
    | Ok c => Ok (replace_series p r c)
    | Err e => Err e
    end.
Proof.
  unfold getitem, replace. simpl. rewrite list_find_fmap.
  rewrite (list_find_ext _ (λ c, name c = label)).
  2:{ intros c. simpl. by rewrite replace_series_name. }
  by destruct (list_find _ _) as [[i c]|].
Qed.

(** Assigning one label leaves the columns of another label alone. *)
Lemma getitem_setitem_ne label label' d vs df :
  label ≠ label' → getitem label (setitem label' d vs df) = getitem label df.
Proof.
  intros Hne. unfold getitem, setitem. case_bool_decide; simpl.
  - rewrite list_find_fmap.
    erewrite (list_find_ext _ (λ c, name c = label)).
    2:{ intros c. simpl. case_bool_decide; simpl; naive_solver. }
    destruct (list_find _ _) as [[i c]|] eqn:Hf; simpl; [|done].
    apply list_find_Some in Hf as (_ & Hn & _).
    rewrite bool_decide_eq_false_2; [done|congruence].
  - destruct (list_find (λ c, name c = label) (columns df)) as [[i c]|] eqn:Hf.
    + by rewrite (list_find_app_l _ _ _ _ _ Hf).
    + rewrite list_find_app_r by done. simpl.
      rewrite decide_False by done. done.
Qed.

(** After an assignment, every column of the label is the assigned one, and
    there is one. *)
Lemma setitem_columns label d vs df :
  label ∈ names (setitem label d vs df) ∧
  ∀ c, c ∈ columns (setitem label d vs df) → name c = label → c = mkSeries label d vs.
Proof.
  unfold setitem, names. case_bool_decide as Hin; simpl.
  - split.
    + apply list_elem_of_fmap in Hin as (c & Hn & Hc).
      apply list_elem_of_fmap. eexists. split; [|by apply list_elem_of_fmap_2].
      by rewrite bool_decide_eq_true_2.
    + intros c (c' & -> & Hc')%list_elem_of_fmap. by case_bool_decide.
  - split.
    + rewrite fmap_app. apply elem_of_app. right. simpl. by left.
    + intros c [Hc| ->%list_elem_of_singleton]%elem_of_app; [|done].
      intros Hn. destruct Hin. rewrite <- Hn. by apply list_elem_of_fmap_2.
Qed.

(** An assignment to another label keeps what is known of a label. *)
Lemma setitem_columns_ne label label' d vs df c0 :
  label ≠ label' →
  label ∈ names df →
  (∀ c, c ∈ columns df → name c = label → c = c0) →
  label ∈ names (setitem label' d vs df) ∧
  ∀ c, c ∈ columns (setitem label' d vs df) → name c = label → c = c0.
Proof.
  intros Hne Hin Hall. unfold setitem, names. case_bool_decide as Hin'; simpl.
  - split.
    + apply list_elem_of_fmap in Hin as (c & Hn & Hc).
      apply list_elem_of_fmap. eexists. split; [|by apply list_elem_of_fmap_2].
      rewrite bool_decide_eq_false_2; [done|congruence].
    + intros c (c' & -> & Hc')%list_elem_of_fmap.
      case_bool_decide; simpl; [congruence|by apply Hall].
  - split.
    + rewrite fmap_app. apply elem_of_app. by left.
    + intros c [Hc| ->%list_elem_of_singleton]%elem_of_app; [by apply Hall|].
      simpl. congruence.
Qed.

Lemma column_is_getitem label c0 ix cs1 cs2 :
  column_is label c0 cs1 → getitem label (mkDF ix (cs1 ++ cs2)) = Ok c0.
Proof. intros [Hin Hall]. by apply getitem_app. Qed.

Lemma column_is_filter (P : Series → Prop) `{∀ c, Decision (P c)} label c0 cs :
  column_is label c0 cs → name c0 = label → P c0 → column_is label c0 (filter P cs).
Proof.
  intros [Hin Hall] Hn HP. split.
  - apply list_elem_of_fmap in Hin as (c & Hc & Hcin).
    assert (c = c0) as -> by (by apply Hall).
    apply list_elem_of_fmap. exists c0. split; [done|]. by apply list_elem_of_filter.
  - intros c [_ Hc]%list_elem_of_filter. by apply Hall.
Qed.

(** Testing a cell against 999 is indifferent to the normalization. *)
Lemma value_eq_int_replace z p r v :
  value_eq_int z (replace_value p r v) = value_eq_int z v.
Proof. by destruct v. Qed.

Lemma eq_999_normalized c :
  (λ v, bool_to_int (value_eq_int 999 v)) <$> values (normalize_series c)
  = (λ v, bool_to_int (value_eq_int 999 v)) <$> values c.
Proof.
  unfold normalize_series, replace_series.
  destruct (dt c) eqn:Hdt; simpl; rewrite ?Hdt; simpl; try done.
  rewrite <- !list_fmap_compose. apply list_fmap_ext. intros _ v _. simpl.
  by rewrite !value_eq_int_replace.
Qed.

Lemma getitem_normalize label df :
  getitem label (normalize df) =
    match getitem label df with
    | Ok c => Ok (normalize_series c)
    | Err e => Err e
    end.
Proof.
  unfold normalize. rewrite !getitem_replace. by destruct (getitem label df).
Qed.

(** The indicator columns in the derived frame, in terms of the loaded
    table's columns. *)
Lemma derive_indicators df0 d :
  derive df0 = Ok d →
  ∃ pdays job,
    getitem "pdays" df0 = Ok pdays ∧
    getitem "job" df0 = Ok job ∧
    getitem "no_previous_contact" d =
      Ok (mkSeries "no_previous_contact" int64
            ((λ v, bool_to_int (value_eq_int 999 v)) <$> values pdays)) ∧
    getitem "not_working" d =
      Ok (mkSeries "not_working" int64
            ((λ v, bool_to_int (value_isin ["student"; "retired"; "unemployed"] v))
               <$> values (normalize_series job))).
Proof.
  intros (df1 & df2 & H1 & H2 & ->)%derive_Ok.
  apply add_indicators_Ok in H1 as (pdays' & job' & dfa & Hp & -> & Hj & ->).
  rewrite getitem_setitem_ne in Hj by done.
  rewrite getitem_normalize in Hp, Hj.
  destruct (getitem "pdays" df0) as [pdays|] eqn:Hp0; [|done].
  destruct (getitem "job" df0) as [job|] eqn:Hj0; [|done].
  injection Hp as <-. injection Hj as <-.
  rewrite eq_999_normalized in H2.
  exists pdays, job. split; [done|]. split; [done|].
  set (c1 := mkSeries "no_previous_contact" _ _) in *.
  set (c2 := mkSeries "not_working" _ _) in *.
  set (dfa := setitem "no_previous_contact" int64 _ (normalize df0)) in *.
  set (dfb := setitem "not_working" int64 _ dfa) in *.
  assert (Ha : column_is "no_previous_contact" c1 (columns dfb)).
  { apply setitem_columns_ne; [done|apply setitem_columns..]. }
  assert (Hb : column_is "not_working" c2 (columns dfb)) by apply setitem_columns.
  apply drop_columns_Ok in H2 as [_ ->].
  unfold get_dummies. simpl.
  split; apply column_is_getitem; repeat apply column_is_filter; try done.
  all: by apply (bool_decide_unpack _).
Qed.

(** ** The two substitutions, character by character *)

Lemma sub_dot s : Re.sub Re.dot "_" s = spec_replace_dots s.
Proof.
  unfold Re.sub. induction s as [|c s IH]; [done|].
  cbn [Re.sub_from Re.match_len Re.dot spec_replace_dots].
  rewrite (Ascii.eqb_sym "." c).
  destruct (Ascii.eqb c "."); simpl; by rewrite IH.
Qed.

Lemma sub_from_no_underscore s :
  Re.at_eol s = true → Re.sub_from Re.underscore_eol "" 0 s = s.
Proof.
  destruct s as [|c [|d s]]; [done| |done].
  simpl. intros Hc. apply Ascii.eqb_eq in Hc as ->. done.
Qed.

Lemma sub_underscore_eol s : Re.sub Re.underscore_eol "" s = strip_at_eol s.
Proof.
  unfold Re.sub. induction s as [|c s IH]; [done|].
  cbn [Re.sub_from Re.match_len Re.underscore_eol strip_at_eol].
  rewrite (Ascii.eqb_sym "_" c).
  destruct (Ascii.eqb c "_"); simpl; [|by rewrite IH].
  destruct (Re.at_eol s) eqn:He; simpl; [|by rewrite IH].
  by apply sub_from_no_underscore.
Qed.

Lemma normalize_string_eq s : normalize_string s = strip_at_eol (spec_replace_dots s).
Proof. unfold normalize_string. by rewrite sub_dot, sub_underscore_eol. Qed.

Lemma spec_replace_dots_newline s :
  ends_in_newline (spec_replace_dots s) = ends_in_newline s.
Proof.
  induction s as [|c s IH]; [done|].
  destruct s as [|d s]; [|exact IH].
  simpl. destruct (Ascii.eqb_spec c ".") as [->|]; done.
Qed.

(** Away from a final newline the anchored pattern is a trailing one. *)
Lemma strip_at_eol_no_newline s :
  ends_in_newline s = false → strip_at_eol s = spec_strip_trailing s.
Proof.
  induction s as [|c s IH]; [done|].
  destruct s as [|d s].
  - intros _. simpl. by destruct (Ascii.eqb c "_").
  - intros Hn. specialize (IH Hn).
    cbn [strip_at_eol spec_strip_trailing] in *.
    destruct (Ascii.eqb c "_" && Re.at_eol (String d s)) eqn:Hm; [|by rewrite IH].
    exfalso. apply andb_true_iff in Hm as [_ Hm].
    destruct s; [|done]. simpl in Hm, Hn. congruence.
Qed.

Lemma strip_at_eol_trailing t : strip_at_eol (t +:+ "_") = t.
Proof.
  induction t as [|c t IH]; [done|].
  change (String c t +:+ "_") with (String c (t +:+ "_")).
  change (strip_at_eol (String c (t +:+ "_")))
    with (if Ascii.eqb c "_" && Re.at_eol (t +:+ "_") then t +:+ "_"
          else String c (strip_at_eol (t +:+ "_"))).
  rewrite IH.
  replace (Re.at_eol (t +:+ "_")) with false; [by rewrite andb_false_r|].
  destruct t as [|d [|e t]]; done.
Qed.

Lemma spec_replace_dots_app s t :
  spec_replace_dots (s +:+ t) = spec_replace_dots s +:+ spec_replace_dots t.
Proof. induction s as [|c s IH]; [done|]. simpl. by rewrite IH. Qed.


(** ** Column names along the pipeline *)

Lemma names_filter (P : string → Prop) `{∀ n, Decision (P n)} (cs : list Series) :
  name <$> filter (λ c, P (name c)) cs = filter P (name <$> cs).
Proof.
  induction cs as [|c cs IH]; [done|].
  rewrite fmap_cons, !filter_cons, <- IH. by case_decide.
Qed.

Lemma names_take_frame p df : names (take_frame p df) = names df.
Proof. unfold names, take_frame. simpl. by rewrite <- list_fmap_compose. Qed.

Lemma names_slice_frame st en df : names (slice_frame st en df) = names df.
Proof. unfold names, slice_frame. simpl. by rewrite <- list_fmap_compose. Qed.





Lemma features_of_Ok part x :
  features_of part = Ok x →
  index x = index part ∧
  columns x = filter (λ c, name c ∉ label_columns) (columns part) ∧
  names x = filter (λ n, n ∉ label_columns) (names part).
Proof.
  unfold features_of. intros [_ ->]%drop_columns_Ok. simpl.
  split_and!; try done. unfold names, label_columns. simpl.
  exact (names_filter (λ n, n ∉ ["y_yes"; "y_no"]) (columns part)).
Qed.

Lemma label_of_Ok part y :
  label_of part = Ok y →
  index y = index part ∧
  columns y = filter (λ c, name c = "y_yes") (columns part) ∧
  names y = filter (λ n, n = "y_yes") (names part) ∧
  "y_yes" ∈ names part.
Proof.
  unfold label_of, select. case_bool_decide; [|done]. intros [= <-]. simpl.
  split_and!; try done. unfold names. simpl.
  exact (names_filter (λ n, n = "y_yes") (columns part)).
Qed.

(** ** The output paths *)

Lemma append_assoc (a b c : string) : a +:+ b +:+ c = (a +:+ b) +:+ c.
Proof.
  induction a as [|x a IH]; [done|].
  change (String x (a +:+ b +:+ c) = String x ((a +:+ b) +:+ c)). by f_equal.
Qed.

(** Joining a relative name to a directory puts the same prefix in front
    of it, whatever the name. *)
Lemma path_join_relative a b :
  String.prefix "/" b = false →
  path_join a b =
    (if bool_decide (a = "") || String.prefix "/" (String.rev a) then a else a +:+ "/") +:+ b.
Proof.
  intros Hb. unfold path_join. rewrite Hb.
  destruct (_ || _); [done|].
  apply append_assoc.
Qed.

Lemma output_paths_distinct args :
  NoDup [train_csv args; validation_csv args; test_y_csv args; test_x_csv args].
Proof.
  unfold train_csv, validation_csv, test_y_csv, test_x_csv.
  rewrite !path_join_relative by done.
  set (pre := if bool_decide (outputpath args = "")
                  || String.prefix "/" (String.rev (outputpath args))
              then outputpath args else outputpath args +:+ "/").
  repeat (apply NoDup_cons; split);
    rewrite ?elem_of_cons, ?elem_of_nil; try apply NoDup_nil_2.
  all: intros Hin; repeat destruct Hin as [Hin|Hin]; try done.
  all: by apply (inj (String.app pre)) in Hin.
Qed.

(** ** What a successful run leaves behind *)

Lemma run_effects `{RandomState} args w tr va te w' :
  main args w = (Ok (tr, va, te), w') →
  ∃ ytr xtr yva xva yte xte,
    (label_of tr = Ok ytr ∧ features_of tr = Ok xtr) ∧
    (label_of va = Ok yva ∧ features_of va = Ok xva) ∧
    (label_of te = Ok yte ∧ features_of te = Ok xte) ∧
    files w' !! train_csv args = Some (csv_records false false (concat_columns ytr xtr)) ∧
    files w' !! validation_csv args
      = Some (csv_records false false (concat_columns yva xva)) ∧
    files w' !! test_y_csv args = Some (csv_records false false yte) ∧
    files w' !! test_x_csv args = Some (csv_records false false xte) ∧
    (∀ path, path ∉ [train_csv args; validation_csv args; test_y_csv args; test_x_csv args] →
       files w' !! path = files w !! path ∧ tables w' !! path = tables w !! path) ∧
    dirs w' = dirs w ∧
    stdout w' = stdout w ++ ["## Processing complete. Exiting."] ∧
    global_rng w' = global_rng w.
Proof.
  intros (df0 & d & ytr & xtr & yva & xva & yte & xte & _ & _ & _
          & Ha & Hb & Hc & Hd & He & Hf & _ & _ & _ & _ & ->)%main_Ok.
  exists ytr, xtr, yva, xva, yte, xte.
  pose proof (output_paths_distinct args) as Hnd.
  apply NoDup_cons in Hnd as [H1 Hnd]. apply NoDup_cons in Hnd as [H2 Hnd].
  apply NoDup_cons in Hnd as [H3 _].
  rewrite !elem_of_cons, elem_of_nil in H1.
  rewrite !elem_of_cons, elem_of_nil in H2.
  rewrite !elem_of_cons, elem_of_nil in H3.
  split_and!; try done; simpl.
  - rewrite !lookup_insert_ne by (intros Heq; rewrite Heq in *; tauto).
    apply lookup_insert_eq.
  - rewrite !lookup_insert_ne by (intros Heq; rewrite Heq in *; tauto).
    apply lookup_insert_eq.
  - rewrite !lookup_insert_ne by (intros Heq; rewrite Heq in *; tauto).
    apply lookup_insert_eq.
  - apply lookup_insert_eq.
  - intros path Hp. rewrite !elem_of_cons, elem_of_nil in Hp.
    rewrite !lookup_insert_ne, !lookup_delete_ne by (intros <-; apply Hp; eauto 10).
    done.
Qed.

(** ** Label and features of a partition *)


Lemma csv_records_plain df :
  csv_records false false df = imap (λ i _, record_at df i) (index df).
Proof. done. Qed.

Lemma np_split_names df i1 i2 a b c :
  np_split df i1 i2 = (a, b, c) →
  names a = names df ∧ names b = names df ∧ names c = names df.
Proof. intros [= <- <- <-]. by rewrite !names_slice_frame. Qed.


(** ** The evaluated runs *)

Lemma sample_run :
  @main rotating_generator default_args container_world
  = (Ok (sample_train, sample_validation, sample_test), sample_final_world).
Proof. vm_compute. reflexivity. Qed.

Lemma reused_run :
  @main rotating_generator default_args reused_world
  = (Ok (sample_train, sample_validation, sample_test), reused_final_world).
Proof. vm_compute. reflexivity. Qed.

Lemma ninety_run :
  @main rotating_generator default_args (container_with (bank_rows 90))
  = (Ok (ninety_train, ninety_validation, ninety_test), ninety_final_world).
Proof. vm_compute. reflexivity. Qed.

Lemma sample_input :
  tables container_world !! input_of default_args = Some bank_sample.
Proof. vm_compute. reflexivity. Qed.

Lemma bank_sample_rectangular : rectangular bank_sample.
Proof. repeat constructor. Qed.

(** ** Features and label against the whole partition *)

Lemma features_label_permutation (cs : list Series) :
  filter (λ c, name c ∉ label_columns) cs ++ filter (λ c, name c = "y_yes") cs
  ≡ₚ filter (λ c, name c ≠ "y_no") cs.
Proof.
  induction cs as [|c cs IH]; [done|].
  rewrite !filter_cons.
  destruct (decide (name c = "y_yes")) as [Hy|Hy].
  - rewrite decide_False, decide_True.
    + by rewrite <- Permutation_middle, IH.
    + rewrite Hy. done.
    + rewrite Hy. intros Hn. apply Hn. by apply (bool_decide_unpack _).
  - destruct (decide (name c = "y_no")) as [Hn|Hn].
    + rewrite decide_False, decide_False; [done|by intros []|].
      intros Hl. apply Hl. rewrite Hn. by apply (bool_decide_unpack _).
    + rewrite decide_True, decide_True; [|done|].
      * simpl. by rewrite IH.
      * unfold label_columns. rewrite !elem_of_cons, elem_of_nil. tauto.
Qed.

(** ** How a run can fail *)

Section Failure.

Context `{RandomState}.

Lemma bind_inv {A B} (c : M A) (k : A → M B) w r w' :
  (c ≫= k) w = (r, w') →
  (∃ e, c w = (Err e, w') ∧ r = Err e) ∨
  (∃ a w1, c w = (Ok a, w1) ∧ k a w1 = (r, w')).
Proof.
  unfold mbind, M_bind, bind. destruct (c w) as [[a|e] w1].
  - intros Hk. right. by exists a, w1.
  - intros [= <- <-]. left. by exists e.
Qed.

Lemma read_csv_inv path w r w' :
  read_csv path w = (r, w') →
  w' = w ∧ (∀ e, r = Err e → e = FileNotFoundError path) ∧
  (∀ df, r = Ok df → tables w !! path = Some df).
Proof.
  unfold read_csv. destruct (tables w !! path); intros [= <- <-];
    split_and!; try done; by intros ? [= <-].
Qed.

Lemma add_indicators_Err df e :
  add_indicators df = Err e → e = KeyError "pdays" ∨ e = KeyError "job".
Proof.
  unfold add_indicators, getitem.
  destruct (list_find _ (columns df)) as [[? ?]|]; [|intros [= <-]; by left].
  destruct (list_find _ _) as [[? ?]|]; [done|intros [= <-]; by right].
Qed.

Lemma drop_columns_Err labels df e :
  drop_columns labels df = Err e → ∃ l, e = KeyError l ∧ l ∈ labels ∧ l ∉ names df.
Proof.
  unfold drop_columns. destruct (list_find _ _) as [[i l]|] eqn:Hf; [|done].
  intros [= <-]. apply list_find_Some in Hf as (Hi & Hl & _).
  exists l. split_and!; try done. by eapply list_elem_of_lookup_2.
Qed.

Lemma label_of_Err part e :
  label_of part = Err e → e = KeyError "y_yes" ∧ "y_yes" ∉ names part.
Proof. unfold label_of, select. case_bool_decide; [done|]. by intros [= <-]. Qed.

Lemma to_csv_inv path i h df w r w' :
  to_csv path i h df w = (r, w') →
  (r = Ok () ∧ writable path w ∧ w' = write_file path (csv_records i h df) w) ∨
  (r = Err (OSError path) ∧ ¬ writable path w ∧ w' = w).
Proof. unfold to_csv. case_bool_decide; intros [= <- <-]; [by left|by right]. Qed.

(** Storing a labelled partition fails on a missing label column, or on a
    missing directory; in both cases nothing is written. *)
Lemma store_labelled_Err part path w e w' :
  store_labelled part path w = (Err e, w') →
  w' = w ∧
  ((∃ l, e = KeyError l ∧ l ∈ label_columns ∧ l ∉ names part) ∨
   (e = OSError path ∧ ¬ writable path w)).
Proof.
  unfold store_labelled. intros Hk.
  apply bind_inv in Hk as [(e' & [= He <-] & [= <-])|(y & w1 & [= Hy <-] & Hk)].
  { apply label_of_Err in He as [-> Hn]. split; [done|]. left.
    exists "y_yes". split_and!; try done. by apply (bool_decide_unpack _). }
  apply bind_inv in Hk as [(e' & [= He <-] & [= <-])|(x & w1 & [= Hx <-] & Hk)].
  { apply drop_columns_Err in He as (l & -> & Hl & Hn). split; [done|]. left. by exists l. }
  apply to_csv_inv in Hk as [(? & _)|([= <-] & Hw & ->)]; [done|].
  split; [done|]. by right.
Qed.

End Failure.

Lemma shuffle_split_total `{RandomState} df w :
  shuffle_split df w
  = (Ok (np_split (take_frame (permutation (seeded 42) (len df)).1 df)
                  (Z.to_nat (cut_0_7 (Z.of_nat (len df))))
                  (Z.to_nat (cut_0_9 (Z.of_nat (len df))))), w).
Proof. done. Qed.

(** The ways a run can fail, in the order of the script: the input file
    cannot be read; a column the script names is missing; a directory for an
    output file is missing.  Up to the first write the world is untouched. *)
Lemma main_Err `{RandomState} args w e w' :
  main args w = (Err e, w') →
  (e = FileNotFoundError (input_of args) ∧ tables w !! input_of args = None ∧ w' = w) ∨
  (∃ l df0, e = KeyError l ∧ w' = w ∧ tables w !! input_of args = Some df0 ∧
     ((derive df0 = Err (KeyError l) ∧ l ∈ ["pdays"; "job"] ++ pruned) ∨
      (∃ d, derive df0 = Ok d ∧ l ∈ label_columns ∧ l ∉ names d))) ∨
  (e = OSError (train_csv args) ∧ ¬ writable (train_csv args) w ∧ w' = w) ∨
  (∃ path, e = OSError path ∧
           path ∈ [validation_csv args; test_y_csv args; test_x_csv args] ∧
           ¬ writable path w ∧ writable (train_csv args) w).
Proof.
  unfold main. intros Hk.
  apply bind_inv in Hk as [(e' & Hr & [= <-])|(df0 & w1 & Hr & Hk)].
  { unfold read_csv in Hr. destruct (tables w !! _) eqn:Hin; [done|].
    injection Hr as <- <-. by left. }
  apply read_csv_inv in Hr as (-> & _ & Hin). specialize (Hin df0 eq_refl).
  apply bind_inv in Hk as [(e' & [= He <-] & [= <-])|(df1 & w1 & [= H1 <-] & Hk)].
  { right. left. exists (match e with KeyError l => l | _ => "" end), df0.
    assert (derive df0 = Err e) as Hd by (unfold derive; by rewrite He).
    apply add_indicators_Err in He as [->| ->]; split_and!; try done;
      left; (split; [done|by apply (bool_decide_unpack _)]). }
  apply bind_inv in Hk as [(e' & [= He <-] & [= <-])|(df2 & w1 & [= H2 <-] & Hk)].
  { right. left.
    assert (derive df0 = Err e) as Hd by (unfold derive; by rewrite H1, He).
    apply drop_columns_Err in He as (l & -> & Hl & _).
    exists l, df0. split_and!; try done. left. split; [done|].
    rewrite elem_of_app. by right. }
  assert (derive df0 = Ok (get_dummies df2)) as Hd by (unfold derive; by rewrite H1, H2).
  apply bind_inv in Hk as [(e' & Hs & _)|(parts & w1 & Hs & Hk)];
    rewrite shuffle_split_total in Hs; [done|].
  injection Hs as <- <-.
  destruct (np_split _ _ _) as [[tr va] te] eqn:Hsplit.
  apply np_split_names in Hsplit as (Hn1 & Hn2 & Hn3).
  rewrite names_take_frame in Hn1, Hn2, Hn3.
  apply bind_inv in Hk as [(e' & Hs & [= <-])|([] & w1 & Hs & Hk)].
  { apply store_labelled_Err in Hs as [-> [(l & -> & Hl & Hn)|[-> Hw]]].
    - right. left. exists l, df0. split_and!; try done.
      right. exists (get_dummies df2). by rewrite <- Hn1.
    - right. right. left. done. }
  apply store_labelled_Ok in Hs as (ytr & xtr & Hytr & Hxtr & Hwtr & ->).
  assert (Hlab : label_columns ⊆ names tr).
  { unfold features_of in Hxtr. by apply drop_columns_Ok in Hxtr as [? _]. }
  assert (Hyes : "y_yes" ∈ names tr) by (by apply label_of_Ok in Hytr as (_ & _ & _ & ?)).
  right. right. right.
  apply bind_inv in Hk as [(e' & Hs & [= <-])|([] & w2 & Hs & Hk)].
  { apply store_labelled_Err in Hs as [-> [(l & -> & Hl & Hn)|[-> Hw]]].
    - destruct Hn. rewrite Hn2, <- Hn1. by apply Hlab.
    - exists (validation_csv args). split_and!; try done.
      rewrite elem_of_cons. by left. }
  apply store_labelled_Ok in Hs as (yva & xva & _ & _ & Hwva & ->).
  apply bind_inv in Hk as [(e' & [= He <-] & [= <-])|(yte & w3 & [= Hyte <-] & Hk)].
  { apply label_of_Err in He as [_ Hn]. destruct Hn. by rewrite Hn3, <- Hn1. }
  apply bind_inv in Hk as [(e' & Hs & [= <-])|([] & w3 & Hs & Hk)].
  { apply to_csv_inv in Hs as [(? & _)|([= ->] & Hw & ->)]; [done|].
    exists (test_y_csv args). split_and!; try done.
    rewrite !elem_of_cons. auto. }
  apply to_csv_inv in Hs as [(_ & Hwy & ->)|(? & _)]; [|done].
  apply bind_inv in Hk as [(e' & [= He <-] & [= <-])|(xte & w3 & [= Hxte <-] & Hk)].
  { apply drop_columns_Err in He as (l & _ & Hl & Hn).
    destruct Hn. rewrite Hn3, <- Hn1. by apply Hlab. }
  apply bind_inv in Hk as [(e' & Hs & [= <-])|([] & w3 & Hs & Hk)].
  { apply to_csv_inv in Hs as [(? & _)|([= ->] & Hw & ->)]; [done|].
    exists (test_x_csv args). split_and!; try done.
    rewrite !elem_of_cons. auto. }
  apply to_csv_inv in Hs as [(_ & Hwx & ->)|(? & _)]; [|done].
  apply bind_inv in Hk as [(e' & Hp & [= <-])|([] & w4 & Hp & Hk)]; done.
Qed.

(** ** Lookups that succeed *)

Lemma drop_columns_total labels df :
  labels ⊆ names df →
  drop_columns labels df
  = Ok (mkDF (index df) (filter (λ c, name c ∉ labels) (columns df))).
Proof.
  intros Hsub. unfold drop_columns.
  destruct (list_find _ _) as [[i l]|] eqn:Hf; [|done].
  apply list_find_Some in Hf as (Hi & Hl & _).
  destruct Hl. apply Hsub. by eapply list_elem_of_lookup_2.
Qed.

Lemma setitem_names label d vs df :
  names (setitem label d vs df)
  = if bool_decide (label ∈ names df) then names df else names df ++ [label].
Proof.
  unfold setitem, names. case_bool_decide; simpl.
  - rewrite <- list_fmap_compose. apply list_fmap_ext.
    intros _ c _. simpl. by case_bool_decide.
  - by rewrite fmap_app.
Qed.

Lemma setitem_names_subseteq label d vs df : names df ⊆ names (setitem label d vs df).
Proof.
  rewrite setitem_names. case_bool_decide; [done|].
  intros n Hn. apply elem_of_app. by left.
Qed.

Lemma add_indicators_names df df' :
  add_indicators df = Ok df' → names df ⊆ names df'.
Proof.
  intros (pdays & job & df1 & _ & -> & _ & ->)%add_indicators_Ok.
  etrans; apply setitem_names_subseteq.
Qed.

(** The script's own lookups succeed on the derived frame's sources. *)
Lemma derive_pruned_present df0 d : derive df0 = Ok d → pruned ⊆ names df0.
Proof.
  intros (df1 & df2 & H1 & H2 & ->)%derive_Ok.
  apply drop_columns_Ok in H2 as [Hsub _].
  apply add_indicators_Ok in H1 as (pdays & job & dfa & _ & -> & _ & ->).
  intros n Hn. specialize (Hsub n Hn).
  rewrite !setitem_names in Hsub.
  assert (n ≠ "no_previous_contact" ∧ n ≠ "not_working") as [Ha Hb].
  { unfold pruned in Hn. rewrite !elem_of_cons, elem_of_nil in Hn.
    destruct Hn as [->|[->|[->|[->|[->|[->|[]]]]]]]; by split. }
  rewrite <- normalize_names.
  repeat case_bool_decide; rewrite ?elem_of_app, ?list_elem_of_singleton in Hsub; tauto.
Qed.

(** With the table in order and the train directory missing, the run stops
    at the first write. *)
Lemma main_train_directory_missing `{RandomState} args w df0 d :
  tables w !! input_of args = Some df0 →
  derive df0 = Ok d →
  label_columns ⊆ names d →
  ¬ writable (train_csv args) w →
  main args w = (Err (OSError (train_csv args)), w).
Proof.
  intros Hin Hd Hlab Hw.
  destruct (main args w) as [[[[tr va] te]|e] w'] eqn:Hrun.
  { apply main_Ok in Hrun
      as (_ & _ & _ & _ & _ & _ & _ & _ & _ & _ & _ & _ & _ & _ & _ & _ & _ & Hw' & _).
    done. }
  apply main_Err in Hrun
    as [(_ & Hnone & _)|[(l & df & -> & -> & Hin' & Hl)|[(-> & _ & ->)|(p & _ & _ & _ & Hw')]]].
  - by rewrite Hin in Hnone.
  - rewrite Hin in Hin'. injection Hin' as <-.
    destruct Hl as [[Hd' _]|(d' & Hd' & Hl & Hn)]; rewrite Hd in Hd'; [done|].
    injection Hd' as <-. destruct Hn. by apply Hlab.
  - done.
  - done.
Qed.

(** The indicator reads the job cell after the normalization: a job spelled
    with a final full stop, as "admin." is in the data, is compared without
    it. *)
Lemma job_with_final_full_stop :
  normalize_value (VStr "student.") = VStr "student" ∧
  value_isin not_working_jobs (VStr "student.") = false ∧
  value_isin not_working_jobs (normalize_value (VStr "student.")) = true.
Proof. by split_and!. Qed.

(** Which strings the normalization turns into a plain name: the name, and
    the name followed by one full stop or one underscore. *)
Lemma normalize_to_plain s t :
  string_forall plain_char t = true →
  normalize_string s = t →
  s = t ∨ s = t +:+ "." ∨ s = t +:+ "_".
Proof.
  rewrite normalize_string_eq. revert t.
  induction s as [|c s IH]; intros t Ht; cbn [spec_replace_dots strip_at_eol].
  { intros <-. by left. }
  destruct (Ascii.eqb_spec (if Ascii.eqb c "." then "_"%char else c) "_") as [Hc|Hc].
  - cbn [andb].
    destruct (Re.at_eol (spec_replace_dots s)) eqn:He.
    + intros <-. destruct s as [|c1 [|c2 s]]; cbn [spec_replace_dots] in *.
      * right. destruct (Ascii.eqb_spec c "."); subst; [by left|by right].
      * cbn [Re.at_eol] in He. apply Ascii.eqb_eq in He. rewrite He in Ht.
        cbn [string_forall] in Ht. by vm_compute in Ht.
      * done.
    + intros <-. rewrite Hc in Ht. cbn [string_forall] in Ht. by vm_compute in Ht.
  - cbn [andb]. intros <-.
    cbn [string_forall] in Ht. apply andb_true_iff in Ht as [_ Ht].
    assert (Hd : Ascii.eqb c "." = false).
    { destruct (Ascii.eqb c ".") eqn:E; [congruence|done]. }
    rewrite Hd. destruct (IH _ Ht eq_refl) as [H|[H|H]].
    + left. by rewrite H at 1.
    + right. left. by rewrite H at 1.
    + right. right. by rewrite H at 1.
Qed.

(** The job names the script counts, as the normalization yields them. *)
Lemma normalize_to_job s t :
  t ∈ not_working_jobs →
  normalize_string s = t ↔ s = t ∨ s = t +:+ "." ∨ s = t +:+ "_".
Proof.
  intros Ht. split.
  - apply normalize_to_plain. unfold not_working_jobs in Ht.
    rewrite !elem_of_cons, elem_of_nil in Ht.
    destruct Ht as [->|[->|[->|[]]]]; reflexivity.
  - unfold not_working_jobs in Ht. rewrite !elem_of_cons, elem_of_nil in Ht.
    destruct Ht as [->|[->|[->|[]]]]; intros [->|[->| ->]]; reflexivity.
Qed.

(** The membership test on a normalized cell, in terms of the cell. *)
Lemma isin_normalized v :
  value_isin not_working_jobs (normalize_value v) = true ↔ reads_as not_working_jobs v.
Proof.
  unfold reads_as. destruct v as [z|neg a| |b|s];
    try (split; [done|by intros (t & _ & [|[|]])]).
  change (normalize_value (VStr s)) with (VStr (normalize_string s)).
  unfold value_isin. rewrite bool_decide_eq_true. split.
  - intros Hin. exists (normalize_string s). split; [done|].
    destruct (proj1 (normalize_to_job s _ Hin) eq_refl) as [H|[H|H]];
      rewrite <- H; auto.
  - intros (t & Ht & H).
    assert (Hs : s = t ∨ s = t +:+ "." ∨ s = t +:+ "_")
      by (destruct H as [|[|]]; simplify_eq; auto).
    apply (normalize_to_job s t Ht) in Hs. by rewrite Hs.
Qed.

(** The comparison [== z] holds for the numbers equal to [z]. *)
Lemma value_eq_int_iff z v : value_eq_int z v = true ↔ equals_integer z v.
Proof.
  unfold equals_integer. destruct v as [x|neg a| |b|s]; simpl; try done.
  - rewrite Z.eqb_eq. lia.
  - unfold Float64.eqb_int. destruct (Z.leb_spec 0 (Float64.expo a)) as [He|He].
    + rewrite Z.eqb_eq, Z.shiftl_mul_pow2 by done. destruct neg; nia.
    + rewrite Z.eqb_eq, Z.shiftl_mul_pow2 by lia. destruct neg; nia.
  - rewrite Z.eqb_eq. lia.
Qed.

(** The split points against the exact quotients at 90 rows. *)
Lemma cut_at_90 : cut_0_7 90 = 62 ∧ 7 * 90 / 10 = 63 ∧ cut_0_9 90 = 81 ∧ 9 * 90 / 10 = 81.
Proof. by split_and!. Qed.


(** ** The levels of a column *)

Lemma number_of_exponent v p : number_of v = Some p → 0 ≤ p.2.
Proof.
  destruct v as [z|neg a| |b|s]; simpl; try done; try (by intros [= <-]).
  destruct (Z.leb_spec 0 (Float64.expo a)); intros [= <-]; simpl; lia.
Qed.

Lemma number_compare_antisym p q : number_compare q p = CompOpp (number_compare p q).
Proof. unfold number_compare. apply Z.compare_antisym. Qed.

Lemma number_compare_trans c p q r :
  0 ≤ p.2 → 0 ≤ q.2 → 0 ≤ r.2 →
  number_compare p q = c → number_compare q r = c → number_compare p r = c.
Proof.
  unfold number_compare. destruct p as [n1 k1], q as [n2 k2], r as [n3 k3]. simpl.
  intros H1 H2 H3.
  assert (P1 : 0 < 2 ^ k1) by (apply Z.pow_pos_nonneg; lia).
  assert (P2 : 0 < 2 ^ k2) by (apply Z.pow_pos_nonneg; lia).
  assert (P3 : 0 < 2 ^ k3) by (apply Z.pow_pos_nonneg; lia).
  destruct c.
  - rewrite !Z.compare_eq_iff. nia.
  - rewrite !Z.compare_lt_iff. nia.
  - rewrite !Z.compare_gt_iff. nia.
Qed.

Lemma string_compare_refl s : String.compare s s = Eq.
Proof.
  destruct (String.compare s s) eqn:Hc; [done|..];
    pose proof Hc as Hc'; rewrite String.compare_antisym, Hc in Hc'; done.
Qed.

Lemma string_compare_trans c s t u :
  String.compare s t = c → String.compare t u = c → String.compare s u = c.
Proof.
  destruct c.
  - intros ->%String.compare_eq_iff ->%String.compare_eq_iff. apply string_compare_refl.
  - intros H1 H2.
    assert (Hle : String.le s u).
    { trans t; unfold String.le, String.leb; [by rewrite H1|by rewrite H2]. }
    destruct (String.compare s u) eqn:Hc; [|done|].
    + apply String.compare_eq_iff in Hc as ->.
      rewrite String.compare_antisym, H2 in H1. done.
    + unfold String.le, String.leb in Hle. by rewrite Hc in Hle.
  - intros H1 H2.
    rewrite String.compare_antisym in H1, H2.
    assert (H1' : String.compare t s = Lt) by by destruct (String.compare t s).
    assert (H2' : String.compare u t = Lt) by by destruct (String.compare u t).
    assert (Hle : String.le u s).
    { trans t; unfold String.le, String.leb; [by rewrite H2'|by rewrite H1']. }
    rewrite String.compare_antisym.
    destruct (String.compare u s) eqn:Hc; [|done|].
    + apply String.compare_eq_iff in Hc as ->.
      rewrite String.compare_antisym, H1' in H2'. done.
    + unfold String.le, String.leb in Hle. by rewrite Hc in Hle.
Qed.

Lemma level_compare_antisym v w : level_compare w v = CompOpp (level_compare v w).
Proof.
  unfold level_compare.
  destruct (number_of v) as [p|] eqn:Hv, (number_of w) as [q|] eqn:Hw; try done.
  - apply number_compare_antisym.
  - destruct v, w; try done. apply String.compare_antisym.
Qed.

Lemma level_compare_refl v : level_compare v v = Eq.
Proof.
  unfold level_compare. destruct (number_of v) as [p|] eqn:Hv.
  - unfold number_compare. apply Z.compare_refl.
  - destruct v; try done. apply string_compare_refl.
Qed.

Lemma level_compare_trans c u v w :
  level_compare u v = c → level_compare v w = c → level_compare u w = c.
Proof.
  unfold level_compare.
  destruct (number_of u) as [p|] eqn:Hu, (number_of v) as [q|] eqn:Hv,
           (number_of w) as [r|] eqn:Hw; try congruence.
  - apply number_compare_trans; by eapply number_of_exponent.
  - destruct u, v, w; simpl in *; try congruence. apply string_compare_trans.
Qed.

(** Equal levels compare alike with every other cell. *)
Lemma level_compare_eq_l u v w :
  level_compare u v = Eq → level_compare u w = level_compare v w.
Proof.
  intros He. destruct (level_compare v w) eqn:Hc.
  - by eapply level_compare_trans.
  - destruct (level_compare u w) eqn:Hc'; [|done|].
    + assert (level_compare v u = Eq) by (by rewrite level_compare_antisym, He).
      by rewrite (level_compare_trans Eq v u w) in Hc.
    + assert (level_compare w u = Lt) by (by rewrite level_compare_antisym, Hc').
      assert (level_compare v u = Lt) by by eapply level_compare_trans.
      rewrite level_compare_antisym, He in H0. done.
  - destruct (level_compare u w) eqn:Hc'; [| |done].
    + assert (level_compare v u = Eq) by (by rewrite level_compare_antisym, He).
      by rewrite (level_compare_trans Eq v u w) in Hc.
    + assert (level_compare w v = Lt) by (by rewrite level_compare_antisym, Hc).
      assert (level_compare u v = Lt) by by eapply level_compare_trans.
      congruence.
Qed.

Lemma same_level_true v w :
  same_level v w = true ↔
  missing v = false ∧ missing w = false ∧ level_compare v w = Eq.
Proof.
  unfold same_level. rewrite !andb_true_iff, !negb_true_iff, bool_decide_eq_true. tauto.
Qed.

Lemma same_level_refl v : missing v = false → same_level v v = true.
Proof. intros Hv. apply same_level_true. by rewrite level_compare_refl. Qed.

Lemma same_level_sym v w : same_level v w = same_level w v.
Proof.
  unfold same_level. rewrite (level_compare_antisym v w).
  destruct (missing v), (missing w), (level_compare v w); done.
Qed.

Lemma same_level_trans u v w :
  same_level u v = true → same_level v w = true → same_level u w = true.
Proof.
  rewrite !same_level_true. intros (Hu & Hv & H1) (_ & Hw & H2).
  split_and!; try done. by eapply level_compare_trans.
Qed.

(** A string is the same level as itself only. *)
Lemma same_level_string s w : same_level (VStr s) w = true ↔ w = VStr s.
Proof.
  rewrite same_level_true. split.
  - intros (_ & Hw & Hc). destruct w as [z|neg a| |b|t]; try done.
    apply String.compare_eq_iff in Hc. by subst.
  - intros ->. split_and!; try done. apply level_compare_refl.
Qed.

(** *** First appearances *)

Lemma uniques_elem vs x : x ∈ uniques vs ↔ ∃ i, first_of_level vs i x.
Proof.
  unfold first_of_level. revert x. induction vs as [|v vs IH]; intros x; simpl.
  - rewrite elem_of_nil. split; [done|]. by intros (i & Hi & _).
  - destruct (missing v) eqn:Hv.
    + rewrite IH. split.
      * intros (i & Hi & Hx & Hfirst). exists (S i). split_and!; try done.
        intros [|j] u Hj Hu; simpl in *.
        -- injection Hu as <-. unfold same_level. by rewrite Hv.
        -- apply (Hfirst j); [lia|done].
      * intros ([|i] & Hi & Hx & Hfirst); simpl in *.
        -- injection Hi as <-. congruence.
        -- exists i. split_and!; try done. intros j u Hj Hu.
           apply (Hfirst (S j)); [lia|done].
    + rewrite elem_of_cons, list_elem_of_filter, IH. split.
      * intros [->|(Hvx & i & Hi & Hx & Hfirst)].
        -- exists 0%nat. split_and!; try done. intros j u Hj. lia.
        -- exists (S i). split_and!; try done.
           intros [|j] u Hj Hu; simpl in *.
           ++ by injection Hu as <-.
           ++ apply (Hfirst j); [lia|done].
      * intros ([|i] & Hi & Hx & Hfirst); simpl in *.
        -- injection Hi as <-. by left.
        -- right. split; [apply (Hfirst 0%nat); [lia|done]|].
           exists i. split_and!; try done. intros j u Hj Hu.
           apply (Hfirst (S j)); [lia|done].
Qed.

Lemma uniques_cell vs x : x ∈ uniques vs → x ∈ vs ∧ missing x = false.
Proof.
  intros (i & Hi & Hx & _)%uniques_elem. split; [|done]. by eapply list_elem_of_lookup_2.
Qed.

(** Every cell that is not missing has its level. *)
Lemma uniques_covers vs v :
  v ∈ vs → missing v = false → ∃ u, u ∈ uniques vs ∧ same_level u v = true.
Proof.
  intros Hin Hv. induction vs as [|w vs IH]; [by apply elem_of_nil in Hin|].
  simpl. destruct (missing w) eqn:Hw.
  - apply elem_of_cons in Hin as [->|Hin]; [congruence|]. by apply IH.
  - destruct (same_level w v) eqn:Hwv.
    + exists w. split; [by left|done].
    + apply elem_of_cons in Hin as [->|Hin].
      { by rewrite same_level_refl in Hwv. }
      destruct (IH Hin) as (u & Hu & Huv). exists u. split; [|done].
      right. apply list_elem_of_filter. split; [|done].
      destruct (same_level w u) eqn:Hwu; [|done].
      by rewrite (same_level_trans w u v) in Hwv.
Qed.

(** No two of them are the same level. *)
Lemma uniques_distinct vs :
  StronglySorted (λ x y, same_level x y = false) (uniques vs).
Proof.
  induction vs as [|v vs IH]; simpl; [constructor|].
  destruct (missing v); [done|]. constructor.
  - clear -IH. induction IH as [|x l Hs IHs Hx]; [constructor|].
    rewrite filter_cons. case_decide; [|done]. constructor; [done|].
    apply Forall_forall. intros y [_ Hy]%list_elem_of_filter.
    by eapply Forall_forall in Hx.
  - apply Forall_forall. by intros y [Hy _]%list_elem_of_filter.
Qed.

Lemma insert_level_elem v l x : x ∈ insert_level v l ↔ x = v ∨ x ∈ l.
Proof.
  induction l as [|y l IH]; simpl.
  - rewrite list_elem_of_singleton, elem_of_nil. tauto.
  - destruct (level_compare v y); rewrite !elem_of_cons, ?IH; tauto.
Qed.

Lemma categories_elem vs x : x ∈ categories vs ↔ x ∈ uniques vs.
Proof.
  unfold categories. induction (uniques vs) as [|u l IH]; simpl; [done|].
  rewrite insert_level_elem, IH, elem_of_cons. tauto.
Qed.

Lemma insert_level_sorted v l :
  StronglySorted level_lt l →
  Forall (λ y, same_level v y = false) l →
  missing v = false → Forall (λ y, missing y = false) l →
  StronglySorted level_lt (insert_level v l).
Proof.
  intros Hs Hd Hv Hm. induction Hs as [|x l Hs IH Hx]; simpl.
  - repeat constructor.
  - apply Forall_cons in Hd as [Hvx Hd]. apply Forall_cons in Hm as [Hmx Hm].
    destruct (level_compare v x) eqn:Hc.
    + exfalso. assert (same_level v x = true); [|congruence].
      by apply same_level_true.
    + constructor; [by constructor|]. constructor; [done|].
      eapply Forall_impl; [exact Hx|]. intros y Hy.
      by eapply (level_compare_trans Lt).
    + constructor; [by apply IH|]. apply Forall_forall. intros y Hy.
      apply insert_level_elem in Hy as [->|Hy].
      * unfold level_lt. by rewrite level_compare_antisym, Hc.
      * by eapply Forall_forall in Hx.
Qed.

(** The levels stand in strictly increasing order. *)
Lemma categories_sorted vs : StronglySorted level_lt (categories vs).
Proof.
  unfold categories.
  pose proof (uniques_distinct vs) as Hd.
  assert (Hm : Forall (λ y, missing y = false) (uniques vs)).
  { apply Forall_forall. by intros y [_ Hy]%uniques_cell. }
  induction Hd as [|x l Hd IH Hx]; simpl; [constructor|].
  apply Forall_cons in Hm as [Hmx Hm].
  apply insert_level_sorted; [by apply IH| |done|].
  - apply Forall_forall. intros y Hy.
    assert (y ∈ l) as Hy'.
    { clear -Hy. induction l as [|u l IH]; simpl in *; [done|].
      apply insert_level_elem in Hy as [->|Hy]; [by left|right; by apply IH]. }
    by eapply Forall_forall in Hx.
  - apply Forall_forall. intros y Hy.
    assert (y ∈ l) as Hy'.
    { clear -Hy. induction l as [|u l IH]; simpl in *; [done|].
      apply insert_level_elem in Hy as [->|Hy]; [by left|right; by apply IH]. }
    by eapply Forall_forall in Hm.
Qed.

Lemma categories_distinct vs :
  StronglySorted (λ x y, same_level x y = false) (categories vs).
Proof.
  pose proof (categories_sorted vs) as Hs.
  induction Hs as [|x l Hs IH Hx]; constructor; [done|].
  eapply Forall_impl; [exact Hx|]. intros y Hy.
  destruct (same_level x y) eqn:He; [|done].
  apply same_level_true in He as (_ & _ & He). unfold level_lt in Hy. congruence.
Qed.

Lemma categories_NoDup vs : NoDup (categories vs).
Proof.
  pose proof (categories_sorted vs) as Hs.
  induction Hs as [|x l Hs IH Hx]; constructor; [|done].
  intros Hin. eapply Forall_forall in Hx; [|exact Hin].
  unfold level_lt in Hx. by rewrite level_compare_refl in Hx.
Qed.

(** The levels of a column are the first cells of each level. *)
Lemma categories_first vs x : x ∈ categories vs ↔ ∃ i, first_of_level vs i x.
Proof. by rewrite categories_elem, uniques_elem. Qed.

Lemma categories_covers vs v :
  v ∈ vs → missing v = false → ∃ lvl, lvl ∈ categories vs ∧ same_level v lvl = true.
Proof.
  intros Hin Hv. destruct (uniques_covers vs v Hin Hv) as (u & Hu & Huv).
  exists u. split; [by apply categories_elem|]. by rewrite same_level_sym.
Qed.

(** A string is a level exactly when it is a cell. *)
Lemma categories_string vs s : VStr s ∈ categories vs ↔ VStr s ∈ vs.
Proof.
  split.
  - intros Hin%categories_elem. by apply uniques_cell in Hin as [Hin _].
  - intros Hin. destruct (categories_covers vs (VStr s) Hin eq_refl) as (lvl & Hl & He).
    apply same_level_string in He. by subst.
Qed.

(** *** The text of a level *)

Lemma string_forall_app P s t :
  string_forall P (s +:+ t) = string_forall P s && string_forall P t.
Proof.
  induction s as [|c s IH]; [done|].
  change (String c s +:+ t) with (String c (s +:+ t)). simpl.
  by rewrite IH, andb_assoc.
Qed.

Lemma string_forall_substring P n m s :
  string_forall P s = true → string_forall P (substring n m s) = true.
Proof.
  revert n m. induction s as [|c s IH]; intros n m Hs.
  - by destruct n, m.
  - simpl in Hs. apply andb_true_iff in Hs as [Hc Hs].
    destruct n as [|n]; simpl.
    + destruct m as [|m]; [done|]. simpl. by rewrite Hc, IH.
    + by apply IH.
Qed.

Lemma digit_number_char d : number_char (PyStr.digit (d `mod` 10)) = true.
Proof.
  pose proof (Z.mod_pos_bound d 10 ltac:(lia)) as Hd.
  assert (Hc : ∃ k : nat, (k < 10)%nat ∧ d `mod` 10 = Z.of_nat k).
  { exists (Z.to_nat (d `mod` 10)). lia. }
  destruct Hc as (k & Hk & ->). unfold PyStr.digit. rewrite Nat2Z.id.
  do 10 (destruct k as [|k]; [reflexivity|]). lia.
Qed.

Lemma decimal_go_number fuel n acc :
  string_forall number_char acc = true →
  string_forall number_char (PyStr.decimal_go fuel n acc) = true.
Proof.
  revert n acc. induction fuel as [|fuel IH]; intros n acc Hacc; cbn [PyStr.decimal_go]; [done|].
  assert (string_forall number_char (String (PyStr.digit (n `mod` 10)) acc) = true).
  { cbn [string_forall]. by rewrite digit_number_char, Hacc. }
  destruct (n <? 10); [done|by apply IH].
Qed.

Lemma decimal_number n : string_forall number_char (PyStr.decimal n) = true.
Proof. by apply decimal_go_number. Qed.

Lemma zeros_number k : string_forall number_char (PyStr.zeros k) = true.
Proof.
  unfold PyStr.zeros. induction (Z.to_nat k) as [|n IH]; [done|].
  destruct n as [|n]; [done|]. cbn [replicate String.concat] in *.
  change ("0" +:+ "" +:+ ?s) with (String "0" s). cbn [string_forall]. exact IH.
Qed.

Lemma of_int_number z : string_forall number_char (PyStr.of_int z) = true.
Proof.
  unfold PyStr.of_int. destruct (z <? 0); [|apply decimal_number].
  by rewrite string_forall_app, decimal_number.
Qed.

Lemma of_positive_number m e : string_forall number_char (PyStr.of_positive m e) = true.
Proof.
  unfold PyStr.of_positive.
  destruct (PyStr.shortest _ _ _ _ _) as [c n].
  set (d := if c =? 10 ^ n then _ else _).
  set (ds := PyStr.decimal _).
  assert (Hds : string_forall number_char ds = true) by apply decimal_number.
  cbv zeta.
  destruct (_ || _).
  - rewrite !string_forall_app.
    assert (Hm : string_forall number_char
                   match ds with
                   | "" => ""
                   | String c1 "" => String c1 ""
                   | String c1 (String _ _ as rest) => String c1 ("." +:+ rest)
                   end = true).
    { destruct ds as [|c1 [|c2 rest]]; [done|done|].
      cbn [string_forall] in Hds. apply andb_true_iff in Hds as [H1 H2].
      change ("." +:+ String c2 rest) with (String "." (String c2 rest)).
      cbn [string_forall]. rewrite H1. cbn [string_forall] in H2. by rewrite H2. }
    rewrite Hm. cbn [andb].
    destruct (d - 1 <? 0), (Z.abs (d - 1) <? 10);
      rewrite ?string_forall_app, ?decimal_number; done.
  - destruct (d <=? 0).
    + by rewrite !string_forall_app, zeros_number, Hds.
    + destruct (d <? _).
      * by rewrite !string_forall_app, !string_forall_substring.
      * by rewrite !string_forall_app, zeros_number, Hds.
Qed.

Lemma of_float_number neg m e : string_forall number_char (PyStr.of_float neg m e) = true.
Proof.
  unfold PyStr.of_float. rewrite string_forall_app.
  destruct neg, (m <=? 0); rewrite ?of_positive_number; done.
Qed.

(** A level whose text has a letter other than [e] in it is a string, or a
    boolean. *)
Lemma level_text_string v t :
  level_text v = t → string_forall number_char t = false →
  t ≠ "True" → t ≠ "False" → t ≠ "nan" → v = VStr t.
Proof.
  intros <- Hn Ht Hf Hna. destruct v as [z|neg a| |b|s]; cbn [level_text] in *.
  - by rewrite of_int_number in Hn.
  - by rewrite of_float_number in Hn.
  - done.
  - by destruct b.
  - done.
Qed.

Lemma level_text_answer v lvl :
  lvl ∈ ["yes"; "no"] → level_text v = lvl ↔ v = VStr lvl.
Proof.
  intros Hl. split; [|by intros ->].
  intros Hv. apply level_text_string; [done|..];
    rewrite !elem_of_cons, elem_of_nil in Hl; by destruct Hl as [->|[->|[]]].
Qed.


(** ** The sources of the columns *)

(** After [df[label] = vs] the frame has the new column and the old ones of
    another label. *)
Lemma elem_of_setitem label d vs df c :
  c ∈ columns (setitem label d vs df)
  ↔ (c ∈ columns df ∧ name c ≠ label) ∨ c = mkSeries label d vs.
Proof.
  unfold setitem. case_bool_decide as Hin; simpl.
  - rewrite list_elem_of_fmap. split.
    + intros (c0 & -> & Hc0). case_bool_decide; [by right|by left].
    + intros [[Hc Hn]| ->].
      * exists c. by rewrite bool_decide_eq_false_2.
      * apply list_elem_of_fmap in Hin as (c0 & Hn & Hc0).
        exists c0. by rewrite bool_decide_eq_true_2.
  - rewrite elem_of_app, list_elem_of_singleton. split.
    + intros [Hc| ->]; [left|by right]. split; [done|].
      intros Hn. apply Hin. rewrite <- Hn. by apply list_elem_of_fmap_2.
    + intros [[Hc _]| ->]; [by left|by right].
Qed.

Lemma normalize_columns df : columns (normalize df) = normalize_series <$> columns df.
Proof. unfold normalize, replace. simpl. by rewrite <- list_fmap_compose. Qed.

Lemma normalize_series_object c :
  dt c = object →
  normalize_series c = mkSeries (name c) object (normalize_value <$> values c).
Proof.
  intros Hc. unfold normalize_series, replace_series. rewrite Hc. simpl.
  by rewrite <- list_fmap_compose.
Qed.

Lemma normalize_series_other c : dt c ≠ object → normalize_series c = c.
Proof.
  intros Hc. unfold normalize_series, replace_series.
  destruct (dt c) eqn:E; try done; by rewrite E.
Qed.

Lemma normalize_value_string v t :
  normalize_value v = VStr t ↔ ∃ s, v = VStr s ∧ t = normalize_string s.
Proof.
  destruct v; simpl; split; try done; try (by intros (s & [=] & _)).
  - intros [= <-]. by eexists.
  - by intros (s' & [= <-] & ->).
Qed.

(** The columns of the frame after the indicators are in place: the
    normalized columns of the table, except those an indicator overwrites,
    and the two indicator columns. *)
Lemma add_indicators_columns df0 df1 :
  add_indicators (normalize df0) = Ok df1 →
  ∃ npc nw,
    name npc = "no_previous_contact" ∧ dt npc = int64 ∧
    name nw = "not_working" ∧ dt nw = int64 ∧
    ∀ c, c ∈ columns df1 ↔
      (∃ c0, c0 ∈ columns df0 ∧ c = normalize_series c0 ∧ name c0 ∉ indicators) ∨
      c = npc ∨ c = nw.
Proof.
  intros (pdays & job & dfa & _ & -> & _ & ->)%add_indicators_Ok.
  eexists (mkSeries _ _ _), (mkSeries _ _ _). split_and!; try done.
  intros c. rewrite !elem_of_setitem, normalize_columns, list_elem_of_fmap.
  assert (Hname : ∀ c0, name (normalize_series c0) = name c0).
  { intros c0. unfold normalize_series. by rewrite !replace_series_name. }
  unfold indicators. split.
  - intros [[[[(c0 & -> & Hc0) Hn1]| ->] Hn2]| ->].
    + left. exists c0. rewrite Hname in Hn1, Hn2. split_and!; try done.
      rewrite !not_elem_of_cons. split_and!; try done. apply not_elem_of_nil.
    + right. by left.
    + right. by right.
  - intros [(c0 & Hc0 & -> & Hn)|[->| ->]].
    + apply not_elem_of_cons in Hn as (Hn1 & (Hn2 & _)%not_elem_of_cons).
      left. rewrite Hname. split; [|done]. left. split; [|done]. by exists c0.
    + left. split; [by right|done].
    + by right.
Qed.

(** A label [c_s] reads [y_yes] (or [y_no]) only for the column [y]. *)
Lemma label_split c t lvl :
  lvl ∈ ["yes"; "no"] →
  c +:+ "_" +:+ t = "y_" +:+ lvl ↔ c = "y" ∧ t = lvl.
Proof.
  intros Hl. split; [|by intros [-> ->]].
  assert (A0 : ∀ x : string, "" +:+ x = x) by done.
  assert (A1 : ∀ a (x y : string), String a x +:+ y = String a (x +:+ y)) by done.
  rewrite !elem_of_cons, elem_of_nil in Hl.
  destruct Hl as [->|[->|[]]]; rewrite !A1, A0.
  all: destruct c as [|a [|b c]]; rewrite ?A1, ?A0; intros [=]; subst; try done.
  all: repeat (destruct c as [|? c]; rewrite ?A1, ?A0 in *; simplify_eq).
Qed.

(** Distinct labels stay distinct when a column is set. *)
Lemma setitem_NoDup label d vs df :
  NoDup (names df) → NoDup (names (setitem label d vs df)).
Proof.
  intros Hnd. unfold setitem, names. case_bool_decide as Hin; simpl.
  - rewrite <- list_fmap_compose.
    erewrite list_fmap_ext; [exact Hnd|]. intros i c _. simpl. by case_bool_decide.
  - rewrite fmap_app. apply NoDup_app. split_and!; [done| |apply NoDup_singleton].
    intros n Hn [= ->]%list_elem_of_singleton. done.
Qed.

(** The columns of one label in a list of distinct labels. *)
Lemma filter_eq_NoDup {A} `{EqDecision A} (l : list A) n :
  NoDup l → filter (λ x, x = n) l = if bool_decide (n ∈ l) then [n] else [].
Proof.
  induction 1 as [|x l Hx Hnd IH]; [done|].
  rewrite filter_cons. destruct (decide (x = n)) as [->|Hne].
  - rewrite IH, bool_decide_eq_false_2 by done.
    by rewrite bool_decide_eq_true_2 by (apply elem_of_cons; by left).
  - rewrite IH. apply (f_equal (λ b : bool, if b then [n] else [])).
    apply bool_decide_ext. rewrite elem_of_cons.
    split; [by right|by intros [->|?]].
Qed.

(** The indicator columns of one column that are labelled [y_yes] (or
    [y_no]): one, for the column [y] when the answer is among its levels. *)
Lemma label_among_levels nm lvl (l : list value) :
  lvl ∈ ["yes"; "no"] → NoDup l →
  filter (λ n, n = "y_" +:+ lvl) ((λ v, nm +:+ "_" +:+ level_text v) <$> l)
  = if bool_decide (nm = "y" ∧ VStr lvl ∈ l) then ["y_" +:+ lvl] else [].
Proof.
  intros Hl. induction 1 as [|x l Hx Hnd IH].
  { rewrite bool_decide_eq_false_2; [done|]. intros [_ []%elem_of_nil]. }
  rewrite fmap_cons, filter_cons.
  destruct (decide (nm +:+ "_" +:+ level_text x = "y_" +:+ lvl)) as [He|He].
  - apply (label_split _ _ _ Hl) in He as [-> He].
    apply (level_text_answer _ _ Hl) in He as ->.
    rewrite IH, bool_decide_eq_false_2 by (by intros [_ ?]).
    rewrite bool_decide_eq_true_2; [done|]. split; [done|apply elem_of_cons; by left].
  - rewrite IH. apply (f_equal (λ b : bool, if b then ["y_" +:+ lvl] else [])).
    apply bool_decide_ext. rewrite elem_of_cons. split; [by intros [? ?]; auto|].
    intros [-> [<-|Hin]]; [|done]. destruct He. apply label_split; [done|].
    split; [done|]. by apply level_text_answer.
Qed.

(** The same over the object columns of a frame whose labels are
    distinct. *)
Lemma label_among_dummies (cs : list Series) lvl :
  lvl ∈ ["yes"; "no"] → NoDup (name <$> cs) →
  ∃ b : bool,
    filter (λ n, n = "y_" +:+ lvl) (name <$> (cs ≫= dummies))
    = (if b then ["y_" +:+ lvl] else []) ∧
    (b = true ↔ ∃ c, c ∈ cs ∧ name c = "y" ∧ VStr lvl ∈ values c).
Proof.
  intros Hl. induction cs as [|c cs IH]; intros Hnd.
  { exists false. split; [done|]. split; [done|]. by intros (c & []%elem_of_nil & _). }
  rewrite fmap_cons in Hnd. apply NoDup_cons in Hnd as [Hc Hnd].
  destruct (IH Hnd) as (b & Hb & Hiff).
  rewrite bind_cons, fmap_app, filter_app, Hb.
  unfold dummies at 1. rewrite <- list_fmap_compose.
  change (name ∘ dummy_column c) with (λ v, name c +:+ "_" +:+ level_text v).
  rewrite (label_among_levels _ _ _ Hl (categories_NoDup _)).
  case_bool_decide as Hy.
  - destruct Hy as [Hy Hin]. apply (proj1 (categories_string _ _)) in Hin.
    exists true. destruct b.
    + destruct (proj1 Hiff eq_refl) as (c' & Hc' & Hn' & _).
      destruct Hc. rewrite Hy, <- Hn'. by apply list_elem_of_fmap_2.
    + split; [done|]. split; [|done]. intros _. exists c.
      split; [apply elem_of_cons; by left|by split].
  - exists b. split; [done|]. rewrite Hiff. split.
    + intros (c' & Hc' & H'). exists c'. split; [apply elem_of_cons; by right|done].
    + intros (c' & [->|Hc']%elem_of_cons & Hn' & Hin'); [|by exists c'].
      destruct Hy. split; [done|]. by apply (proj2 (categories_string _ _)).
Qed.

Lemma normalize_series_name c : name (normalize_series c) = name c.
Proof. unfold normalize_series. by rewrite !replace_series_name. Qed.

(** The frame the encoding is applied to. *)
Lemma derive_frame df0 d :
  derive df0 = Ok d →
  ∃ df2 npc nw,
    d = get_dummies df2 ∧
    name npc = "no_previous_contact" ∧ dt npc = int64 ∧
    name nw = "not_working" ∧ dt nw = int64 ∧
    (∀ c, c ∈ columns df2 ↔
       (name c ∉ pruned) ∧
       ((∃ c0, c0 ∈ columns df0 ∧ c = normalize_series c0 ∧ name c0 ∉ indicators) ∨
        c = npc ∨ c = nw)) ∧
    (NoDup (names df0) → NoDup (names df2)).
Proof.
  intros (df1 & df2 & H1 & H2 & ->)%derive_Ok.
  destruct (add_indicators_columns _ _ H1) as (npc & nw & N1 & D1 & N2 & D2 & Hcols).
  apply add_indicators_Ok in H1 as (pdays & job & dfa & _ & -> & _ & ->).
  apply drop_columns_Ok in H2 as [_ ->].
  eexists _, npc, nw. split; [reflexivity|]. split_and!; try done.
  - intros c. simpl. rewrite list_elem_of_filter, Hcols. done.
  - intros Hnd. unfold names at 1. simpl.
    eapply sublist_NoDup; [|apply fmap_sublist, sublist_filter].
    apply setitem_NoDup, setitem_NoDup.
    unfold normalize. by rewrite !replace_names.
Qed.

(** How many columns of the derived frame are labelled [y_yes] (or
    [y_no]) when the labels of the table are distinct: one for a column of
    the table that has this very label and is not of object dtype, and one
    for the object column [y] when the answer occurs in it. *)
Lemma derive_label_columns df0 d lvl :
  lvl ∈ ["yes"; "no"] → derive df0 = Ok d → NoDup (names df0) →
  ∃ own answered : bool,
    filter (λ n, n = "y_" +:+ lvl) (names d)
    = (if own then ["y_" +:+ lvl] else []) ++ (if answered then ["y_" +:+ lvl] else []) ∧
    (own = true ↔ ∃ c, c ∈ columns df0 ∧ dt c ≠ object ∧ name c = "y_" +:+ lvl) ∧
    (answered = true ↔
       ∃ c s, c ∈ columns df0 ∧ dt c = object ∧ name c = "y" ∧
              VStr s ∈ values c ∧ normalize_string s = lvl).
Proof.
  intros Hl (df2 & npc & nw & -> & N1 & D1 & N2 & D2 & Hcols & Hnd)%derive_frame Hnd0.
  specialize (Hnd Hnd0).
  assert (Hni : ("y_" +:+ lvl ∉ indicators) ∧ ("y_" +:+ lvl ∉ pruned) ∧
                ("y" ∉ indicators) ∧ ("y" ∉ pruned) ∧
                "y_" +:+ lvl ≠ "no_previous_contact" ∧ "y_" +:+ lvl ≠ "not_working" ∧
                "y" ≠ "no_previous_contact" ∧ "y" ≠ "not_working").
  { rewrite !elem_of_cons, elem_of_nil in Hl.
    destruct Hl as [->|[->|[]]]; split_and!; by apply (bool_decide_unpack _). }
  destruct Hni as (I1 & I2 & I3 & I4 & I5 & I6 & I7 & I8).
  assert (HndA : NoDup (name <$> filter (λ c, dt c ≠ object) (columns df2))).
  { eapply sublist_NoDup; [exact Hnd|]. apply fmap_sublist, sublist_filter. }
  assert (HndB : NoDup (name <$> filter (λ c, dt c = object) (columns df2))).
  { eapply sublist_NoDup; [exact Hnd|]. apply fmap_sublist, sublist_filter. }
  destruct (label_among_dummies _ lvl Hl HndB) as (b & Hb & Hiff).
  exists (bool_decide ("y_" +:+ lvl ∈ name <$> filter (λ c, dt c ≠ object) (columns df2))), b.
  unfold names, get_dummies. simpl.
  rewrite fmap_app, filter_app, Hb, (filter_eq_NoDup _ _ HndA).
  split; [done|]. split.
  - rewrite bool_decide_eq_true, list_elem_of_fmap. split.
    + intros (c & Hn & [Hdt Hc]%list_elem_of_filter).
      apply Hcols in Hc as [_ [(c0 & Hc0 & -> & _)|[->| ->]]].
      * destruct (decide (dt c0 = object)) as [Ho|Ho].
        { by rewrite (normalize_series_object _ Ho) in Hdt. }
        rewrite (normalize_series_other _ Ho) in *. by exists c0.
      * by rewrite N1 in Hn.
      * by rewrite N2 in Hn.
    + intros (c0 & Hc0 & Hdt & Hn). exists c0. split; [done|].
      apply list_elem_of_filter. split; [done|]. apply Hcols.
      rewrite Hn. split; [done|]. left. exists c0.
      rewrite (normalize_series_other _ Hdt), Hn. done.
  - rewrite Hiff. split.
    + intros (c & [Hdt Hc]%list_elem_of_filter & Hn & Hin).
      apply Hcols in Hc as [_ [(c0 & Hc0 & -> & _)|[->| ->]]];
        [|by rewrite ?D1, ?D2 in Hdt..].
      destruct (decide (dt c0 = object)) as [Ho|Ho].
      2: { by rewrite (normalize_series_other _ Ho) in Hdt. }
      rewrite (normalize_series_object _ Ho) in *. simpl in *.
      apply list_elem_of_fmap in Hin as (v & Hv & Hin). symmetry in Hv.
      apply normalize_value_string in Hv as (s & -> & ->). by exists c0, s.
    + intros (c0 & s & Hc0 & Hdt & Hn & Hs & <-). exists (normalize_series c0).
      rewrite list_elem_of_filter, Hcols, normalize_series_name, Hn.
      rewrite (normalize_series_object _ Hdt). simpl. split_and!; try done.
      * left. exists c0. by rewrite (normalize_series_object _ Hdt), Hn.
      * apply list_elem_of_fmap. by exists (VStr s).
Qed.

(** * The claims *)

(** The positions of the shuffled order that go to each partition. *)
Lemma np_split_take_frame p d i1 i2 :
  rectangular d → p ≡ₚ seq 0 (len d) →
  np_split (take_frame p d) i1 i2 =
    (take_frame (slice 0 i1 p) d,
     take_frame (slice i1 i2 p) d,
     take_frame (slice i2 (len d) p) d).
Proof.
  intros Hr Hp. pose proof (permutation_valid _ _ Hp) as Hv.
  unfold np_split. rewrite !slice_take_frame by done.
  rewrite take_frame_len by done.
  by rewrite (Permutation_length Hp), length_seq.
Qed.

(** C1 (as amended).  For every input table, a successful run cuts the
    derived frame [d] of [N] rows into three partitions as follows.  The
    rows are put in the order [p] that numpy draws for seed 42, a permutation
    of the positions [0 .. N-1]; the order is cut at [i1 = int(0.7 * N)] and
    [i2 = int(0.9 * N)], both evaluated in double precision as the script
    does; train holds the derived rows at the positions [p[0:i1]],
    validation those at [p[i1:i2]], test those at [p[i2:N]].  The three
    position lists concatenate to [p], so they are pairwise disjoint and
    every derived row is in exactly one partition, and the row labels of the
    three partitions are together those of the table; the row counts are [i1],
    [i2 - i1] and [N - i2] and sum to [N]; for [N = 41188] they are 28831,
    8238 and 4119.  The second cut is [floor(9N/10)]; the first is
    [floor(7N/10)] or one less. *)
Theorem split_partitions `{RandomState} args w w' df0 tr va te :
  tables w !! input_of args = Some df0 →
  rectangular df0 →
  main args w = (Ok (tr, va, te), w') →
  ∃ d p,
    derive df0 = Ok d ∧
    p = (permutation (seeded 42) (len d)).1 ∧
    let N := len d in
    let i1 := Z.to_nat (cut_0_7 (Z.of_nat N)) in
    let i2 := Z.to_nat (cut_0_9 (Z.of_nat N)) in
    let p_train := slice 0 i1 p in
    let p_validation := slice i1 i2 p in
    let p_test := slice i2 N p in
    N = len df0 ∧
    p ≡ₚ seq 0 N ∧
    (i1 ≤ i2 ≤ N)%nat ∧
    tr = take_frame p_train d ∧
    va = take_frame p_validation d ∧
    te = take_frame p_test d ∧
    (∀ j, row_at tr j = p_train !! j ≫= row_at d) ∧
    (∀ j, row_at va j = p_validation !! j ≫= row_at d) ∧
    (∀ j, row_at te j = p_test !! j ≫= row_at d) ∧
    p_train ++ p_validation ++ p_test = p ∧
    NoDup (p_train ++ p_validation ++ p_test) ∧
    (∀ i, i ∈ p_train ++ p_validation ++ p_test ↔ (i < N)%nat) ∧
    index tr ++ index va ++ index te ≡ₚ index df0 ∧
    len tr = i1 ∧ len va = (i2 - i1)%nat ∧ len te = (N - i2)%nat ∧
    (len tr + len va + len te = N)%nat ∧
    (Z.of_nat N = 41188 →
     Z.of_nat (len tr) = 28831 ∧ Z.of_nat (len va) = 8238 ∧ Z.of_nat (len te) = 4119) ∧
    (Z.of_nat N < 2 ^ 49 →
     Z.of_nat i2 = 9 * Z.of_nat N / 10 ∧
     7 * Z.of_nat N / 10 - 1 ≤ Z.of_nat i1 ≤ 7 * Z.of_nat N / 10).
Proof.
  intros Hin Hrect Hrun.
  apply main_Ok in Hrun
    as (df0' & d & ytr & xtr & yva & xva & yte & xte & Hin' & Hd & Hsplit & _).
  rewrite Hin in Hin'. injection Hin' as <-.
  exists d, (permutation (seeded 42) (len d)).1.
  split; [done|]. split; [done|]. intros N i1 i2 p_train p_validation p_test.
  set (p := (permutation (seeded 42) (len d)).1) in *.
  assert (Hp : p ≡ₚ seq 0 N) by apply permutation_perm.
  pose proof (permutation_valid _ _ Hp) as Hv.
  pose proof (derive_rectangular _ _ Hd Hrect) as Hrd.
  assert (Hlen : length p = N) by by rewrite (Permutation_length Hp), length_seq.
  pose proof (cut_ordered (Z.of_nat N) ltac:(lia)) as [[H0 H12] H2N].
  assert (Hcuts : (i1 ≤ i2 ≤ N)%nat) by (subst i1 i2; lia).
  rewrite np_split_take_frame in Hsplit by done. injection Hsplit as -> -> ->.
  fold N i1 i2 p_train p_validation p_test.
  assert (Hcat : p_train ++ p_validation ++ p_test = p).
  { subst p_train p_validation p_test. rewrite <- Hlen. apply slice_three. lia. }
  assert (Hvt : Forall (λ i, (i < len d)%nat) p_train ∧
                Forall (λ i, (i < len d)%nat) p_validation ∧
                Forall (λ i, (i < len d)%nat) p_test).
  { rewrite <- Hcat in Hv. by rewrite !Forall_app in Hv. }
  destruct Hvt as (Hv1 & Hv2 & Hv3).
  assert (Hl1 : len (take_frame p_train d) = i1).
  { rewrite take_frame_len by done. subst p_train. rewrite slice_length; lia. }
  assert (Hl2 : len (take_frame p_validation d) = (i2 - i1)%nat).
  { rewrite take_frame_len by done. subst p_validation. rewrite slice_length; lia. }
  assert (Hl3 : len (take_frame p_test d) = (N - i2)%nat).
  { rewrite take_frame_len by done. subst p_test. rewrite slice_length; lia. }
  assert (HN0 : N = len df0) by (subst N; by apply derive_len).
  assert (Hnd : NoDup (p_train ++ p_validation ++ p_test)).
  { rewrite Hcat, Hp. apply NoDup_seq. }
  assert (Hin_iff : ∀ i, i ∈ p_train ++ p_validation ++ p_test ↔ (i < N)%nat).
  { intros i. rewrite Hcat, Hp, elem_of_seq. lia. }
  assert (Hlabels : index (take_frame p_train d) ++ index (take_frame p_validation d)
                    ++ index (take_frame p_test d) ≡ₚ index df0).
  { change (take_rows p_train (index d) ++ take_rows p_validation (index d)
            ++ take_rows p_test (index d) ≡ₚ index df0).
    unfold take_rows. rewrite <- !omap_app, Hcat, <- (derive_index _ _ Hd).
    apply take_rows_permutation, Hp. }
  assert (Hex : Z.of_nat N = 41188 →
     Z.of_nat (len (take_frame p_train d)) = 28831 ∧
     Z.of_nat (len (take_frame p_validation d)) = 8238 ∧
     Z.of_nat (len (take_frame p_test d)) = 4119).
  { intros HN. rewrite Hl1, Hl2, Hl3. subst i1 i2. rewrite HN.
    change (cut_0_7 41188) with 28831. change (cut_0_9 41188) with 37069. lia. }
  assert (Hfloor : Z.of_nat N < 2 ^ 49 →
     Z.of_nat i2 = 9 * Z.of_nat N / 10 ∧
     7 * Z.of_nat N / 10 - 1 ≤ Z.of_nat i1 ≤ 7 * Z.of_nat N / 10).
  { intros HN. subst i1 i2. rewrite !Z2Nat.id by lia.
    split; [apply cut_0_9_exact; lia|apply cut_0_7_near; lia]. }
  split_and!; try done; try (intros j; by apply take_frame_row); lia.
Qed.

(** A cell of a column after the normalization: normalized in a column of
    object dtype, as it was in any other. *)
Lemma normalize_series_row job i v :
  values job !! i = Some v →
  values (normalize_series job) !! i
  = Some (if bool_decide (dt job = object) then normalize_value v else v).
Proof.
  intros Hv. unfold normalize_series, replace_series.
  destruct (dt job) eqn:E; rewrite ?E; simpl; try done.
  all: try (rewrite <- list_fmap_compose, list_lookup_fmap, Hv; done).
Qed.

(** C2 (as amended).  For every input table on which the derivation
    succeeds, and for every row [i]: the derived column
    [no_previous_contact] holds 1 if the row's [pdays] cell equals 999 and 0
    otherwise, where the cells that equal 999 are the numbers of that
    value, integer or float, and never a string, a boolean or a missing
    cell.  The derived column [not_working] holds 1 if the row's [job]
    cell, as the normalization leaves it, is one of "student", "retired",
    "unemployed", and 0 otherwise: in a [job] column of text (object
    dtype) that is the case exactly for a field that is one of the three
    names or one of them followed by a single full stop or underscore, and
    a cell that is not a string gives 0.  The three job names are
    themselves untouched by the normalization. *)
Theorem indicator_columns df0 d :
  derive df0 = Ok d →
  ∃ pdays job nc nw,
    getitem "pdays" df0 = Ok pdays ∧
    getitem "job" df0 = Ok job ∧
    getitem "no_previous_contact" d = Ok nc ∧
    getitem "not_working" d = Ok nw ∧
    length (values nc) = length (values pdays) ∧
    length (values nw) = length (values job) ∧
    (∀ i v, values pdays !! i = Some v →
       values nc !! i = Some (VInt (if value_eq_int 999 v then 1 else 0))) ∧
    (∀ i v, values (normalize_series job) !! i = Some v →
       values nw !! i = Some (VInt (if value_isin not_working_jobs v then 1 else 0))) ∧
    (∀ v, value_isin not_working_jobs v = true ↔
          v = VStr "student" ∨ v = VStr "retired" ∨ v = VStr "unemployed") ∧
    (∀ z, value_eq_int 999 (VInt z) = true ↔ z = 999) ∧
    (∀ s, s ∈ not_working_jobs → normalize_value (VStr s) = VStr s) ∧
    (∀ v, value_eq_int 999 v = true ↔ equals_integer 999 v) ∧
    (∀ v, textual v = true ∨ missing v = true ∨ (∃ b, v = VBool b) →
          value_eq_int 999 v = false) ∧
    (dt job = object → ∀ i v, values job !! i = Some v →
       (values nw !! i = Some (VInt 1) ∨ values nw !! i = Some (VInt 0)) ∧
       (values nw !! i = Some (VInt 1) ↔ reads_as not_working_jobs v)) ∧
    (∀ i v, values job !! i = Some v → textual v = false →
       values nw !! i = Some (VInt 0)).
Proof.
  intros (pdays & job & Hp & Hj & Hnc & Hnw)%derive_indicators.
  pose proof (normalize_series_row job) as Hrow.
  eexists pdays, job, _, _. split_and!; try done; simpl.
  - by rewrite length_fmap.
  - rewrite length_fmap. unfold normalize_series.
    by rewrite !replace_series_length.
  - intros i v Hv. by rewrite list_lookup_fmap, Hv.
  - intros i v Hv. by rewrite list_lookup_fmap, Hv.
  - intros v. unfold value_isin, not_working_jobs.
    destruct v as [| | | |s];
      try (split; [done|by intros [|[|]]]).
    rewrite bool_decide_eq_true, !elem_of_cons, elem_of_nil.
    split; [intros [->|[->|[->|[]]]]; auto|intros [|[|]]; simplify_eq; auto].
  - intros z. simpl. lia.
  - intros s. unfold not_working_jobs. rewrite !elem_of_cons, elem_of_nil.
    intros [->|[->|[->|[]]]]; reflexivity.
  - intros v. apply value_eq_int_iff.
  - intros v [Hv|[Hv|[b ->]]]; [by destruct v..|by destruct b].
  - intros Ho i v Hv. rewrite list_lookup_fmap, (Hrow i v Hv).
    rewrite bool_decide_eq_true_2 by done. simpl.
    change ["student"; "retired"; "unemployed"] with not_working_jobs.
    rewrite <- isin_normalized.
    destruct (value_isin not_working_jobs (normalize_value v)); simpl.
    + split; [by left|done].
    + split; [by right|]. split; [by intros [=]|done].
  - intros i v Hv Ht. rewrite list_lookup_fmap, (Hrow i v Hv). simpl.
    assert (Hn : normalize_value v = v) by (by destruct v).
    rewrite Hn. destruct (bool_decide (dt job = object)); by destruct v.
Qed.

Lemma indicator_columns_witness :
  ∃ d nc nw,
    derive bank_sample = Ok d ∧
    getitem "no_previous_contact" d = Ok nc ∧
    getitem "not_working" d = Ok nw ∧
    values nc !! 1%nat = Some (VInt 1) ∧ values nc !! 2%nat = Some (VInt 0) ∧
    values nw !! 2%nat = Some (VInt 0) ∧ values nw !! 3%nat = Some (VInt 1) ∧
    (values nw !! 4%nat = Some (VInt 1) ↔ reads_as not_working_jobs (VStr "retired")).
Proof.
  destruct (derive bank_sample) as [d|e] eqn:Hd; [|by vm_compute in Hd].
  destruct (indicator_columns bank_sample d Hd)
    as (pdays & job & nc & nw & Hp & Hj & Hnc & Hnw & _ & _ & H1 & H2 & _ & _ & _
        & _ & _ & H3 & _).
  vm_compute in Hp. injection Hp as <-.
  vm_compute in Hj. injection Hj as <-.
  exists d, nc, nw. split_and!; try done.
  - by apply (H1 1%nat (VInt 999)).
  - by apply (H1 2%nat (VInt 6)).
  - by apply (H2 2%nat (VStr "admin")).
  - by apply (H2 3%nat (VStr "student")).
  - by apply (H3 eq_refl 4%nat (VStr "retired")).
Defined.

(** C2, the claim as worded, fails on a job spelled with a final full stop:
    the field "retired." is none of the three names, yet the derived
    [not_working] holds 1 in that row, since the indicator is computed
    after the normalization has stripped the full stop. *)
Lemma not_working_after_normalization :
  ∃ job nw,
    getitem "job" full_stop_sample = Ok job ∧
    values job !! 0%nat = Some (VStr "retired.") ∧
    ("retired." ∉ not_working_jobs) ∧
    derive full_stop_sample = Ok full_stop_derived ∧
    getitem "not_working" full_stop_derived = Ok nw ∧
    values nw !! 0%nat = Some (VInt 1).
Proof.
  eexists _, _. split; [vm_compute; reflexivity|].
  split; [reflexivity|]. split; [by apply (bool_decide_unpack _)|].
  split; [vm_compute; reflexivity|]. split; [vm_compute; reflexivity|].
  reflexivity.
Qed.

Lemma split_partitions_witness :
  (len sample_train + len sample_validation + len sample_test = 10 ∧
   len sample_train = 7 ∧ len sample_validation = 2 ∧ len sample_test = 1)%nat.
Proof.
  destruct (@split_partitions rotating_generator default_args container_world
              sample_final_world bank_sample sample_train sample_validation sample_test
              sample_input bank_sample_rectangular sample_run)
    as (d & p & Hd & _ & HN & _ & _ & _ & _ & _ & _ & _ & _ & _ & _ & _ & _
        & H1 & H2 & H3 & Hsum & _).
  rewrite Hsum, H1, H2, H3, HN. vm_compute. done.
Defined.

(** C1, the claim as worded, fails where the double product falls short of
    the exact one.  On a 90-row table [0.7 * 90] is the double
    [62.99999999999999], so the run succeeds with 62 rows in train, while
    [floor(0.7 * 90)] in exact arithmetic is 63. *)
Lemma split_not_at_exact_floor :
  @main rotating_generator default_args (container_with (bank_rows 90))
    = (Ok (ninety_train, ninety_validation, ninety_test), ninety_final_world) ∧
  Z.of_nat (len (bank_rows 90)) = 90 ∧
  Z.of_nat (len ninety_train) = 62 ∧
  Z.of_nat (len ninety_train) ≠ 7 * 90 / 10.
Proof. split; [exact ninety_run|]. vm_compute. by split_and!. Qed.

(** C3 (as amended).  The normalization acts on the string cells of the
    object columns and on nothing else.  On a string it first replaces every
    [.] by [_] and then strips a single [_] that ends the value or that
    stands just before a newline ending the value.  For a value that does
    not end in a newline this is: strip a single trailing [_] if one remains
    at the end.  In particular "admin." becomes "admin" and "a.b.c" becomes
    "a_b_c". *)
Theorem normalization_of_strings :
  (∀ df, index (normalize df) = index df ∧
         columns (normalize df) = normalize_series <$> columns df) ∧
  (∀ c, dt c = object →
        normalize_series c = mkSeries (name c) object (normalize_value <$> values c)) ∧
  (∀ c, dt c ≠ object → normalize_series c = c) ∧
  (∀ s, normalize_value (VStr s) = VStr (normalize_string s)) ∧
  (∀ v, (∀ s, v ≠ VStr s) → normalize_value v = v) ∧
  (∀ s, normalize_string s = strip_at_eol (spec_replace_dots s)) ∧
  (∀ s, ends_in_newline s = false → normalize_string s = spec_normalize s) ∧
  (∀ s, normalize_string (s +:+ ".") = spec_replace_dots s) ∧
  normalize_string "admin." = "admin" ∧
  normalize_string "a.b.c" = "a_b_c".
Proof.
  split_and!; try done.
  - intros df. split; [done|]. unfold normalize, replace. simpl.
    by rewrite <- list_fmap_compose.
  - intros c Hc. unfold normalize_series, replace_series. rewrite Hc. simpl.
    by rewrite <- list_fmap_compose.
  - intros c Hc. unfold normalize_series, replace_series.
    destruct c as [n [] vs]; done.
  - intros v Hv. destruct v; try done. by destruct (Hv s).
  - apply normalize_string_eq.
  - intros s Hs. rewrite normalize_string_eq. unfold spec_normalize.
    apply strip_at_eol_no_newline. by rewrite spec_replace_dots_newline.
  - intros s. rewrite normalize_string_eq, spec_replace_dots_app.
    apply strip_at_eol_trailing.
Qed.

Lemma normalization_of_strings_witness :
  ends_in_newline "admin." = false ∧ normalize_string "admin." = spec_normalize "admin.".
Proof.
  split; [reflexivity|].
  apply (proj1 (proj2 (proj2 (proj2 (proj2 (proj2 (proj2 normalization_of_strings))))))).
  reflexivity.
Defined.

(** C3, the claim as worded, fails on a value that ends in a newline: the
    pattern [r'\_$'] also matches just before a final newline, so the
    quoted two-line field "a." followed by a newline becomes "a" followed by
    the newline, while stripping a trailing [_] would leave the [_] that
    replaced the full stop. *)
Lemma normalization_newline_counterexample :
  let raw := String "a" (String "." (String Re.newline EmptyString)) in
  normalize_value (VStr raw) = VStr (String "a" (String Re.newline EmptyString)) ∧
  spec_normalize raw = String "a" (String "_" (String Re.newline EmptyString)) ∧
  normalize_value (VStr raw) ≠ VStr (spec_normalize raw).
Proof. by split_and!. Qed.



(** C5.  The run is deterministic.  Two successful runs on the same input
    table, in worlds that may differ in everything else (the state of
    numpy's global generator, the console, other files), build the same three
    partitions, row labels included, and write the same contents to each of
    the four output files; the global generator is not consulted and is left
    as it was. *)
Theorem deterministic_outputs `{RandomState} args w1 w2 parts1 parts2 w1' w2' :
  tables w1 !! input_of args = tables w2 !! input_of args →
  main args w1 = (Ok parts1, w1') →
  main args w2 = (Ok parts2, w2') →
  parts1 = parts2 ∧
  files w1' !! train_csv args = files w2' !! train_csv args ∧
  files w1' !! validation_csv args = files w2' !! validation_csv args ∧
  files w1' !! test_x_csv args = files w2' !! test_x_csv args ∧
  files w1' !! test_y_csv args = files w2' !! test_y_csv args ∧
  is_Some (files w1' !! train_csv args) ∧
  is_Some (files w1' !! validation_csv args) ∧
  is_Some (files w1' !! test_x_csv args) ∧
  is_Some (files w1' !! test_y_csv args) ∧
  global_rng w1' = global_rng w1 ∧ global_rng w2' = global_rng w2.
Proof.
  intros Hin Hrun1 Hrun2.
  destruct parts1 as [[tr1 va1] te1], parts2 as [[tr2 va2] te2].
  destruct (main_Ok _ _ _ _ _ _ Hrun1)
    as (df1 & d1 & _ & _ & _ & _ & _ & _ & Hin1 & Hd1 & Hs1 & _).
  destruct (main_Ok _ _ _ _ _ _ Hrun2)
    as (df2 & d2 & _ & _ & _ & _ & _ & _ & Hin2 & Hd2 & Hs2 & _).
  rewrite Hin, Hin2 in Hin1. injection Hin1 as <-.
  rewrite Hd1 in Hd2. injection Hd2 as <-.
  rewrite <- Hs1 in Hs2. injection Hs2 as -> -> ->.
  apply run_effects in Hrun1
    as (ytr & xtr & yva & xva & yte & xte & [Hy1 Hx1] & [Hy2 Hx2] & [Hy3 Hx3]
        & Hf1 & Hf2 & Hf3 & Hf4 & _ & _ & _ & Hg1).
  apply run_effects in Hrun2
    as (ytr' & xtr' & yva' & xva' & yte' & xte' & [Hy1' Hx1'] & [Hy2' Hx2'] & [Hy3' Hx3']
        & Hf1' & Hf2' & Hf3' & Hf4' & _ & _ & _ & Hg2).
  rewrite Hy1 in Hy1'. rewrite Hx1 in Hx1'. rewrite Hy2 in Hy2'. rewrite Hx2 in Hx2'.
  rewrite Hy3 in Hy3'. rewrite Hx3 in Hx3'.
  injection Hy1' as <-. injection Hx1' as <-. injection Hy2' as <-.
  injection Hx2' as <-. injection Hy3' as <-. injection Hx3' as <-.
  rewrite Hf1, Hf2, Hf3, Hf4, Hf1', Hf2', Hf3', Hf4'.
  split_and!; done.
Qed.

Lemma deterministic_outputs_witness :
  files sample_final_world !! test_y_csv default_args
    = files reused_final_world !! test_y_csv default_args ∧
  files reused_world !! test_y_csv default_args = Some [[VInt 0]; [VInt 0]] ∧
  files reused_final_world !! test_y_csv default_args = Some [[VInt 1]] ∧
  global_rng sample_final_world ≠ global_rng reused_final_world.
Proof.
  assert (Hin : tables container_world !! input_of default_args
                = tables reused_world !! input_of default_args)
    by (vm_compute; reflexivity).
  destruct (@deterministic_outputs rotating_generator default_args
              container_world reused_world _ _ _ _ Hin sample_run reused_run)
    as (_ & _ & _ & _ & Hy & _).
  split; [exact Hy|].
  split; [vm_compute; reflexivity|].
  split; [vm_compute; reflexivity|].
  vm_compute. discriminate.
Defined.

(** C6 (as amended).  After a successful run, the columns of [test_x.csv]
    put side by side with the columns of [test_y.csv] are, up to order, the
    columns of the test partition except [y_no]: the negative-class
    indicator is in neither file.  The same holds record by record.
    [test_y.csv] holds every column of the partition that is labelled
    [y_yes], and nothing else.  For a table whose labels are distinct, as
    the labels of a table that was read are, that is a single column,
    unless the table has, beside the answers in the object column [y], a
    column of its own labelled [y_yes] that is not of object dtype: then
    [test_y.csv] holds two columns. *)
Theorem test_files_reconstruct `{RandomState} args w tr va te w' :
  main args w = (Ok (tr, va, te), w') →
  ∃ xte yte,
    features_of te = Ok xte ∧ label_of te = Ok yte ∧
    files w' !! test_x_csv args = Some (csv_records false false xte) ∧
    files w' !! test_y_csv args = Some (csv_records false false yte) ∧
    index xte = index te ∧ index yte = index te ∧
    Forall (λ n, n = "y_yes") (names yte) ∧
    columns xte ++ columns yte ≡ₚ filter (λ c, name c ≠ "y_no") (columns te) ∧
    (∀ i, record_at xte i ++ record_at yte i
          ≡ₚ record_at (mkDF (index te) (filter (λ c, name c ≠ "y_no") (columns te))) i) ∧
    ("y_no" ∉ names xte ++ names yte) ∧
    (names yte ≠ []) ∧
    (∀ df0, tables w !! input_of args = Some df0 → NoDup (names df0) →
       (names yte = ["y_yes"] ∨ names yte = ["y_yes"; "y_yes"]) ∧
       (names yte = ["y_yes"; "y_yes"] ↔
          (∃ c, c ∈ columns df0 ∧ dt c ≠ object ∧ name c = "y_yes") ∧
          (∃ c s, c ∈ columns df0 ∧ dt c = object ∧ name c = "y" ∧
                  VStr s ∈ values c ∧ normalize_string s = "yes"))) ∧
    columns yte = filter (λ c, name c = "y_yes") (columns te) ∧
    columns xte = filter (λ c, name c ∉ label_columns) (columns te).
Proof.
  intros Hrun. pose proof Hrun as Hmain.
  apply run_effects in Hrun
    as (ytr & xtr & yva & xva & yte & xte & _ & _ & [Hy Hx] & _ & _ & Hfy & Hfx & _).
  exists xte, yte.
  destruct (features_of_Ok _ _ Hx) as (Hix & Hcx & Hnx).
  destruct (label_of_Ok _ _ Hy) as (Hiy & Hcy & Hny & Hyes).
  assert (Hperm : columns xte ++ columns yte
                  ≡ₚ filter (λ c, name c ≠ "y_no") (columns te)).
  { rewrite Hcx, Hcy. apply features_label_permutation. }
  assert (Hne : names yte ≠ []).
  { rewrite Hny. intros Hnil.
    assert (Hin : "y_yes" ∈ filter (λ n, n = "y_yes") (names te))
      by (by apply list_elem_of_filter).
    rewrite Hnil in Hin. by apply elem_of_nil in Hin. }
  split_and!; try done.
  - rewrite Hny. apply Forall_forall. by intros n [? _]%list_elem_of_filter.
  - intros i. unfold record_at at 1 2. rewrite <- omap_app.
    unfold record_at. simpl. by apply omap_Permutation.
  - rewrite Hnx, Hny, elem_of_app, !list_elem_of_filter.
    intros [[Hn _]|[Hn _]]; [|done]. apply Hn. by apply (bool_decide_unpack _).
  - intros df0 Hin Hnd.
    apply main_Ok in Hmain
      as (df0' & d & _ & _ & _ & _ & _ & _ & Hin' & Hd & Hsplit & _).
    rewrite Hin in Hin'. injection Hin' as <-.
    symmetry in Hsplit. apply np_split_names in Hsplit as (_ & _ & Hte).
    rewrite names_take_frame in Hte.
    assert (Hl : "yes" ∈ ["yes"; "no"]) by (by apply (bool_decide_unpack _)).
    destruct (derive_label_columns df0 d "yes" Hl Hd Hnd)
      as (own & answered & Hcount & Hown & Hans).
    change ("y_" +:+ "yes") with "y_yes" in *.
    rewrite <- Hte, <- Hny in Hcount. rewrite <- Hown, <- Hans.
    destruct own, answered; simpl in Hcount.
    + split; [by right|]. by split.
    + split; [by left|]. rewrite Hcount. split; [done|by intros [_ ?]].
    + split; [by left|]. rewrite Hcount. split; [done|by intros [? _]].
    + done.
Qed.

Lemma test_files_reconstruct_witness :
  ∃ xte yte,
    features_of sample_test = Ok xte ∧ label_of sample_test = Ok yte ∧
    length (columns xte ++ columns yte) = 16%nat ∧
    length (columns sample_test) = 17%nat ∧
    names yte = ["y_yes"].
Proof.
  destruct (@test_files_reconstruct rotating_generator default_args container_world
              sample_train sample_validation sample_test sample_final_world sample_run)
    as (xte & yte & Hx & Hy & _ & _ & _ & _ & _ & Hperm & _ & _ & _ & Hcount & _).
  exists xte, yte. split_and!; try done.
  - rewrite (Permutation_length Hperm). vm_compute. reflexivity.
  - assert (Hnd : NoDup (names bank_sample)) by (by apply (bool_decide_unpack _)).
    destruct (Hcount bank_sample sample_input Hnd) as [[Hone|Htwo] Hiff]; [done|].
    apply Hiff in Htwo as [(c & Hc & _ & Hn) _].
    assert (Hin : "y_yes" ∈ names bank_sample) by (rewrite <- Hn; by apply list_elem_of_fmap_2).
    by apply (bool_decide_pack _) in Hin.
Defined.

(** A table with a numeric [y_yes] column of its own: [test_y.csv] holds
    two columns, that one and the indicator of the answer. *)
Lemma label_file_two_columns :
  ∃ yte,
    @main rotating_generator default_args (container_with labelled_sample)
      = (Ok (labelled_train, labelled_validation, labelled_test), labelled_final_world) ∧
    NoDup (names labelled_sample) ∧
    label_of labelled_test = Ok yte ∧
    names yte = ["y_yes"; "y_yes"] ∧
    files labelled_final_world !! test_y_csv default_args
      = Some (csv_records false false yte) ∧
    Forall (λ record, length record = 2%nat) (csv_records false false yte).
Proof.
  eexists. split; [vm_compute; reflexivity|].
  split; [by apply (bool_decide_unpack _)|].
  split; [vm_compute; reflexivity|].
  split; [reflexivity|]. split; [vm_compute; reflexivity|].
  by apply (bool_decide_unpack _).
Qed.

(** C6, the claim as worded, fails on the sample table: the test partition
    has a [y_no] column, and putting [test_x.csv] and [test_y.csv] side by
    side does not bring it back. *)
Lemma test_files_lose_y_no :
  ∃ xte yte,
    @main rotating_generator default_args container_world
      = (Ok (sample_train, sample_validation, sample_test), sample_final_world) ∧
    features_of sample_test = Ok xte ∧ label_of sample_test = Ok yte ∧
    files sample_final_world !! test_x_csv default_args
      = Some (csv_records false false xte) ∧
    files sample_final_world !! test_y_csv default_args
      = Some (csv_records false false yte) ∧
    ("y_no" ∈ names sample_test) ∧
    ("y_no" ∉ names (concat_columns xte yte)) ∧
    ¬ (columns (concat_columns xte yte) ≡ₚ columns sample_test).
Proof.
  eexists _, _. split; [exact sample_run|].
  split; [vm_compute; reflexivity|]. split; [vm_compute; reflexivity|].
  split; [vm_compute; reflexivity|]. split; [vm_compute; reflexivity|].
  split; [by apply (bool_decide_unpack _)|].
  split; [by apply (bool_decide_unpack _)|].
  intros Hp. apply Permutation_length in Hp. vm_compute in Hp. discriminate.
Qed.

(** C7 (as amended).  The script never reads the categorical-column list.
    If the list names a column that the input table does not have, the run
    ends exactly as it does with any other list, and the only lookup errors
    a run can raise are for the labels the script itself names: [pdays],
    [job], the six pruned columns, [y_yes] and [y_no]. *)
Theorem unknown_categorical_column `{RandomState} args cats w df0 c :
  tables w !! input_of args = Some df0 →
  c ∈ listed_columns cats →
  c ∉ names df0 →
  main (with_categorical cats args) w = main args w ∧
  (∀ l w', main (with_categorical cats args) w = (Err (KeyError l), w') → l ∈ looked_up).
Proof.
  intros _ _ _. split; [done|].
  intros l w' Hrun.
  apply main_Err in Hrun
    as [[? _]|[(l' & df & [= ->] & _ & _ & Hl)|[[? _]|(path & ? & _)]]]; try done.
  unfold looked_up. rewrite app_assoc, elem_of_app.
  destruct Hl as [[_ Hl]|(d & _ & Hl & _)]; auto.
Qed.

Lemma unknown_categorical_column_witness :
  categorical_features stray_args ≠ categorical_features default_args ∧
  @main rotating_generator stray_args container_world
  = @main rotating_generator default_args container_world.
Proof.
  split; [done|].
  apply (@unknown_categorical_column rotating_generator default_args
           "y, job, no_such_column" container_world bank_sample "no_such_column").
  - exact sample_input.
  - by apply (bool_decide_unpack _).
  - by apply (bool_decide_unpack _).
Defined.

(** C7, the claim as worded, fails: with a list that names the column
    [no_such_column], which the sample table does not have, the run succeeds
    and returns what it returns for the default list. *)
Lemma unknown_categorical_column_runs :
  ("no_such_column" ∈ listed_columns (categorical_features stray_args)) ∧
  ("no_such_column" ∉ names bank_sample) ∧
  tables container_world !! input_of stray_args = Some bank_sample ∧
  @main rotating_generator stray_args container_world
  = (Ok (sample_train, sample_validation, sample_test), sample_final_world).
Proof.
  split; [by apply (bool_decide_unpack _)|].
  split; [by apply (bool_decide_unpack _)|].
  split; [exact sample_input|exact sample_run].
Qed.

(** C9.  The four output files do not depend on the categorical-column
    list: two runs whose arguments agree on the input directory, the file
    name and the output directory end alike, whatever the two lists, and in
    particular leave the same contents in every file.  The encoding takes no
    list: it expands every column of object dtype and leaves none. *)
Theorem outputs_ignore_categorical `{RandomState} args1 args2 w :
  filepath args1 = filepath args2 →
  filename args1 = filename args2 →
  outputpath args1 = outputpath args2 →
  main args1 w = main args2 w ∧
  (∀ path, files (main args1 w).2 !! path = files (main args2 w).2 !! path) ∧
  train_csv args1 = train_csv args2 ∧
  validation_csv args1 = validation_csv args2 ∧
  test_x_csv args1 = test_x_csv args2 ∧
  test_y_csv args1 = test_y_csv args2 ∧
  (∀ df c, c ∈ columns df → dt c = object →
           ∀ level, level ∈ categories (values c) →
                    dummy_column c level ∈ columns (get_dummies df)) ∧
  (∀ df c, c ∈ columns (get_dummies df) → dt c ≠ object).
Proof.
  intros Hp Hn Ho.
  assert (Hmain : main args1 w = main args2 w).
  { destruct args1, args2. simpl in *. by subst. }
  unfold train_csv, validation_csv, test_x_csv, test_y_csv.
  rewrite Hmain, Ho. split_and!; try done.
  - intros df c Hc Hdt level Hlevel. unfold get_dummies. simpl.
    apply elem_of_app. right. apply list_elem_of_bind. exists c.
    split; [by apply list_elem_of_fmap_2|by apply list_elem_of_filter].
  - intros df c. unfold get_dummies. simpl.
    intros [[Hd _]%list_elem_of_filter|Hc]%elem_of_app; [done|].
    apply list_elem_of_bind in Hc as (c0 & Hc & _).
    apply list_elem_of_fmap in Hc as (level & -> & _). done.
Qed.

Lemma outputs_ignore_categorical_witness :
  categorical_features stray_args ≠ categorical_features default_args ∧
  files (@main rotating_generator stray_args container_world).2
    !! train_csv stray_args
  = files (@main rotating_generator default_args container_world).2
    !! train_csv default_args.
Proof.
  split; [done|].
  destruct (@outputs_ignore_categorical rotating_generator stray_args default_args
              container_world eq_refl eq_refl eq_refl) as (_ & Hfiles & ->  & _).
  apply Hfiles.
Defined.

(** C8 (as amended).  A successful run changes the world in two ways only:
    it writes the four output files and prints one line.  It creates no
    directory; the directory of each output file has to exist beforehand.
    When the directory for [train.csv] is missing the run does not succeed
    and leaves the world as it found it; with a table that is in order it
    stops with an OS error at the first write. *)
Theorem side_effects_and_directories `{RandomState} args w :
  (∀ tr va te w',
     main args w = (Ok (tr, va, te), w') →
     dirs w' = dirs w ∧
     writable (train_csv args) w ∧ writable (validation_csv args) w ∧
     writable (test_y_csv args) w ∧ writable (test_x_csv args) w ∧
     is_Some (files w' !! train_csv args) ∧
     is_Some (files w' !! validation_csv args) ∧
     is_Some (files w' !! test_y_csv args) ∧
     is_Some (files w' !! test_x_csv args) ∧
     (∀ path,
        path ∉ [train_csv args; validation_csv args; test_y_csv args; test_x_csv args] →
        files w' !! path = files w !! path ∧ tables w' !! path = tables w !! path) ∧
     stdout w' = stdout w ++ ["## Processing complete. Exiting."] ∧
     global_rng w' = global_rng w) ∧
  (¬ writable (train_csv args) w →
   ∀ r w', main args w = (r, w') → (∃ e, r = Err e) ∧ w' = w) ∧
  (¬ writable (train_csv args) w →
   ∀ df0 d, tables w !! input_of args = Some df0 → derive df0 = Ok d →
            label_columns ⊆ names d →
            main args w = (Err (OSError (train_csv args)), w)).
Proof.
  split_and!.
  - intros tr va te w' Hrun.
    destruct (main_Ok _ _ _ _ _ _ Hrun)
      as (_ & _ & _ & _ & _ & _ & _ & _ & _ & _ & _ & _ & _ & _ & _ & _ & _
          & Hw1 & Hw2 & Hw3 & Hw4 & _).
    apply run_effects in Hrun
      as (ytr & xtr & yva & xva & yte & xte & _ & _ & _ & Hf1 & Hf2 & Hf3 & Hf4
          & Hother & Hdirs & Hout & Hrng).
    rewrite Hf1, Hf2, Hf3, Hf4. split_and!; done.
  - intros Hw [[[tr va] te]|e] w' Hrun.
    + apply main_Ok in Hrun
        as (_ & _ & _ & _ & _ & _ & _ & _ & _ & _ & _ & _ & _ & _ & _ & _ & _ & Hw' & _).
      done.
    + split; [by exists e|].
      apply main_Err in Hrun
        as [(_ & _ & ->)|[(l & df & _ & -> & _)|[(_ & _ & ->)|(p & _ & _ & _ & Hw')]]];
        done.
  - intros Hw df0 d Hin Hd Hlab. by eapply main_train_directory_missing.
Qed.

Lemma side_effects_and_directories_witness :
  (¬ writable (train_csv default_args) bare_world) ∧
  @main rotating_generator default_args bare_world
  = (Err (OSError (train_csv default_args)), bare_world) ∧
  dirs sample_final_world = dirs container_world ∧
  stdout sample_final_world = ["## Processing complete. Exiting."].
Proof.
  assert (Hw : ¬ writable (train_csv default_args) bare_world).
  { unfold writable. intros [Hd|Hd]; [by vm_compute in Hd|].
    revert Hd. by apply (bool_decide_unpack _). }
  destruct (@side_effects_and_directories rotating_generator default_args bare_world)
    as (_ & _ & Hfail).
  destruct (@side_effects_and_directories rotating_generator default_args container_world)
    as (Hok & _).
  destruct (Hok _ _ _ _ sample_run) as (Hdirs & _ & _ & _ & _ & _ & _ & _ & _ & _ & Hout & _).
  split; [exact Hw|]. split; [|split; [exact Hdirs|exact Hout]].
  eapply (Hfail Hw bank_sample).
  - vm_compute. reflexivity.
  - vm_compute. reflexivity.
  - intros l Hl. revert Hl. unfold label_columns. rewrite !elem_of_cons, elem_of_nil.
    intros [->|[->|[]]]; by apply (bool_decide_unpack _).
Defined.

(** C8, the claim as worded, fails: in a world whose output directory
    exists and is empty, the run on the sample table stops with an OS error
    at [train/train.csv]; it has created no directory and written no file. *)
Lemma empty_output_directory_fails :
  ("/opt/ml/processing/output" ∈ dirs bare_world) ∧
  files bare_world = ∅ ∧
  tables bare_world !! input_of default_args = Some bank_sample ∧
  @main rotating_generator default_args bare_world
  = (Err (OSError "/opt/ml/processing/output/train/train.csv"), bare_world).
Proof.
  split; [by apply (bool_decide_unpack _)|]. split; [done|].
  split; vm_compute; reflexivity.
Qed.

(** C10.  The normalization rewrites cells only: every column keeps its
    name, dtype and row count, and the row labels stay.  So the columns
    [emp.var.rate], [cons.price.idx], [cons.conf.idx], [euribor3m] (and
    [duration], [nr.employed]) are still found under their original names
    when they are dropped: if the loaded table has the six columns, the drop
    succeeds once the indicators are in place.  Had the names been
    normalized like the cells, the dotted ones would read differently. *)
Theorem normalization_keeps_column_names :
  (∀ df, names (normalize df) = names df ∧
         index (normalize df) = index df ∧
         (dt <$> columns (normalize df)) = (dt <$> columns df) ∧
         (rectangular df → rectangular (normalize df))) ∧
  (∀ df0 df1,
     pruned ⊆ names df0 →
     add_indicators (normalize df0) = Ok df1 →
     ∃ df2, prune df1 = Ok df2 ∧
            names df2 = filter (λ n, n ∉ pruned) (names df1)) ∧
  (∀ df0 d, derive df0 = Ok d → pruned ⊆ names df0) ∧
  Forall (λ n, (n ∈ pruned) ∧ normalize_string n ≠ n)
         ["emp.var.rate"; "cons.price.idx"; "cons.conf.idx"; "nr.employed"].
Proof.
  split_and!.
  - intros df. split_and!.
    + apply normalize_names.
    + done.
    + unfold normalize, replace. simpl. rewrite <- !list_fmap_compose.
      apply list_fmap_ext. intros _ c _. simpl. unfold replace_series.
      destruct c as [n [] vs]; done.
    + apply normalize_rectangular.
  - intros df0 df1 Hsub H1.
    assert (Hsub1 : pruned ⊆ names df1).
    { etrans; [exact Hsub|]. rewrite <- (normalize_names df0).
      by apply add_indicators_names. }
    unfold prune. rewrite drop_columns_total by done.
    eexists. split; [done|]. unfold names. simpl.
    exact (names_filter (λ n, n ∉ pruned) (columns df1)).
  - apply derive_pruned_present.
  - repeat constructor; by apply (bool_decide_unpack _).
Qed.

Lemma normalization_keeps_column_names_witness :
  (pruned ⊆ names bank_sample) ∧
  ∃ df1 df2, add_indicators (normalize bank_sample) = Ok df1 ∧ prune df1 = Ok df2.
Proof.
  assert (Hsub : pruned ⊆ names bank_sample).
  { intros n. unfold pruned. rewrite !elem_of_cons, elem_of_nil.
    intros [->|[->|[->|[->|[->|[->|[]]]]]]]; by apply (bool_decide_unpack _). }
  split; [exact Hsub|].
  destruct (add_indicators (normalize bank_sample)) as [df1|e] eqn:H1;
    [|by vm_compute in H1].
  destruct normalization_keeps_column_names as (_ & Hdrop & _).
  destruct (Hdrop bank_sample df1 Hsub H1) as (df2 & H2 & _).
  by exists df1, df2.
Defined.

(** * Further properties of the script *)

(** ** The run, step by step *)

(** The script after the split, on the three partitions. *)
Lemma store_labelled_unfold `{RandomState} part path w :
  store_labelled part path w =
    match label_of part with
    | Err e => (Err e, w)
    | Ok y =>
        match features_of part with
        | Err e => (Err e, w)
        | Ok x => to_csv path false false (concat_columns y x) w
        end
    end.
Proof.
  unfold store_labelled, mbind, M_bind, bind, lift.
  destruct (label_of part); [|done]. by destruct (features_of part).
Qed.

(** A partition that has both label columns is written if its directory
    exists, and only then. *)
Lemma store_labelled_eq `{RandomState} part path w :
  label_columns ⊆ names part →
  store_labelled part path w =
    if bool_decide (writable path w) then
      (Ok (),
       write_file path
         (csv_records false false
            (concat_columns
               (mkDF (index part) (filter (λ c, name c = "y_yes") (columns part)))
               (mkDF (index part) (filter (λ c, name c ∉ label_columns) (columns part)))))
         w)
    else (Err (OSError path), w).
Proof.
  intros Hlab. rewrite store_labelled_unfold.
  unfold label_of, select. rewrite bool_decide_eq_true_2.
  2:{ apply Hlab. by apply (bool_decide_unpack _). }
  unfold features_of. change ["y_yes"; "y_no"] with label_columns.
  rewrite drop_columns_total by done. done.
Qed.

(** The run up to the split: reading, deriving, shuffling and cutting
    neither fail on their own account nor touch the world. *)
Lemma main_unfold `{RandomState} args w :
  main args w =
    match tables w !! input_of args with
    | None => (Err (FileNotFoundError (input_of args)), w)
    | Some df0 =>
        match derive df0 with
        | Err e => (Err e, w)
        | Ok d =>
            let '(tr, va, te) :=
              np_split (take_frame (permutation (seeded 42) (len d)).1 d)
                       (Z.to_nat (cut_0_7 (Z.of_nat (len d))))
                       (Z.to_nat (cut_0_9 (Z.of_nat (len d)))) in
            (store_labelled tr (train_csv args);;
             store_labelled va (validation_csv args);;
             y ← lift (label_of te);
             to_csv (test_y_csv args) false false y;;
             x ← lift (features_of te);
             to_csv (test_x_csv args) false false x;;
             print "## Processing complete. Exiting.";;
             mret (tr, va, te)) w
        end
    end.
Proof.
  unfold main, derive, input_of.
  unfold mbind at 1, M_bind at 1, bind at 1, read_csv.
  destruct (tables w !! _) as [df0|]; [|done].
  unfold mbind at 1, M_bind at 1, bind at 1, lift at 1.
  destruct (add_indicators (normalize df0)) as [df1|]; [|done].
  unfold mbind at 1, M_bind at 1, bind at 1, lift at 1.
  destruct (prune df1) as [df2|]; [|done].
  unfold mbind at 1, M_bind at 1, bind at 1.
  rewrite shuffle_split_total. done.
Qed.

(** ** When the derivation succeeds *)

Lemma getitem_present label df :
  label ∈ names df → ∃ c, getitem label df = Ok c.
Proof.
  intros (c & Hn & Hc)%list_elem_of_fmap. unfold getitem.
  destruct (list_find_elem_of (λ c, name c = label) (columns df) c Hc (eq_sym Hn))
    as [[i c'] Hf].
  rewrite Hf. by exists c'.
Qed.

Lemma getitem_absent label df :
  label ∉ names df → getitem label df = Err (KeyError label).
Proof.
  intros Hn. unfold getitem.
  destruct (list_find _ _) as [[i c]|] eqn:Hf; [|done].
  apply list_find_Some in Hf as (Hi & Hc & _). destruct Hn.
  rewrite <- Hc. apply list_elem_of_fmap_2. by eapply list_elem_of_lookup_2.
Qed.

(** The indicator step adds the two indicator names and no other. *)
Lemma add_indicators_names_eq df df' n :
  add_indicators df = Ok df' →
  n ∈ names df' ↔ n ∈ names df ∨ n = "no_previous_contact" ∨ n = "not_working".
Proof.
  intros (pdays & job & dfa & _ & -> & _ & ->)%add_indicators_Ok.
  rewrite !setitem_names.
  repeat case_bool_decide; rewrite ?elem_of_app, ?list_elem_of_singleton in *;
    intuition (subst; auto).
Qed.

(** The first lookups of the derivation. *)
Lemma derive_no_pdays df0 :
  "pdays" ∉ names df0 → derive df0 = Err (KeyError "pdays").
Proof.
  intros Hn. unfold derive, add_indicators.
  rewrite getitem_absent; [done|]. by rewrite normalize_names.
Qed.

Lemma derive_no_job df0 :
  "pdays" ∈ names df0 → "job" ∉ names df0 → derive df0 = Err (KeyError "job").
Proof.
  intros Hin Hn. unfold derive, add_indicators.
  destruct (getitem_present "pdays" (normalize df0)) as [c ->];
    [by rewrite normalize_names|].
  rewrite getitem_setitem_ne by done.
  rewrite getitem_absent; [done|]. by rewrite normalize_names.
Qed.

Lemma add_indicators_present df0 :
  "pdays" ∈ names df0 → "job" ∈ names df0 →
  ∃ df1, add_indicators (normalize df0) = Ok df1.
Proof.
  intros Hin1 Hin2. unfold add_indicators.
  destruct (getitem_present "pdays" (normalize df0)) as [c ->];
    [by rewrite normalize_names|].
  rewrite getitem_setitem_ne by done.
  destruct (getitem_present "job" (normalize df0)) as [c' ->];
    [by rewrite normalize_names|]. by eexists.
Qed.

(** The derivation goes through exactly on the tables that have the eight
    columns it looks up. *)
Lemma derive_Ok_iff df0 :
  (∃ d, derive df0 = Ok d) ↔
  "pdays" ∈ names df0 ∧ "job" ∈ names df0 ∧ pruned ⊆ names df0.
Proof.
  split.
  - intros [d Hok]. pose proof (derive_pruned_present _ _ Hok) as Hsub.
    split_and!; [| |done].
    + destruct (decide ("pdays" ∈ names df0)) as [|Hn]; [done|].
      rewrite (derive_no_pdays _ Hn) in Hok. done.
    + destruct (decide ("pdays" ∈ names df0)) as [Hin|Hn].
      * destruct (decide ("job" ∈ names df0)) as [|Hn]; [done|].
        rewrite (derive_no_job _ Hin Hn) in Hok. done.
      * rewrite (derive_no_pdays _ Hn) in Hok. done.
  - intros (Hin1 & Hin2 & Hsub).
    destruct (add_indicators_present _ Hin1 Hin2) as [df1 H1].
    unfold derive. rewrite H1. cbv beta iota. unfold prune.
    rewrite drop_columns_total; [by eexists|].
    etrans; [exact Hsub|]. rewrite <- (normalize_names df0).
    by apply add_indicators_names.
Qed.

(** X1.  The derivation (normalization, indicators, pruning, encoding)
    succeeds exactly on the tables that have the eight columns the script
    names: [pdays], [job] and the six pruned ones.  Otherwise it raises a
    [KeyError]: for [pdays] if that is missing, else for [job] if that is
    missing, else for a pruned column that is missing. *)
Theorem derive_succeeds_iff df0 :
  ((∃ d, derive df0 = Ok d) ↔
   "pdays" ∈ names df0 ∧ "job" ∈ names df0 ∧ pruned ⊆ names df0) ∧
  ("pdays" ∉ names df0 → derive df0 = Err (KeyError "pdays")) ∧
  ("pdays" ∈ names df0 → "job" ∉ names df0 → derive df0 = Err (KeyError "job")) ∧
  ("pdays" ∈ names df0 → "job" ∈ names df0 → ¬ (pruned ⊆ names df0) →
   ∃ l, (l ∈ pruned) ∧ (l ∉ names df0) ∧ derive df0 = Err (KeyError l)).
Proof.
  split_and!.
  - apply derive_Ok_iff.
  - apply derive_no_pdays.
  - apply derive_no_job.
  - intros Hin1 Hin2 Hsub.
    destruct (add_indicators_present _ Hin1 Hin2) as [df1 H1].
    destruct (prune df1) as [df2|e] eqn:H2.
    { destruct Hsub. eapply (derive_pruned_present df0 (get_dummies df2)).
      unfold derive. by rewrite H1, H2. }
    pose proof H2 as H2'. apply drop_columns_Err in H2' as (l & -> & Hl & Hn).
    exists l. split_and!; try done; [|unfold derive; by rewrite H1, H2].
    intros Hin. apply Hn. apply (add_indicators_names_eq _ _ l H1).
    left. by rewrite normalize_names.
Qed.

Lemma derive_succeeds_iff_witness :
  ("pdays" ∈ names bank_sample) ∧ ("job" ∈ names bank_sample) ∧
  (pruned ⊆ names bank_sample) ∧ ∃ d, derive bank_sample = Ok d.
Proof.
  assert (H1 : "pdays" ∈ names bank_sample) by (by apply (bool_decide_unpack _)).
  assert (H2 : "job" ∈ names bank_sample) by (by apply (bool_decide_unpack _)).
  assert (H3 : pruned ⊆ names bank_sample).
  { intros n. unfold pruned. rewrite !elem_of_cons, elem_of_nil.
    intros [->|[->|[->|[->|[->|[->|[]]]]]]]; by apply (bool_decide_unpack _). }
  split_and!; try done.
  by apply (proj2 (proj1 (derive_succeeds_iff bank_sample))).
Defined.

(** ** Where the output files go *)

Lemma append_nil_inv (a b : string) : a +:+ b = "" → b = "".
Proof. destruct a; [done|]. intros [=]. Qed.

Lemma head_of_app x s : head_of s ≠ "" → head_of (x +:+ s) = x +:+ head_of s.
Proof.
  intros Hs. induction x as [|a x IH]; [done|].
  change (String a x +:+ s) with (String a (x +:+ s)).
  change (String a x +:+ head_of s) with (String a (x +:+ head_of s)).
  cbn [head_of]. rewrite IH.
  destruct (x +:+ head_of s) eqn:He; [|done].
  by apply append_nil_inv in He.
Qed.

Lemma rstrip_slash_app x s :
  rstrip_slash s ≠ "" → rstrip_slash (x +:+ s) = x +:+ rstrip_slash s.
Proof.
  intros Hs. induction x as [|a x IH]; [done|].
  change (String a x +:+ s) with (String a (x +:+ s)).
  change (String a x +:+ rstrip_slash s) with (String a (x +:+ rstrip_slash s)).
  cbn [rstrip_slash]. rewrite IH.
  destruct (x +:+ rstrip_slash s) eqn:He; [|done].
  by apply append_nil_inv in He.
Qed.

Lemma rev_app_slash out acc :
  String.prefix "/" (String.rev_app (out +:+ "/") acc) = true.
Proof.
  revert acc. induction out as [|a out IH]; intros acc; [by destruct acc|].
  change (String a out +:+ "/") with (String a (out +:+ "/")).
  cbn [String.rev_app]. apply IH.
Qed.

(** The directory of [x/f], for a file name [f] without a slash and a
    directory path [x] that does not end in one. *)
Lemma dirname_file x c f :
  c ≠ "/"%char → head_of f = "" →
  dirname (x +:+ String c (String "/" f)) = x +:+ String c "".
Proof.
  intros Hc Hf. unfold dirname.
  assert (Hh : head_of (String c (String "/" f)) = String c "/").
  { cbn [head_of]. rewrite Hf. done. }
  assert (Hr : rstrip_slash (String c "/") = String c "").
  { cbn [rstrip_slash]. simpl. by rewrite (proj2 (Ascii.eqb_neq c "/") Hc). }
  rewrite head_of_app by (by rewrite Hh).
  rewrite Hh, rstrip_slash_app by (by rewrite Hr).
  rewrite Hr. destruct (x +:+ String c "") eqn:He; [|done].
  by apply append_nil_inv in He.
Qed.

(** The directory of each output file, and when the file can be written. *)
Lemma output_dirnames `{RandomState} args w :
  dirname (train_csv args) = path_join (outputpath args) "train" ∧
  dirname (validation_csv args) = path_join (outputpath args) "validation" ∧
  dirname (test_y_csv args) = path_join (outputpath args) "test" ∧
  dirname (test_x_csv args) = path_join (outputpath args) "test" ∧
  (writable (train_csv args) w ↔ path_join (outputpath args) "train" ∈ dirs w) ∧
  (writable (validation_csv args) w ↔ path_join (outputpath args) "validation" ∈ dirs w) ∧
  (writable (test_y_csv args) w ↔ path_join (outputpath args) "test" ∈ dirs w) ∧
  (writable (test_x_csv args) w ↔ path_join (outputpath args) "test" ∈ dirs w).
Proof.
  unfold train_csv, validation_csv, test_y_csv, test_x_csv.
  rewrite !path_join_relative by done.
  set (pre := if bool_decide (outputpath args = "")
                  || String.prefix "/" (String.rev (outputpath args))
              then outputpath args else outputpath args +:+ "/").
  assert (H1 : dirname (pre +:+ "train/train.csv") = pre +:+ "train").
  { change "train/train.csv" with ("trai" +:+ String "n" (String "/" "train.csv")).
    rewrite append_assoc, dirname_file by done. by rewrite <- append_assoc. }
  assert (H2 : dirname (pre +:+ "validation/validation.csv") = pre +:+ "validation").
  { change "validation/validation.csv"
      with ("validatio" +:+ String "n" (String "/" "validation.csv")).
    rewrite append_assoc, dirname_file by done. by rewrite <- append_assoc. }
  assert (H3 : ∀ f, head_of f = "" → dirname (pre +:+ "test/" +:+ f) = pre +:+ "test").
  { intros f Hf. change ("test/" +:+ f) with ("tes" +:+ String "t" (String "/" f)).
    rewrite append_assoc, dirname_file by done. by rewrite <- append_assoc. }
  assert (Hne : ∀ s c, pre +:+ String c s ≠ "").
  { intros s c He. by apply append_nil_inv in He. }
  unfold writable. rewrite H1, H2.
  change "test/test_y.csv" with ("test/" +:+ "test_y.csv").
  change "test/test_x.csv" with ("test/" +:+ "test_x.csv").
  rewrite (H3 "test_y.csv"), (H3 "test_x.csv") by done.
  split_and!; try done.
  all: split; [intros [He|]; [by apply Hne in He|done]|by right].
Qed.

(** X2.  Every output file goes to a directory directly under the output
    path: [train.csv] to [train], [validation.csv] to [validation],
    [test_x.csv] and [test_y.csv] both to [test], joined to the output path
    as [os.path.join] does.  A file can therefore be written exactly when
    that directory is among the existing ones, and an output path given
    with or without its final slash leads to the same four files. *)
Theorem output_directories `{RandomState} args w :
  dirname (train_csv args) = path_join (outputpath args) "train" ∧
  dirname (validation_csv args) = path_join (outputpath args) "validation" ∧
  dirname (test_y_csv args) = path_join (outputpath args) "test" ∧
  dirname (test_x_csv args) = path_join (outputpath args) "test" ∧
  (writable (train_csv args) w ↔ path_join (outputpath args) "train" ∈ dirs w) ∧
  (writable (validation_csv args) w ↔ path_join (outputpath args) "validation" ∈ dirs w) ∧
  (writable (test_y_csv args) w ↔ path_join (outputpath args) "test" ∈ dirs w) ∧
  (writable (test_x_csv args) w ↔ path_join (outputpath args) "test" ∈ dirs w) ∧
  (∀ out, out ≠ "" → String.prefix "/" (String.rev out) = false →
     ∀ args', outputpath args = out → outputpath args' = out +:+ "/" →
       train_csv args' = train_csv args ∧ validation_csv args' = validation_csv args ∧
       test_y_csv args' = test_y_csv args ∧ test_x_csv args' = test_x_csv args).
Proof.
  destruct (output_dirnames args w) as (H1 & H2 & H3 & H4 & H5 & H6 & H7 & H8).
  split_and!; try done.
  intros out Hout Hslash args' Ho Ho'.
  unfold train_csv, validation_csv, test_y_csv, test_x_csv.
  rewrite !path_join_relative by done. rewrite Ho, Ho'.
  rewrite (bool_decide_eq_false_2 (out = "")) by done. rewrite Hslash. simpl.
  unfold String.rev. by rewrite rev_app_slash, orb_true_r.
Qed.

Lemma output_directories_witness :
  train_csv (mkArgs "/in" "f.csv" "/opt/ml/processing/output/" "y")
  = train_csv (mkArgs "/in" "f.csv" "/opt/ml/processing/output" "y") ∧
  dirname (train_csv default_args) = "/opt/ml/processing/output/train".
Proof.
  destruct (@output_directories rotating_generator
              (mkArgs "/in" "f.csv" "/opt/ml/processing/output" "y") container_world)
    as (_ & _ & _ & _ & _ & _ & _ & _ & Hslash).
  destruct (@output_directories rotating_generator default_args container_world)
    as (Hd & _).
  split; [|by rewrite Hd].
  by apply (Hslash "/opt/ml/processing/output").
Defined.

(** ** Success and failure of a run *)

Lemma label_columns_names d : "y_yes" ∈ names d → "y_no" ∈ names d → label_columns ⊆ names d.
Proof.
  intros H1 H2 l. unfold label_columns. rewrite !elem_of_cons, elem_of_nil.
  by intros [->|[->|[]]].
Qed.

(** What the three partitions are, and that they carry the derived frame's
    column names. *)
Lemma partitions_names `{RandomState} d tr va te :
  np_split (take_frame (permutation (seeded 42) (len d)).1 d)
           (Z.to_nat (cut_0_7 (Z.of_nat (len d))))
           (Z.to_nat (cut_0_9 (Z.of_nat (len d)))) = (tr, va, te) →
  names tr = names d ∧ names va = names d ∧ names te = names d.
Proof.
  intros (H1 & H2 & H3)%np_split_names. by rewrite names_take_frame in H1, H2, H3.
Qed.

Lemma to_csv_eq `{RandomState} path i h df w :
  to_csv path i h df w =
    if bool_decide (writable path w) then (Ok (), write_file path (csv_records i h df) w)
    else (Err (OSError path), w).
Proof. done. Qed.

Lemma writable_after_write `{RandomState} path path' recs w :
  writable path (write_file path' recs w) ↔ writable path w.
Proof. done. Qed.

(** The label and the features of a partition that has both label columns. *)
Lemma label_of_present part :
  "y_yes" ∈ names part →
  label_of part = Ok (mkDF (index part) (filter (λ c, name c = "y_yes") (columns part))).
Proof. intros Hin. unfold label_of, select. by rewrite bool_decide_eq_true_2. Qed.

Lemma label_of_absent part :
  "y_yes" ∉ names part → label_of part = Err (KeyError "y_yes").
Proof. intros Hin. unfold label_of, select. by rewrite bool_decide_eq_false_2. Qed.

Lemma features_of_present part :
  label_columns ⊆ names part →
  features_of part
  = Ok (mkDF (index part) (filter (λ c, name c ∉ label_columns) (columns part))).
Proof.
  intros Hlab. unfold features_of. change ["y_yes"; "y_no"] with label_columns.
  by rewrite drop_columns_total.
Qed.

(** The tail of the script on the test partition. *)
Lemma test_files_eq `{RandomState} args (parts : DataFrame * DataFrame * DataFrame) te w :
  label_columns ⊆ names te →
  (y ← lift (label_of te);
   to_csv (test_y_csv args) false false y;;
   x ← lift (features_of te);
   to_csv (test_x_csv args) false false x;;
   print "## Processing complete. Exiting.";;
   mret parts) w
  = if bool_decide (writable (test_y_csv args) w) then
      (Ok parts,
       print_line "## Processing complete. Exiting."
         (write_file (test_x_csv args)
            (csv_records false false
               (mkDF (index te) (filter (λ c, name c ∉ label_columns) (columns te))))
         (write_file (test_y_csv args)
            (csv_records false false
               (mkDF (index te) (filter (λ c, name c = "y_yes") (columns te)))) w)))
    else (Err (OSError (test_y_csv args)), w).
Proof.
  intros Hlab.
  assert (Hy : "y_yes" ∈ names te) by (apply Hlab; by apply (bool_decide_unpack _)).
  assert (Hx : writable (test_x_csv args)
            (write_file (test_y_csv args)
               (csv_records false false
                  (mkDF (index te) (filter (λ c, name c = "y_yes") (columns te)))) w)
          ↔ writable (test_y_csv args) w).
  { rewrite writable_after_write. unfold writable.
    by destruct (output_dirnames args w) as (_ & _ & -> & -> & _). }
  unfold mbind, M_bind, bind, lift.
  rewrite (label_of_present _ Hy), (features_of_present _ Hlab), !to_csv_eq.
  case_bool_decide as Hw; [|done].
  cbv beta iota. rewrite to_csv_eq, bool_decide_eq_true_2 by by apply Hx.
  done.
Qed.

(** The whole script on an input whose derived frame has both label
    columns: what it returns and the world it leaves depend only on which of
    the three output directories exist, tried in the order train,
    validation, test. *)
Lemma main_eq `{RandomState} args w df0 d :
  tables w !! input_of args = Some df0 →
  derive df0 = Ok d →
  label_columns ⊆ names d →
  main args w =
    let '(tr, va, te) := partitions d in
    if bool_decide (path_join (outputpath args) "train" ∈ dirs w) then
      if bool_decide (path_join (outputpath args) "validation" ∈ dirs w) then
        if bool_decide (path_join (outputpath args) "test" ∈ dirs w) then
          (Ok (tr, va, te),
           print_line "## Processing complete. Exiting."
             (write_file (test_x_csv args) (feature_records te)
             (write_file (test_y_csv args) (label_records te)
             (write_file (validation_csv args) (labelled_records va)
             (write_file (train_csv args) (labelled_records tr) w)))))
        else (Err (OSError (test_y_csv args)),
              write_file (validation_csv args) (labelled_records va)
                (write_file (train_csv args) (labelled_records tr) w))
      else (Err (OSError (validation_csv args)),
            write_file (train_csv args) (labelled_records tr) w)
    else (Err (OSError (train_csv args)), w).
Proof.
  intros Hin Hd Hlab. rewrite main_unfold, Hin, Hd. unfold partitions.
  destruct (np_split _ _ _) as [[tr va] te] eqn:Hsplit.
  apply partitions_names in Hsplit as (Hn1 & Hn2 & Hn3).
  destruct (output_dirnames args w) as (_ & _ & _ & _ & W1 & W2 & W3 & _).
  unfold mbind at 1, M_bind at 1, bind at 1.
  rewrite store_labelled_eq by by rewrite Hn1.
  case_bool_decide as H1; rewrite W1 in H1;
    [rewrite bool_decide_eq_true_2 by done|by rewrite bool_decide_eq_false_2 by done].
  cbv beta iota.
  unfold mbind at 1, M_bind at 1, bind at 1.
  rewrite store_labelled_eq by by rewrite Hn2.
  case_bool_decide as H2; rewrite writable_after_write, W2 in H2;
    [rewrite bool_decide_eq_true_2 by done|by rewrite bool_decide_eq_false_2 by done].
  cbv beta iota.
  rewrite test_files_eq by by rewrite Hn3.
  case_bool_decide as H3; rewrite !writable_after_write, W3 in H3;
    [by rewrite bool_decide_eq_true_2 by done|by rewrite bool_decide_eq_false_2 by done].
Qed.

(** When a run succeeds, in terms of the derived frame. *)
Lemma run_Ok_iff `{RandomState} args w :
  (∃ parts w', main args w = (Ok parts, w')) ↔
  (∃ df0 d, tables w !! input_of args = Some df0 ∧ derive df0 = Ok d ∧
            "y_yes" ∈ names d ∧ "y_no" ∈ names d) ∧
  path_join (outputpath args) "train" ∈ dirs w ∧
  path_join (outputpath args) "validation" ∈ dirs w ∧
  path_join (outputpath args) "test" ∈ dirs w.
Proof.
  split.
  - intros ([[tr va] te] & w' & Hrun).
    apply main_Ok in Hrun
      as (df0 & d & ytr & xtr & _ & _ & _ & _ & Hin & Hd & Hsplit & Hy & Hx & _ & _ & _ & _
          & W1 & W2 & W3 & _).
    symmetry in Hsplit. apply partitions_names in Hsplit as (Hn & _ & _).
    destruct (output_dirnames args w) as (_ & _ & _ & _ & V1 & V2 & V3 & _).
    rewrite V1 in W1. rewrite V2 in W2. rewrite V3 in W3.
    split_and!; try done. exists df0, d. split_and!; try done.
    + rewrite <- Hn. destruct (decide ("y_yes" ∈ names tr)) as [|Hno]; [done|].
      by rewrite (label_of_absent _ Hno) in Hy.
    + rewrite <- Hn. destruct (decide ("y_no" ∈ names tr)) as [|Hno]; [done|].
      unfold features_of in Hx. destruct (drop_columns _ tr) eqn:Hdrop; [|done].
      apply drop_columns_Ok in Hdrop as [Hall _].
      destruct Hno. apply Hall. by apply (bool_decide_unpack _).
  - intros ((df0 & d & Hin & Hd & Hy & Hn) & W1 & W2 & W3).
    rewrite (main_eq args w df0 d Hin Hd (label_columns_names d Hy Hn)).
    destruct (partitions d) as [[tr va] te].
    rewrite !bool_decide_eq_true_2 by done. by eexists _, _.
Qed.

Lemma derive_fails df0 e : derive df0 = Err e → ∃ l, e = KeyError l.
Proof.
  unfold derive. destruct (add_indicators _) as [df1|e1] eqn:H1.
  - destruct (prune df1) as [df2|e2] eqn:H2; [done|]. intros [= <-].
    apply drop_columns_Err in H2 as (l & -> & _). by exists l.
  - intros [= <-]. apply add_indicators_Err in H1 as [->| ->]; by eexists.
Qed.

(** Every run of the script is of one of four kinds. *)
Lemma main_cases `{RandomState} args w :
  (tables w !! input_of args = None ∧
   main args w = (Err (FileNotFoundError (input_of args)), w)) ∨
  (∃ df0 l, tables w !! input_of args = Some df0 ∧ derive df0 = Err (KeyError l) ∧
            main args w = (Err (KeyError l), w)) ∨
  (∃ df0 d l, tables w !! input_of args = Some df0 ∧ derive df0 = Ok d ∧
              (l ∈ label_columns) ∧ (l ∉ names d) ∧
              main args w = (Err (KeyError l), w)) ∨
  (∃ df0 d, tables w !! input_of args = Some df0 ∧ derive df0 = Ok d ∧
            label_columns ⊆ names d).
Proof.
  destruct (tables w !! input_of args) as [df0|] eqn:Hin.
  2: { left. split; [done|]. by rewrite main_unfold, Hin. }
  right. destruct (derive df0) as [d|e] eqn:Hd.
  2: { left. destruct (derive_fails df0 e Hd) as (l & ->).
       exists df0, l. split_and!; try done. by rewrite main_unfold, Hin, Hd. }
  right. destruct (decide (label_columns ⊆ names d)) as [Hlab|Hlab].
  { right. by exists df0, d. }
  left. rewrite main_unfold, Hin, Hd.
  destruct (np_split _ _ _) as [[tr va] te] eqn:Hsplit.
  apply partitions_names in Hsplit as (Hn1 & _ & _).
  unfold mbind at 1, M_bind at 1, bind at 1. rewrite store_labelled_unfold.
  destruct (label_of tr) as [y|e] eqn:Hy.
  2: { apply label_of_Err in Hy as [-> Hy]. exists df0, d, "y_yes".
       split_and!; try done; [by apply (bool_decide_unpack _)|by rewrite <- Hn1]. }
  unfold features_of. destruct (drop_columns _ tr) as [x|e] eqn:Hx.
  { apply drop_columns_Ok in Hx as [Hall _]. destruct Hlab. by rewrite <- Hn1. }
  apply drop_columns_Err in Hx as (l & -> & Hl & Hnl).
  exists df0, d, l. split_and!; try done. by rewrite <- Hn1.
Qed.

(** X4.  What a failed run leaves behind.  A run that raises has created no
    directory and printed nothing.  When the exception comes from the data
    or from the input file (anything but an OS error), or from the very
    first write, the world is as it was.  The only other failures are an
    OS error at [validation.csv], raised after [train.csv] has been written
    and left in place, and an OS error at [test_y.csv], raised after
    [train.csv] and [validation.csv] have been written: nothing is rolled
    back.  No run fails at [test_x.csv], which goes to the directory
    [test_y.csv] has just been written to. *)
Theorem failed_run_leaves `{RandomState} args w e w' :
  main args w = (Err e, w') →
  dirs w' = dirs w ∧ stdout w' = stdout w ∧ global_rng w' = global_rng w ∧
  ((∀ path, e ≠ OSError path) → w' = w) ∧
  (e = OSError (train_csv args) → w' = w) ∧
  (e = OSError (validation_csv args) →
   ∃ df0 d, tables w !! input_of args = Some df0 ∧ derive df0 = Ok d ∧
     w' = write_file (train_csv args) (labelled_records (partitions d).1.1) w) ∧
  (e = OSError (test_y_csv args) →
   ∃ df0 d, tables w !! input_of args = Some df0 ∧ derive df0 = Ok d ∧
     w' = write_file (validation_csv args) (labelled_records (partitions d).1.2)
            (write_file (train_csv args) (labelled_records (partitions d).1.1) w)) ∧
  (∀ path, e = OSError path →
     path ∈ [train_csv args; validation_csv args; test_y_csv args]).
Proof.
  intros Hrun.
  pose proof (output_paths_distinct args) as Hnd.
  apply NoDup_cons in Hnd as [Hn1 Hnd]. apply NoDup_cons in Hnd as [Hn2 _].
  apply not_elem_of_cons in Hn1 as (N12 & (N13 & _)%not_elem_of_cons).
  apply not_elem_of_cons in Hn2 as (N23 & _).
  destruct (main_cases args w)
    as [(_ & Hm)|[(df0 & l & _ & _ & Hm)|[(df0 & d & l & _ & _ & _ & _ & Hm)
        |(df0 & d & Hin & Hd & Hlab)]]].
  1-3: rewrite Hm in Hrun; injection Hrun as <- <-; by split_and!.
  rewrite (main_eq args w df0 d Hin Hd Hlab) in Hrun.
  destruct (partitions d) as [[tr va] te] eqn:Hp.
  repeat case_bool_decide; try discriminate Hrun; injection Hrun as <- <-.
  - split_and!; [done|done|done|..].
    + intros Hno. destruct (Hno _ eq_refl).
    + intros [= He]. by destruct N13.
    + intros [= He]. by destruct N23.
    + intros _. exists df0, d. by rewrite Hp.
    + intros p [= <-]. rewrite !elem_of_cons. tauto.
  - split_and!; [done|done|done|..].
    + intros Hno. destruct (Hno _ eq_refl).
    + intros [= He]. by destruct N12.
    + intros _. exists df0, d. by rewrite Hp.
    + intros [= He]. by destruct N23.
    + intros p [= <-]. rewrite !elem_of_cons. tauto.
  - split_and!; [done|done|done|done|done|..].
    + intros [= He]. by destruct N12.
    + intros [= He]. by destruct N13.
    + intros p [= <-]. rewrite !elem_of_cons. tauto.
Qed.

Lemma half_made_run :
  @main rotating_generator default_args half_made_world
  = (Err (OSError (validation_csv default_args)), half_made_final_world).
Proof. vm_compute. reflexivity. Qed.

Lemma failed_run_leaves_witness :
  @main rotating_generator default_args half_made_world
  = (Err (OSError (validation_csv default_args)), half_made_final_world) ∧
  dirs half_made_final_world = dirs half_made_world ∧
  stdout half_made_final_world = [] ∧
  ∃ df0 d, tables half_made_world !! input_of default_args = Some df0 ∧
           derive df0 = Ok d ∧
           half_made_final_world
           = write_file (train_csv default_args)
               (labelled_records (@partitions rotating_generator d).1.1) half_made_world.
Proof.
  destruct (@failed_run_leaves rotating_generator default_args half_made_world _ _
              half_made_run) as (Hd & Hs & _ & _ & _ & Hv & _).
  split; [exact half_made_run|]. split; [exact Hd|]. split; [exact Hs|].
  exact (Hv eq_refl).
Defined.

(** ** The columns of the derived frame *)

(** Where a column of the derived frame comes from. *)
Lemma derive_names_sources df0 d n :
  derive df0 = Ok d →
  n ∈ names d →
  n ∈ indicators ∨
  (∃ c, c ∈ columns df0 ∧ dt c ≠ object ∧ name c = n ∧ n ∉ pruned) ∨
  (∃ c i lvl, c ∈ columns df0 ∧ dt c = object ∧
          (name c ∉ pruned) ∧ (name c ∉ indicators) ∧
          first_of_level (normalize_value <$> values c) i lvl ∧
          n = name c +:+ "_" +:+ level_text lvl).
Proof.
  intros (df1 & df2 & H1 & H2 & ->)%derive_Ok.
  destruct (add_indicators_columns _ _ H1) as (npc & nw & N1 & D1 & N2 & D2 & Hcols).
  apply drop_columns_Ok in H2 as [_ ->].
  assert (Hpi : ∀ l, l ∈ indicators → l ∉ pruned).
  { intros l. unfold indicators. rewrite !elem_of_cons, elem_of_nil.
    intros [->|[->|[]]]; by apply (bool_decide_unpack _). }
  unfold names, get_dummies. simpl.
  rewrite fmap_app, elem_of_app, !list_elem_of_fmap.
  intros [(c & -> & [Hdt [Hpr Hc]%list_elem_of_filter]%list_elem_of_filter)
         |(c' & -> & (c & Hc' & [Hdt [Hpr Hc]%list_elem_of_filter]%list_elem_of_filter)
                       %list_elem_of_bind)].
  - apply Hcols in Hc as [(c0 & Hc0 & -> & Hn)|[->| ->]].
    + right. left. destruct (decide (dt c0 = object)) as [Ho|Ho].
      { by rewrite (normalize_series_object _ Ho) in Hdt. }
      rewrite (normalize_series_other _ Ho) in *. by exists c0.
    + left. rewrite N1. unfold indicators. rewrite !elem_of_cons. tauto.
    + left. rewrite N2. unfold indicators. rewrite !elem_of_cons. tauto.
  - apply Hcols in Hc as [(c0 & Hc0 & -> & Hn)|[->| ->]];
      [|by rewrite ?D1, ?D2 in Hdt..].
    right. right. destruct (decide (dt c0 = object)) as [Ho|Ho].
    2: { by rewrite (normalize_series_other _ Ho) in Hdt. }
    rewrite (normalize_series_object _ Ho) in *. simpl in *.
    unfold dummies in Hc'. apply list_elem_of_fmap in Hc' as (lvl & -> & Hl).
    simpl in Hl. apply categories_first in Hl as (i & Hi).
    by exists c0, i, lvl.
Qed.

(** What gives a column of the derived frame. *)
Lemma derive_names_arise df0 d n :
  derive df0 = Ok d →
  n ∈ indicators ∨
  (∃ c, c ∈ columns df0 ∧ dt c ≠ object ∧ name c = n ∧ n ∉ pruned) ∨
  (∃ c i lvl, c ∈ columns df0 ∧ dt c = object ∧
          (name c ∉ pruned) ∧ (name c ∉ indicators) ∧
          first_of_level (normalize_value <$> values c) i lvl ∧
          n = name c +:+ "_" +:+ level_text lvl) →
  n ∈ names d.
Proof.
  intros (df1 & df2 & H1 & H2 & ->)%derive_Ok.
  destruct (add_indicators_columns _ _ H1) as (npc & nw & N1 & D1 & N2 & D2 & Hcols).
  apply drop_columns_Ok in H2 as [_ ->].
  assert (Hpi : ∀ l, l ∈ indicators → l ∉ pruned).
  { intros l. unfold indicators. rewrite !elem_of_cons, elem_of_nil.
    intros [->|[->|[]]]; by apply (bool_decide_unpack _). }
  unfold names, get_dummies. simpl.
  rewrite fmap_app, elem_of_app, !list_elem_of_fmap.
  intros [Hi|[(c0 & Hc0 & Hdt & <- & Hpr)|(c0 & i & lvl & Hc0 & Hdt & Hpr & Hi & Hs & ->)]].
  - left. unfold indicators in Hi. pose proof (Hpi n Hi) as Hpr.
    rewrite !elem_of_cons, elem_of_nil in Hi.
    destruct Hi as [->|[->|[]]]; [exists npc|exists nw];
      (split; [done|]); rewrite !list_elem_of_filter;
      rewrite ?N1, ?N2, ?D1, ?D2; (split_and!; [done|done|]); apply Hcols; tauto.
  - destruct (decide (name c0 ∈ indicators)) as [Hi|Hi].
    + left. pose proof (Hpi _ Hi) as Hpr'.
      unfold indicators in Hi. rewrite !elem_of_cons, elem_of_nil in Hi.
      destruct Hi as [Hi|[Hi|[]]]; [exists npc|exists nw];
        (split; [by rewrite ?N1, ?N2|]); rewrite !list_elem_of_filter;
        rewrite ?N1, ?N2, ?D1, ?D2, <- ?Hi; (split_and!; [done|done|]);
        apply Hcols; tauto.
    + left. exists c0. split; [done|]. rewrite !list_elem_of_filter.
      split_and!; try done. apply Hcols. left. exists c0.
      by rewrite (normalize_series_other _ Hdt).
  - right. exists (dummy_column (normalize_series c0) lvl).
    rewrite (normalize_series_object _ Hdt). split; [done|].
    apply list_elem_of_bind. exists (normalize_series c0).
    rewrite (normalize_series_object _ Hdt), !list_elem_of_filter. simpl.
    split_and!; try done.
    + unfold dummies. simpl. apply list_elem_of_fmap_2, categories_first.
      by exists i.
    + apply Hcols. left. exists c0. by rewrite (normalize_series_object _ Hdt).
Qed.

(** X5.  The columns of the derived frame, read off the loaded table.  A
    label is a column of the derived frame exactly when it is one of the two
    indicators, or the label of a column of the table that is not of object
    dtype and is not pruned, or [c_t] for an object column [c] of the table
    (not pruned, not overwritten by an indicator) and the text [t] that
    [str] gives for one of its cells once normalized, the cell being any one
    that is not missing: a string, but also a number or a boolean that the
    column holds.  It is enough to look at the first cell of each level: a
    cell equal to an earlier one (for Python, so that [True], [1] and [1.0]
    are one level) gives the column of that earlier cell.  Missing cells and
    levels that do not occur give no column. *)
Theorem derived_columns df0 d n :
  derive df0 = Ok d →
  n ∈ names d ↔
    n ∈ indicators ∨
    (∃ c, c ∈ columns df0 ∧ dt c ≠ object ∧ name c = n ∧ n ∉ pruned) ∨
    (∃ c i lvl, c ∈ columns df0 ∧ dt c = object ∧
            (name c ∉ pruned) ∧ (name c ∉ indicators) ∧
            first_of_level (normalize_value <$> values c) i lvl ∧
            n = name c +:+ "_" +:+ level_text lvl).
Proof.
  intros Hd. split.
  - by apply derive_names_sources.
  - by apply derive_names_arise.
Qed.

Lemma sample_derive : derive bank_sample = Ok sample_derived.
Proof. vm_compute. reflexivity. Qed.

Lemma derived_columns_witness :
  derive bank_sample = Ok sample_derived ∧
  ("y_yes" ∈ names sample_derived ↔
     "y_yes" ∈ indicators ∨
     (∃ c, c ∈ columns bank_sample ∧ dt c ≠ object ∧ name c = "y_yes" ∧ "y_yes" ∉ pruned) ∨
     (∃ c i lvl, c ∈ columns bank_sample ∧ dt c = object ∧
             (name c ∉ pruned) ∧ (name c ∉ indicators) ∧
             first_of_level (normalize_value <$> values c) i lvl ∧
             "y_yes" = name c +:+ "_" +:+ level_text lvl)).
Proof.
  split; [exact sample_derive|].
  exact (derived_columns bank_sample sample_derived "y_yes" sample_derive).
Defined.

(** The two label columns of the derived frame, in terms of the table. *)
Lemma derive_label df0 d lvl :
  lvl ∈ ["yes"; "no"] →
  derive df0 = Ok d →
  "y_" +:+ lvl ∈ names d ↔ label_source df0 lvl.
Proof.
  intros Hl Hd. unfold label_source.
  assert (Hiff : "y_" +:+ lvl ∈ names d ↔ _)
    by (split; [apply (derive_names_sources _ _ _ Hd)|apply (derive_names_arise _ _ _ Hd)]).
  rewrite Hiff. clear Hiff.
  assert (Hni : ("y_" +:+ lvl ∉ indicators) ∧ ("y_" +:+ lvl ∉ pruned) ∧
                ("y" ∉ indicators) ∧ ("y" ∉ pruned)).
  { rewrite !elem_of_cons, elem_of_nil in Hl.
    destruct Hl as [->|[->|[]]]; split_and!; by apply (bool_decide_unpack _). }
  destruct Hni as (I1 & I2 & I3 & I4).
  split.
  - intros [Hi|[(c & Hc & Hdt & Hn & _)|(c & i & v & Hc & Hdt & _ & _ & Hs & Hn)]].
    + done.
    + left. by exists c.
    + right. symmetry in Hn. apply (label_split _ _ _ Hl) in Hn as [Hn Hs'].
      apply (level_text_answer _ _ Hl) in Hs' as ->.
      destruct Hs as (Hi & _). apply list_lookup_fmap_Some in Hi as (u & Hu & Hi).
      symmetry in Hu.
      apply normalize_value_string in Hu as (s & -> & ->).
      exists c, s. split_and!; try done. by eapply list_elem_of_lookup_2.
  - intros [(c & Hc & Hdt & Hn)|(c & s & Hc & Hdt & Hn & Hs & <-)].
    + right. left. by exists c.
    + right. right.
      assert (Hin : VStr (normalize_string s) ∈ normalize_value <$> values c).
      { apply list_elem_of_fmap. by exists (VStr s). }
      apply categories_string, categories_first in Hin as (i & Hi).
      exists c, i, (VStr (normalize_string s)). rewrite Hn. by split_and!.
Qed.

(** X3.  When a run succeeds, read off the arguments and the world it
    starts in.  The script returns normally exactly when the input file can
    be read, the table has the columns [pdays], [job] and the six pruned
    ones, it gives rise to both label columns [y_yes] and [y_no] (through an
    object column [y] in which both answers occur once normalized, or
    through columns of those very labels that are not of object dtype), and
    the directories [train], [validation] and [test] exist under the output
    path.  Nothing else about the data, its size or the other arguments
    matters: a table whose [y] column holds a single answer makes the run
    fail however many rows it has. *)
Theorem run_succeeds_iff `{RandomState} args w :
  (∃ parts w', main args w = (Ok parts, w')) ↔
  (∃ df0, tables w !! input_of args = Some df0 ∧
          "pdays" ∈ names df0 ∧ "job" ∈ names df0 ∧ pruned ⊆ names df0 ∧
          label_source df0 "yes" ∧ label_source df0 "no") ∧
  path_join (outputpath args) "train" ∈ dirs w ∧
  path_join (outputpath args) "validation" ∈ dirs w ∧
  path_join (outputpath args) "test" ∈ dirs w.
Proof.
  assert (Hyes : "yes" ∈ ["yes"; "no"]) by (by apply (bool_decide_unpack _)).
  assert (Hno : "no" ∈ ["yes"; "no"]) by (by apply (bool_decide_unpack _)).
  rewrite run_Ok_iff. split.
  - intros ((df0 & d & Hin & Hd & Hy & Hn) & Hdirs). split; [|done].
    exists df0. pose proof (derive_Ok_iff df0) as Hiff.
    destruct (proj1 Hiff) as (H1 & H2 & H3); [by exists d|].
    split_and!; try done.
    + by apply (derive_label df0 d "yes" Hyes Hd).
    + by apply (derive_label df0 d "no" Hno Hd).
  - intros ((df0 & Hin & H1 & H2 & H3 & Hy & Hn) & Hdirs). split; [|done].
    pose proof (derive_Ok_iff df0) as Hiff.
    destruct (proj2 Hiff) as [d Hd]; [done|].
    exists df0, d. split_and!; try done.
    + by apply (derive_label df0 d "yes" Hyes Hd).
    + by apply (derive_label df0 d "no" Hno Hd).
Qed.

(** The first use of the label columns: [train_data['y_yes']], then the
    drop of both labels from the training partition. *)
Lemma main_label_missing `{RandomState} args w df0 d :
  tables w !! input_of args = Some df0 →
  derive df0 = Ok d →
  ("y_yes" ∉ names d → main args w = (Err (KeyError "y_yes"), w)) ∧
  ("y_yes" ∈ names d → "y_no" ∉ names d → main args w = (Err (KeyError "y_no"), w)).
Proof.
  intros Hin Hd. rewrite main_unfold, Hin, Hd.
  destruct (np_split _ _ _) as [[tr va] te] eqn:Hsplit.
  apply partitions_names in Hsplit as (Hn1 & _ & _).
  split.
  - intros Hy. unfold mbind at 1, M_bind at 1, bind at 1.
    rewrite store_labelled_unfold.
    rewrite (label_of_absent tr) by by rewrite Hn1. done.
  - intros Hy Hn. unfold mbind at 1, M_bind at 1, bind at 1.
    rewrite store_labelled_unfold.
    rewrite (label_of_present tr) by by rewrite Hn1.
    unfold features_of, drop_columns. simpl.
    rewrite decide_False by (rewrite Hn1; by intros Hc; apply Hc).
    rewrite decide_True by by rewrite Hn1. done.
Qed.

(** X6.  A table without both answers.  On a table that has the eight
    columns the derivation needs, the run fails with [KeyError] as soon as
    one of the answers does not occur: for [y_yes] when no client said yes,
    for [y_no] when all did.  The failure comes at the first write, before
    anything has reached the disk, whatever the output directories are. *)
Theorem missing_answer_fails `{RandomState} args w df0 :
  tables w !! input_of args = Some df0 →
  "pdays" ∈ names df0 → "job" ∈ names df0 → pruned ⊆ names df0 →
  (¬ label_source df0 "yes" → main args w = (Err (KeyError "y_yes"), w)) ∧
  (label_source df0 "yes" → ¬ label_source df0 "no" →
   main args w = (Err (KeyError "y_no"), w)).
Proof.
  intros Hin H1 H2 H3.
  assert (Hyes : "yes" ∈ ["yes"; "no"]) by (by apply (bool_decide_unpack _)).
  assert (Hno : "no" ∈ ["yes"; "no"]) by (by apply (bool_decide_unpack _)).
  pose proof (derive_Ok_iff df0) as Hiff.
  destruct (proj2 Hiff) as [d Hd]; [done|].
  destruct (main_label_missing args w df0 d Hin Hd) as [Ha Hb].
  pose proof (derive_label df0 d "yes" Hyes Hd) as Ly.
  pose proof (derive_label df0 d "no" Hno Hd) as Ln.
  split.
  - intros Hy. apply Ha. by rewrite Ly.
  - intros Hy Hn. apply Hb; [by apply Ly|by rewrite Ln].
Qed.

Lemma refusals_derive : derive refusals = Ok refusals_derived.
Proof. vm_compute. reflexivity. Qed.

Lemma missing_answer_fails_witness :
  @main rotating_generator default_args (container_with refusals)
  = (Err (KeyError "y_yes"), container_with refusals).
Proof.
  assert (Hyes : "yes" ∈ ["yes"; "no"]) by (by apply (bool_decide_unpack _)).
  assert (Hsub : pruned ⊆ names refusals).
  { intros n. unfold pruned. rewrite !elem_of_cons, elem_of_nil.
    intros [->|[->|[->|[->|[->|[->|[]]]]]]]; by apply (bool_decide_unpack _). }
  refine (proj1 (@missing_answer_fails rotating_generator default_args
                   (container_with refusals) refusals _ _ _ Hsub) _).
  - vm_compute. reflexivity.
  - by apply (bool_decide_unpack _).
  - by apply (bool_decide_unpack _).
  - rewrite <- (derive_label refusals refusals_derived "yes" Hyes refusals_derive).
    by apply (bool_decide_unpack _).
Defined.

(** ** One-hot encoding *)

(** The indicator cells of a cell along a list of levels no two of which
    are equal and one of which is the level of the cell: a single one, at
    the position of that level. *)
Lemma indicator_row v (l : list value) lvl :
  StronglySorted (λ x y, same_level x y = false) l →
  lvl ∈ l → same_level v lvl = true →
  ∃ k, l !! k = Some lvl ∧
       (λ x, Some (VInt (if same_level v x then 1 else 0))) <$> l
       = <[k := Some (VInt 1)]> (replicate (length l) (Some (VInt 0))).
Proof.
  intros Hl Hin Hv. induction Hl as [|x l Hs IH Hx]; [by apply elem_of_nil in Hin|].
  apply elem_of_cons in Hin as [->|Hin].
  - exists 0%nat. split; [done|]. csimpl. rewrite Hv. f_equal.
    clear IH Hs. induction l as [|y l IH]; [done|].
    apply Forall_cons in Hx as [Hy Hx]. csimpl.
    destruct (same_level v y) eqn:Hvy.
    + rewrite same_level_sym in Hv.
      by rewrite (same_level_trans _ _ _ Hv Hvy) in Hy.
    + f_equal. by apply IH.
  - destruct (IH Hin) as (k & Hk & Heq). exists (S k). split; [done|].
    csimpl. rewrite Heq. destruct (same_level v x) eqn:Hvx; [|done].
    eapply Forall_forall in Hx; [|exact Hin].
    rewrite same_level_sym in Hvx.
    by rewrite (same_level_trans _ _ _ Hvx Hv) in Hx.
Qed.

Lemma indicator_row_missing v (l : list value) :
  missing v = true →
  (λ x, Some (VInt (if same_level v x then 1 else 0))) <$> l
  = replicate (length l) (Some (VInt 0)).
Proof.
  intros Hv. induction l as [|x l IH]; [done|]. csimpl.
  rewrite IH. unfold same_level. by rewrite Hv.
Qed.

(** X7.  The encoding of one column is one-hot.  The levels of an object
    column are its cells that are not missing, a cell equal to an earlier
    one (for Python, so that [True], [1] and [1.0] are one level) counting
    with that earlier cell: strings, and also the numbers and booleans that
    the column holds.  The indicator columns stand in the strict order of
    their levels, numbers first in ascending order, then strings in
    code-point order, one per level, each labelled [column_text] with the
    text [str] gives for the level.  In a row whose cell is not missing
    exactly one of them holds 1, the one of the level of that cell, and all
    the others hold 0; in a row whose cell is missing all of them hold 0. *)
Theorem one_hot c i v :
  values c !! i = Some v →
  StronglySorted level_lt (categories (values c)) ∧
  (∀ lvl, lvl ∈ categories (values c) ↔ ∃ j, first_of_level (values c) j lvl) ∧
  name <$> dummies c
  = (λ lvl, name c +:+ "_" +:+ level_text lvl) <$> categories (values c) ∧
  if missing v
  then dummy_cells c i = replicate (length (categories (values c))) (Some (VInt 0))
  else ∃ k lvl, categories (values c) !! k = Some lvl ∧
                same_level v lvl = true ∧
                (∀ s, v = VStr s → lvl = VStr s) ∧
                dummy_cells c i
                = <[k := Some (VInt 1)]>
                    (replicate (length (categories (values c))) (Some (VInt 0))).
Proof.
  intros Hv. split; [apply categories_sorted|].
  split; [intros lvl; apply categories_first|]. split.
  { unfold dummies. by rewrite <- list_fmap_compose. }
  assert (Hcells : dummy_cells c i
                   = (λ x, Some (VInt (if same_level v x then 1 else 0)))
                       <$> categories (values c)).
  { unfold dummy_cells, dummies. rewrite <- list_fmap_compose.
    apply list_fmap_ext. intros _ lvl _. simpl. by rewrite list_lookup_fmap, Hv. }
  rewrite Hcells. destruct (missing v) eqn:Hm; [by apply indicator_row_missing|].
  destruct (categories_covers (values c) v) as (lvl & Hin & Hs);
    [by eapply list_elem_of_lookup_2|done|].
  destruct (indicator_row v _ lvl (categories_distinct _) Hin Hs) as (k & Hk & Heq).
  exists k, lvl. split_and!; try done.
  intros s ->. by apply same_level_string.
Qed.

Lemma one_hot_witness :
  name <$> dummies (mkSeries "flag" object [VBool true; VNaN; VBool false; VBool true])
  = ["flag_False"; "flag_True"] ∧
  dummy_cells (mkSeries "flag" object [VBool true; VNaN; VBool false; VBool true]) 0
  = [Some (VInt 0); Some (VInt 1)] ∧
  dummy_cells (mkSeries "flag" object [VBool true; VNaN; VBool false; VBool true]) 1
  = [Some (VInt 0); Some (VInt 0)].
Proof.
  pose proof (one_hot (mkSeries "flag" object [VBool true; VNaN; VBool false; VBool true])
                0 (VBool true) eq_refl) as (_ & _ & Hn & k & lvl & Hk & Hs & _ & H1).
  pose proof (one_hot (mkSeries "flag" object [VBool true; VNaN; VBool false; VBool true])
                1 VNaN eq_refl) as (_ & _ & _ & H2).
  split; [exact Hn|]. split; [|exact H2].
  rewrite H1. destruct k as [|[|k]]; [|done|done].
  injection Hk as <-. discriminate Hs.
Defined.

(** ** What the files hold *)

Lemma take_rows_elem {A} (p : list nat) (l : list A) x : x ∈ take_rows p l → x ∈ l.
Proof.
  unfold take_rows. intros (i & _ & Hi)%list_elem_of_omap.
  by eapply list_elem_of_lookup_2.
Qed.

Lemma slice_elem {A} st en (l : list A) x : x ∈ slice st en l → x ∈ l.
Proof.
  unfold slice. intros Hx. eapply subseteq_drop, subseteq_take, Hx.
Qed.

(** A column of a partition holds cells of the column of the same label and
    dtype in the frame that was cut. *)
Lemma partition_columns `{RandomState} d tr va te c :
  partitions d = (tr, va, te) →
  c ∈ columns tr ∨ c ∈ columns va ∨ c ∈ columns te →
  ∃ c0, c0 ∈ columns d ∧ name c = name c0 ∧ dt c = dt c0 ∧ values c ⊆ values c0.
Proof.
  unfold partitions, np_split. intros [= <- <- <-] Hc.
  assert (Hs : ∃ st en, c ∈ columns (slice_frame st en
                 (take_frame (permutation (seeded 42) (len d)).1 d))).
  { destruct Hc as [Hc|[Hc|Hc]]; by eexists _, _. }
  destruct Hs as (st & en & Hs). unfold slice_frame, take_frame in Hs. simpl in Hs.
  rewrite <- list_fmap_compose in Hs.
  apply list_elem_of_fmap in Hs as (c0 & -> & Hc0). exists c0. simpl.
  split_and!; try done. intros v Hv. by eapply take_rows_elem, slice_elem.
Qed.

Lemma record_at_elem df i v :
  v ∈ record_at df i → ∃ c, c ∈ columns df ∧ v ∈ values c.
Proof.
  unfold record_at. intros (c & Hc & Hv)%list_elem_of_omap.
  exists c. split; [done|]. by eapply list_elem_of_lookup_2.
Qed.

Lemma csv_records_elem df r v :
  r ∈ csv_records false false df → v ∈ r → ∃ c, c ∈ columns df ∧ v ∈ values c.
Proof.
  rewrite csv_records_plain. intros (i & lbl & -> & _)%elem_of_lookup_imap.
  apply record_at_elem.
Qed.

(** The indicator step, with the cells of the two indicators. *)
Lemma add_indicators_bits df df1 c :
  add_indicators df = Ok df1 → c ∈ columns df1 →
  name c ∈ indicators → dt c = int64 ∧ Forall is_bit (values c).
Proof.
  intros (pdays & job & dfa & _ & -> & _ & ->)%add_indicators_Ok.
  rewrite !elem_of_setitem. unfold indicators. rewrite !elem_of_cons, elem_of_nil.
  assert (Hb : ∀ (f : value → bool) vs, Forall is_bit ((λ v, bool_to_int (f v)) <$> vs)).
  { intros f vs. apply Forall_fmap, Forall_true. intros v. simpl.
    unfold is_bit, bool_to_int. destruct (f v); auto. }
  intros [[[[Hc Hn1]| ->] Hn2]| ->] Hn.
  - tauto.
  - split; [done|]. apply (Hb (value_eq_int 999)).
  - split; [done|]. apply (Hb (value_isin _)).
Qed.

Lemma is_bit_numeric v : is_bit v → textual v = false.
Proof. by intros [->| ->]. Qed.

(** The derived frame has no object column and, on a table that holds its
    strings in object columns, no string. *)
Lemma derive_numeric df0 d c :
  derive df0 = Ok d → c ∈ columns d →
  dt c ≠ object ∧ (well_typed df0 → Forall (λ v, textual v = false) (values c)).
Proof.
  intros (df1 & df2 & H1 & H2 & ->)%derive_Ok.
  destruct (add_indicators_columns _ _ H1) as (npc & nw & N1 & D1 & N2 & D2 & Hcols).
  apply drop_columns_Ok in H2 as [_ ->].
  unfold get_dummies. simpl. rewrite elem_of_app.
  intros [[Hdt [Hpr Hc]%list_elem_of_filter]%list_elem_of_filter
         |(c1 & Hc & [Hdt [Hpr Hc1]%list_elem_of_filter]%list_elem_of_filter)
            %list_elem_of_bind].
  - split; [done|]. intros Hwt. pose proof Hc as Hc'.
    apply Hcols in Hc as [(c0 & Hc0 & -> & Hn)|[->| ->]].
    + destruct (decide (dt c0 = object)) as [Ho|Ho].
      { by rewrite (normalize_series_object _ Ho) in Hdt. }
      rewrite (normalize_series_other _ Ho). by apply Hwt.
    + eapply Forall_impl; [|apply is_bit_numeric].
      eapply (add_indicators_bits _ _ _ H1 Hc'). rewrite N1.
      by apply (bool_decide_unpack _).
    + eapply Forall_impl; [|apply is_bit_numeric].
      eapply (add_indicators_bits _ _ _ H1 Hc'). rewrite N2.
      by apply (bool_decide_unpack _).
  - unfold dummies in Hc. apply list_elem_of_fmap in Hc as (lvl & -> & _). simpl.
    split; [done|]. intros _. apply Forall_fmap, Forall_true. by intros v.
Qed.

(** X8.  The output files are numeric.  The derived frame has no column of
    object dtype left: the encoding replaces every one of them.  When the
    loaded table holds its strings in object columns, as a table read from
    CSV does, no field of any record of the four output files is a string. *)
Theorem numeric_outputs `{RandomState} args w df0 parts w' :
  tables w !! input_of args = Some df0 →
  well_typed df0 →
  main args w = (Ok parts, w') →
  (∃ d, derive df0 = Ok d ∧ ∀ c, c ∈ columns d → dt c ≠ object) ∧
  ∀ path recs,
    path ∈ [train_csv args; validation_csv args; test_y_csv args; test_x_csv args] →
    files w' !! path = Some recs →
    Forall (Forall (λ v, textual v = false)) recs.
Proof.
  intros Hin Hwt Hrun. destruct parts as [[tr va] te].
  pose proof Hrun as Hok.
  apply main_Ok in Hok as (df0' & d & _ & _ & _ & _ & _ & _ & Hin' & Hd & Hsplit & _).
  rewrite Hin in Hin'. injection Hin' as <-.
  split. { exists d. split; [done|]. intros c Hc. by apply (derive_numeric df0 d c Hd). }
  assert (Hpart : ∀ c, c ∈ columns tr ∨ c ∈ columns va ∨ c ∈ columns te →
                       Forall (λ v, textual v = false) (values c)).
  { intros c Hc.
    destruct (partition_columns d tr va te c (eq_sym Hsplit) Hc)
      as (c0 & Hc0 & _ & _ & Hsub).
    apply Forall_forall. intros v Hv%Hsub. revert v Hv. apply Forall_forall.
    by apply (derive_numeric df0 d c0 Hd). }
  apply run_effects in Hrun
    as (ytr & xtr & yva & xva & yte & xte & [Ha1 Ha2] & [Hb1 Hb2] & [Hc1 Hc2]
        & Hf1 & Hf2 & Hf3 & Hf4 & _).
  apply label_of_Ok in Ha1 as (_ & Ha1 & _). apply features_of_Ok in Ha2 as (_ & Ha2 & _).
  apply label_of_Ok in Hb1 as (_ & Hb1 & _). apply features_of_Ok in Hb2 as (_ & Hb2 & _).
  apply label_of_Ok in Hc1 as (_ & Hc1 & _). apply features_of_Ok in Hc2 as (_ & Hc2 & _).
  intros path recs Hp Hrecs. rewrite !elem_of_cons, elem_of_nil in Hp.
  apply Forall_forall. intros r Hr. apply Forall_forall. intros v Hv.
  assert (Hcell : ∃ c, (c ∈ columns tr ∨ c ∈ columns va ∨ c ∈ columns te) ∧ v ∈ values c).
  { destruct Hp as [->|[->|[->|[->|[]]]]].
    - rewrite Hf1 in Hrecs. injection Hrecs as <-.
      destruct (csv_records_elem _ _ _ Hr Hv) as (c & Hc & Hvc). exists c. split; [|done].
      simpl in Hc. rewrite Ha1, Ha2, elem_of_app, !list_elem_of_filter in Hc. tauto.
    - rewrite Hf2 in Hrecs. injection Hrecs as <-.
      destruct (csv_records_elem _ _ _ Hr Hv) as (c & Hc & Hvc). exists c. split; [|done].
      simpl in Hc. rewrite Hb1, Hb2, elem_of_app, !list_elem_of_filter in Hc. tauto.
    - rewrite Hf3 in Hrecs. injection Hrecs as <-.
      destruct (csv_records_elem _ _ _ Hr Hv) as (c & Hc & Hvc). exists c. split; [|done].
      rewrite Hc1, list_elem_of_filter in Hc. tauto.
    - rewrite Hf4 in Hrecs. injection Hrecs as <-.
      destruct (csv_records_elem _ _ _ Hr Hv) as (c & Hc & Hvc). exists c. split; [|done].
      rewrite Hc2, list_elem_of_filter in Hc. tauto. }
  destruct Hcell as (c & Hc & Hvc). clear Hv. revert v Hvc. apply Forall_forall. by apply Hpart.
Qed.

Lemma bank_sample_well_typed : well_typed bank_sample.
Proof.
  intros c Hc Hdt. unfold bank_sample in Hc. simpl in Hc.
  rewrite !elem_of_cons, elem_of_nil in Hc.
  repeat (destruct Hc as [->|Hc]; [try done; by apply (bool_decide_unpack _)|]).
  done.
Qed.

Lemma numeric_outputs_witness :
  well_typed bank_sample ∧
  ∃ recs, files sample_final_world !! test_x_csv default_args = Some recs ∧
          Forall (Forall (λ v, textual v = false)) recs.
Proof.
  split; [exact bank_sample_well_typed|].
  destruct (@numeric_outputs rotating_generator default_args container_world bank_sample
              _ _ sample_input bank_sample_well_typed sample_run) as [_ Hfiles].
  destruct (files sample_final_world !! test_x_csv default_args) as [recs|] eqn:Hf.
  - exists recs. split; [done|]. apply (Hfiles (test_x_csv default_args)); [|done].
    rewrite !elem_of_cons. tauto.
  - by vm_compute in Hf.
Defined.

(** ** The shape of the files *)

Lemma take_frame_rectangular p d :
  rectangular d → Forall (λ i, (i < len d)%nat) p → rectangular (take_frame p d).
Proof.
  intros Hr Hp. unfold rectangular. rewrite take_frame_len by done.
  unfold take_frame. simpl. apply Forall_fmap.
  eapply Forall_impl; [exact Hr|]. intros c Hc. simpl.
  apply take_rows_length. by rewrite Hc.
Qed.

(** The sizes of the three partitions, and that they are rectangular. *)
Lemma partitions_shape `{RandomState} d tr va te :
  rectangular d → partitions d = (tr, va, te) →
  Z.of_nat (len tr) = cut_0_7 (Z.of_nat (len d)) ∧
  Z.of_nat (len va) = cut_0_9 (Z.of_nat (len d)) - cut_0_7 (Z.of_nat (len d)) ∧
  Z.of_nat (len te) = Z.of_nat (len d) - cut_0_9 (Z.of_nat (len d)) ∧
  rectangular tr ∧ rectangular va ∧ rectangular te.
Proof.
  intros Hr. unfold partitions.
  set (p := (permutation (seeded 42) (len d)).1).
  assert (Hp : p ≡ₚ seq 0 (len d)) by apply permutation_perm.
  pose proof (permutation_valid _ _ Hp) as Hv.
  assert (Hlen : length p = len d) by by rewrite (Permutation_length Hp), length_seq.
  pose proof (cut_ordered (Z.of_nat (len d)) ltac:(lia)) as [[H0 H12] H2N].
  rewrite np_split_take_frame by done. intros [= <- <- <-].
  assert (Hsub : ∀ st en, Forall (λ i, (i < len d)%nat) (slice st en p)).
  { intros st en. apply Forall_forall. intros i Hi%slice_elem.
    by eapply Forall_forall in Hv. }
  rewrite !take_frame_len by done.
  rewrite !slice_length by lia.
  split_and!; try lia; by apply take_frame_rectangular.
Qed.

Lemma record_at_length df i :
  rectangular df → (i < len df)%nat → length (record_at df i) = length (columns df).
Proof.
  unfold rectangular, record_at. generalize (len df) as n, (columns df) as cs.
  intros n cs Hr Hi. induction Hr as [|c cs Hc _ IH]; [done|]. csimpl.
  destruct (lookup_lt_is_Some_2 (values c) i) as [v Hv]; [by rewrite Hc|].
  rewrite Hv. simpl. by rewrite IH.
Qed.

(** A rectangular frame is written as one record per row, each with one
    field per column. *)
Lemma csv_records_shape df :
  rectangular df →
  length (csv_records false false df) = len df ∧
  Forall (λ r, length r = length (columns df)) (csv_records false false df).
Proof.
  intros Hr. rewrite csv_records_plain. split; [by rewrite length_imap|].
  apply Forall_forall. intros r (i & lbl & -> & Hi)%elem_of_lookup_imap.
  apply record_at_length; [done|]. by eapply lookup_lt_Some.
Qed.

Lemma filter_columns_rectangular (P : Series → Prop) `{∀ c, Decision (P c)} df :
  rectangular df → rectangular (mkDF (index df) (filter P (columns df))).
Proof. intros Hr. by apply Forall_filter. Qed.

Lemma length_filter_names (P : string → Prop) `{∀ n, Decision (P n)} (cs : list Series) :
  length (filter (λ c, P (name c)) cs) = length (filter P (name <$> cs)).
Proof.
  induction cs as [|c cs IH]; [done|]. rewrite fmap_cons, !filter_cons.
  destruct (decide (P (name c))); simpl; by rewrite IH.
Qed.

(** X9.  The shape of the four files.  On a rectangular table a successful
    run writes headerless files that are tables themselves: [train.csv],
    [validation.csv] and the two test files have one record per row of
    their partition, so [int(0.7 N)], [int(0.9 N) - int(0.7 N)] and
    [N - int(0.9 N)] records, and [test_x.csv] and [test_y.csv] have the same
    number of records; within a file all records have the same number of
    fields: the label fields for [test_y.csv], the feature fields for
    [test_x.csv], both for the other two. *)
Theorem file_shapes `{RandomState} args w df0 parts w' :
  tables w !! input_of args = Some df0 →
  rectangular df0 →
  main args w = (Ok parts, w') →
  ∃ d rtr rva rty rtx,
    derive df0 = Ok d ∧
    files w' !! train_csv args = Some rtr ∧
    files w' !! validation_csv args = Some rva ∧
    files w' !! test_y_csv args = Some rty ∧
    files w' !! test_x_csv args = Some rtx ∧
    let N := Z.of_nat (len df0) in
    let k := length (filter (λ n, n = "y_yes") (names d)) in
    let m := length (filter (λ n, n ∉ label_columns) (names d)) in
    Z.of_nat (length rtr) = cut_0_7 N ∧
    Z.of_nat (length rva) = cut_0_9 N - cut_0_7 N ∧
    Z.of_nat (length rty) = N - cut_0_9 N ∧
    length rtx = length rty ∧
    (1 ≤ k)%nat ∧
    Forall (λ r, length r = (k + m)%nat) rtr ∧
    Forall (λ r, length r = (k + m)%nat) rva ∧
    Forall (λ r, length r = k) rty ∧
    Forall (λ r, length r = m) rtx.
Proof.
  intros Hin Hrect Hrun. destruct parts as [[tr va] te].
  pose proof Hrun as Hok.
  apply main_Ok in Hok as (df0' & d & _ & _ & _ & _ & _ & _ & Hin' & Hd & Hsplit & _).
  rewrite Hin in Hin'. injection Hin' as <-.
  pose proof (derive_rectangular _ _ Hd Hrect) as Hrd.
  symmetry in Hsplit. pose proof (partitions_names d tr va te Hsplit) as (Hn1 & Hn2 & Hn3).
  apply (partitions_shape d tr va te Hrd) in Hsplit as (L1 & L2 & L3 & R1 & R2 & R3).
  rewrite (derive_len _ _ Hd) in L1, L2, L3.
  apply run_effects in Hrun
    as (ytr & xtr & yva & xva & yte & xte & [Ha1 Ha2] & [Hb1 Hb2] & [Hc1 Hc2]
        & Hf1 & Hf2 & Hf3 & Hf4 & _).
  eexists d, _, _, _, _.
  split; [done|]. split; [exact Hf1|]. split; [exact Hf2|].
  split; [exact Hf3|]. split; [exact Hf4|].
  assert (Hshape : ∀ part y x,
    rectangular part → names part = names d →
    label_of part = Ok y → features_of part = Ok x →
    let k := length (filter (λ n, n = "y_yes") (names d)) in
    let m := length (filter (λ n, n ∉ label_columns) (names d)) in
    (1 ≤ k)%nat ∧
    (length (csv_records false false (concat_columns y x)) = len part ∧
     Forall (λ r, length r = (k + m)%nat) (csv_records false false (concat_columns y x))) ∧
    (length (csv_records false false y) = len part ∧
     Forall (λ r, length r = k) (csv_records false false y)) ∧
    (length (csv_records false false x) = len part ∧
     Forall (λ r, length r = m) (csv_records false false x))).
  { intros part y x Hr Hn Hy Hx k m.
    apply label_of_Ok in Hy as (Hiy & Hcy & _ & Hin').
    apply features_of_Ok in Hx as (Hix & Hcx & _).
    assert (Hry : rectangular y).
    { destruct y as [iy cy]. simpl in *. subst.
      by apply (filter_columns_rectangular (λ c, name c = "y_yes")). }
    assert (Hrx : rectangular x).
    { destruct x as [ix cx]. simpl in *. subst.
      by apply (filter_columns_rectangular (λ c, name c ∉ label_columns)). }
    assert (Hrc : rectangular (concat_columns y x)).
    { unfold rectangular, concat_columns, len in *. simpl. apply Forall_app.
      split; [done|]. by rewrite Hiy, <- Hix. }
    assert (Hk : length (columns y) = k).
    { rewrite Hcy. subst k. rewrite <- Hn.
      exact (length_filter_names (λ n, n = "y_yes") (columns part)). }
    assert (Hm : length (columns x) = m).
    { rewrite Hcx. subst m. rewrite <- Hn.
      exact (length_filter_names (λ n, n ∉ label_columns) (columns part)). }
    split.
    { subst k. rewrite <- Hn. rewrite Hn in Hin'.
      destruct (filter _ (names part)) eqn:Hf; simpl; [|lia].
      rewrite <- Hn in Hin'. apply (filter_nil_not_elem_of _ _ _ Hf) in Hin'; done. }
    pose proof (csv_records_shape _ Hrc) as [Lc Fc].
    pose proof (csv_records_shape _ Hry) as [Ly Fy].
    pose proof (csv_records_shape _ Hrx) as [Lx Fx].
    unfold len in *. simpl in *. rewrite length_app, Hk, Hm in Fc.
    rewrite Hk in Fy. rewrite Hm in Fx. rewrite Hiy in Lc, Ly. rewrite Hix in Lx.
    done. }
  destruct (Hshape tr ytr xtr R1 Hn1 Ha1 Ha2) as (K & [A1 A2] & _ & _).
  destruct (Hshape va yva xva R2 Hn2 Hb1 Hb2) as (_ & [B1 B2] & _ & _).
  destruct (Hshape te yte xte R3 Hn3 Hc1 Hc2) as (_ & _ & [C1 C2] & [C3 C4]).
  cbv zeta. rewrite A1, B1, C1, C3. split_and!; done.
Qed.

Lemma file_shapes_witness :
  ∃ rty rtx,
    files sample_final_world !! test_y_csv default_args = Some rty ∧
    files sample_final_world !! test_x_csv default_args = Some rtx ∧
    length rtx = length rty.
Proof.
  destruct (@file_shapes rotating_generator default_args container_world bank_sample
              _ _ sample_input bank_sample_rectangular sample_run)
    as (d & rtr & rva & rty & rtx & _ & _ & _ & Hy & Hx & _ & _ & _ & Hlen & _).
  exists rty, rtx. split; [exact Hy|]. split; [exact Hx|exact Hlen].
Defined.

(** ** Small tables *)

Lemma cuts_small n :
  0 ≤ n < 2 ^ 49 →
  (cut_0_7 n = 0 ↔ n ≤ 1) ∧
  (cut_0_9 n - cut_0_7 n = 0 ↔ n ≤ 3) ∧
  n - cut_0_9 n = (n + 9) / 10.
Proof.
  intros Hn. pose proof (cut_0_9_exact n Hn) as H9.
  pose proof (cut_0_7_near n Hn) as H7.
  destruct (decide (n ≤ 3)) as [Hs|Hs].
  - assert (Hc : n = 0 ∨ n = 1 ∨ n = 2 ∨ n = 3) by lia.
    destruct Hc as [->|[->|[->| ->]]].
    + change (cut_0_7 0) with 0. change (cut_0_9 0) with 0. by split_and!.
    + change (cut_0_7 1) with 0. change (cut_0_9 1) with 0. by split_and!.
    + change (cut_0_7 2) with 1. change (cut_0_9 2) with 1. by split_and!.
    + change (cut_0_7 3) with 2. change (cut_0_9 3) with 2. by split_and!.
  - rewrite H9. change (2 ^ 49) with 562949953421312 in Hn.
    pose proof (Z.div_mod (9 * n) 10 ltac:(lia)) as D9.
    pose proof (Z.mod_pos_bound (9 * n) 10 ltac:(lia)) as M9.
    pose proof (Z.div_mod (7 * n) 10 ltac:(lia)) as D7.
    pose proof (Z.mod_pos_bound (7 * n) 10 ltac:(lia)) as M7.
    split_and!; [lia|lia|].
    apply (Z.div_unique _ _ _ (9 - (9 * n) `mod` 10)); lia.
Qed.

(** X10.  Small tables.  The test partition holds [ceil(N / 10)] rows: it
    is never empty unless the table is.  The training partition is empty
    for a table of one row, and the validation partition for tables of up
    to three rows; from four rows on all three partitions hold rows. *)
Theorem small_tables `{RandomState} d tr va te :
  rectangular d →
  Z.of_nat (len d) < 2 ^ 49 →
  partitions d = (tr, va, te) →
  Z.of_nat (len te) = (Z.of_nat (len d) + 9) / 10 ∧
  (len te = 0%nat ↔ len d = 0%nat) ∧
  (len tr = 0%nat ↔ (len d ≤ 1)%nat) ∧
  (len va = 0%nat ↔ (len d ≤ 3)%nat).
Proof.
  intros Hr Hlt Hp.
  apply (partitions_shape d tr va te Hr) in Hp as (L1 & L2 & L3 & _).
  destruct (cuts_small (Z.of_nat (len d)) ltac:(lia)) as (C1 & C2 & C3).
  clear Hlt. rewrite <- L1 in C1. rewrite <- L2 in C2. rewrite <- L3 in C3.
  clear L1 L2 L3.
  pose proof (Z.div_mod (Z.of_nat (len d) + 9) 10 ltac:(lia)) as D.
  pose proof (Z.mod_pos_bound (Z.of_nat (len d) + 9) 10 ltac:(lia)) as M.
  split_and!; lia.
Qed.

Lemma small_tables_witness :
  Z.of_nat (len sample_test) = (Z.of_nat (len sample_derived) + 9) / 10 ∧
  (len sample_validation = 0%nat ↔ (len sample_derived ≤ 3)%nat).
Proof.
  assert (Hr : rectangular sample_derived).
  { eapply derive_rectangular; [exact sample_derive|exact bank_sample_rectangular]. }
  assert (Hp : @partitions rotating_generator sample_derived
               = (sample_train, sample_validation, sample_test)).
  { vm_compute. reflexivity. }
  destruct (@small_tables rotating_generator sample_derived _ _ _ Hr eq_refl Hp)
    as (Hte & _ & _ & Hva).
  split; [exact Hte|exact Hva].
Defined.

(** ** Running the script again *)

Lemma write_file_tables `{RandomState} path path' recs w :
  path ≠ path' → tables (write_file path' recs w) !! path = tables w !! path.
Proof. intros Hne. simpl. by rewrite lookup_delete_ne. Qed.

(** Writing the four files over themselves changes nothing. *)
Lemma rewrite_files (m : gmap string (list (list value))) p1 p2 p3 p4 r1 r2 r3 r4 :
  <[p4 := r4]> (<[p3 := r3]> (<[p2 := r2]> (<[p1 := r1]>
     (<[p4 := r4]> (<[p3 := r3]> (<[p2 := r2]> (<[p1 := r1]> m)))))))
  = <[p4 := r4]> (<[p3 := r3]> (<[p2 := r2]> (<[p1 := r1]> m))).
Proof.
  apply map_eq. intros p.
  destruct (decide (p = p4)) as [->|N4]; [by rewrite !lookup_insert_eq|].
  rewrite !(lookup_insert_ne _ p4) by done.
  destruct (decide (p = p3)) as [->|N3]; [by rewrite !lookup_insert_eq|].
  rewrite !(lookup_insert_ne _ p3) by done.
  destruct (decide (p = p2)) as [->|N2]; [by rewrite !lookup_insert_eq|].
  rewrite !(lookup_insert_ne _ p2) by done.
  destruct (decide (p = p1)) as [->|N1]; [by rewrite !lookup_insert_eq|].
  rewrite !(lookup_insert_ne _ p1) by done.
  rewrite !(lookup_insert_ne _ p4), !(lookup_insert_ne _ p3),
    !(lookup_insert_ne _ p2) by done.
  by rewrite !(lookup_insert_ne _ p1) by done.
Qed.

(** X15.  Running the script again.  After a successful run whose input
    file is none of the four output files, a second run with the same
    arguments succeeds as well, returns the same partitions and overwrites
    each file with the contents it already has: files, readable tables and
    directories are as the first run left them, and the only trace of the
    second run is one more completion line on the console. *)
Theorem rerun_overwrites `{RandomState} args w parts w' :
  main args w = (Ok parts, w') →
  input_of args ∉ [train_csv args; validation_csv args; test_y_csv args; test_x_csv args] →
  ∃ w'',
    main args w' = (Ok parts, w'') ∧
    files w'' = files w' ∧ tables w'' = tables w' ∧ dirs w'' = dirs w' ∧
    global_rng w'' = global_rng w' ∧
    stdout w'' = stdout w' ++ ["## Processing complete. Exiting."].
Proof.
  intros Hrun Hnot.
  apply not_elem_of_cons in Hnot as (N1 & Hnot).
  apply not_elem_of_cons in Hnot as (N2 & Hnot).
  apply not_elem_of_cons in Hnot as (N3 & (N4 & _)%not_elem_of_cons).
  destruct (proj1 (run_Ok_iff args w)) as ((df0 & d & Hin & Hd & Hy & Hn) & D1 & D2 & D3).
  { by exists parts, w'. }
  pose proof (label_columns_names d Hy Hn) as Hlab.
  rewrite (main_eq args w df0 d Hin Hd Hlab) in Hrun.
  destruct (partitions d) as [[tr va] te] eqn:Hp.
  rewrite !bool_decide_eq_true_2 in Hrun by done.
  injection Hrun as <- <-.
  set (w1 := print_line _ _).
  assert (Hin' : tables w1 !! input_of args = Some df0).
  { subst w1. cbn [tables print_line].
    rewrite !write_file_tables by done. exact Hin. }
  rewrite (main_eq args w1 df0 d Hin' Hd Hlab), Hp.
  change (dirs w1) with (dirs w).
  rewrite !bool_decide_eq_true_2 by done.
  eexists. split; [reflexivity|].
  split_and!; try done.
  - subst w1. cbn [files print_line write_file]. apply rewrite_files.
  - subst w1. cbn [tables print_line write_file].
    apply map_eq. intros p. rewrite !lookup_delete. repeat case_decide; done.
Qed.

Lemma rerun_overwrites_witness :
  ∃ w'',
    @main rotating_generator default_args sample_final_world
    = (Ok (sample_train, sample_validation, sample_test), w'') ∧
    files w'' = files sample_final_world ∧
    stdout w'' = ["## Processing complete. Exiting."; "## Processing complete. Exiting."].
Proof.
  assert (Hnot : input_of default_args
                 ∉ [train_csv default_args; validation_csv default_args;
                    test_y_csv default_args; test_x_csv default_args]).
  { by apply (bool_decide_unpack _). }
  destruct (@rerun_overwrites rotating_generator default_args container_world _ _
              sample_run Hnot) as (w'' & Hrun & Hfiles & _ & _ & _ & Hout).
  exists w''. split; [exact Hrun|]. split; [exact Hfiles|exact Hout].
Defined.

(** ** Which rows go where *)

(** The row labels of the three partitions, from those of the frame. *)
Lemma partitions_index `{RandomState} d tr va te :
  partitions d = (tr, va, te) →
  let p := (permutation (seeded 42) (len d)).1 in
  let i1 := Z.to_nat (cut_0_7 (Z.of_nat (len d))) in
  let i2 := Z.to_nat (cut_0_9 (Z.of_nat (len d))) in
  index tr = slice 0 i1 (take_rows p (index d)) ∧
  index va = slice i1 i2 (take_rows p (index d)) ∧
  index te = slice i2 (length (take_rows p (index d))) (take_rows p (index d)).
Proof. unfold partitions, np_split. by intros [= <- <- <-]. Qed.

(** X16.  Which rows go to which partition does not depend on what the
    table holds.  Two successful runs, on any two tables with the same row
    labels, in any two worlds and with any arguments, put the same row
    labels, in the same order, into train, validation and test: the
    shuffle is drawn from the seed and the row count alone. *)
Theorem membership_ignores_cells `{RandomState} args1 args2 w1 w2 df1 df2
    tr1 va1 te1 tr2 va2 te2 w1' w2' :
  tables w1 !! input_of args1 = Some df1 →
  tables w2 !! input_of args2 = Some df2 →
  index df1 = index df2 →
  main args1 w1 = (Ok (tr1, va1, te1), w1') →
  main args2 w2 = (Ok (tr2, va2, te2), w2') →
  index tr1 = index tr2 ∧ index va1 = index va2 ∧ index te1 = index te2.
Proof.
  intros Hin1 Hin2 Hidx Hrun1 Hrun2.
  apply main_Ok in Hrun1 as (df1' & d1 & _ & _ & _ & _ & _ & _ & Hin1' & Hd1 & Hs1 & _).
  apply main_Ok in Hrun2 as (df2' & d2 & _ & _ & _ & _ & _ & _ & Hin2' & Hd2 & Hs2 & _).
  rewrite Hin1 in Hin1'. injection Hin1' as <-.
  rewrite Hin2 in Hin2'. injection Hin2' as <-.
  symmetry in Hs1, Hs2.
  apply (partitions_index d1) in Hs1 as (-> & -> & ->).
  apply (partitions_index d2) in Hs2 as (-> & -> & ->).
  assert (Hi : index d1 = index d2).
  { by rewrite (derive_index _ _ Hd1), (derive_index _ _ Hd2). }
  unfold len. by rewrite Hi.
Qed.

Lemma ten_run :
  @main rotating_generator default_args (container_with (bank_rows 10))
  = (Ok (ten_train, ten_validation, ten_test), ten_final_world).
Proof. vm_compute. reflexivity. Qed.

Lemma membership_ignores_cells_witness :
  index bank_sample = index (bank_rows 10) ∧
  columns bank_sample ≠ columns (bank_rows 10) ∧
  index sample_train = index ten_train ∧
  index sample_validation = index ten_validation ∧
  index sample_test = index ten_test.
Proof.
  assert (Hin : tables (container_with (bank_rows 10)) !! input_of default_args
                = Some (bank_rows 10)) by (vm_compute; reflexivity).
  assert (Hidx : index bank_sample = index (bank_rows 10)) by reflexivity.
  destruct (@membership_ignores_cells rotating_generator default_args default_args
              container_world (container_with (bank_rows 10)) bank_sample (bank_rows 10)
              _ _ _ _ _ _ _ _ sample_input Hin Hidx sample_run ten_run)
    as (H1 & H2 & H3).
  split; [exact Hidx|]. split; [|split; [exact H1|split; [exact H2|exact H3]]].
  intros Heq. apply (f_equal length) in Heq. vm_compute in Heq. discriminate Heq.
Defined.

(** * Properties of the batch prediction *)

(** ** Rounding and the number of batches *)

(** Rounding does not pass a representable value from below. *)
Lemma rnd_le_representable k t x :
  0 ≤ k ≤ 2 ^ 53 → 0 ≤ t → 0 ≤ x ≤ k * 2 ^ t → Float64.rnd x ≤ k * 2 ^ t.
Proof.
  intros Hk Ht Hx. unfold Float64.rnd, Float64.prec.
  destruct (Z.leb_spec (Z.log2 x + 1 - 53) 0) as [|Hs]; [lia|].
  set (s := Z.log2 x + 1 - 53) in *.
  assert (H0 : 0 < x).
  { destruct (Z.le_gt_cases x 0) as [Hle|]; [|done].
    subst s. rewrite Z.log2_nonpos in Hs by done. lia. }
  destruct (Z.log2_spec x H0) as [Hlo Hhi].
  replace (Z.log2 x) with (s + 52) in Hlo by (subst s; lia).
  replace (Z.succ (Z.log2 x)) with (s + 53) in Hhi by (subst s; lia).
  assert (Hps : 0 < 2 ^ s) by (apply Z.pow_pos_nonneg; lia).
  assert (Hpt : 0 < 2 ^ t) by (apply Z.pow_pos_nonneg; lia).
  rewrite !Z.shiftl_mul_pow2, Z.shiftr_div_pow2 by lia.
  set (q := x / 2 ^ s).
  pose proof (Z.div_mod x (2 ^ s) ltac:(lia)) as Hdm.
  pose proof (Z.mod_pos_bound x (2 ^ s) ltac:(lia)) as Hm.
  fold q in Hdm.
  replace (x - q * 2 ^ s) with (x `mod` 2 ^ s) by lia.
  set (r := x `mod` 2 ^ s) in *.
  assert (Hsp : 2 ^ s = 2 * 2 ^ (s - 1)).
  { rewrite <- (Z.pow_succ_r 2 (s - 1)) by lia. f_equal. lia. }
  assert (Hph : 0 < 2 ^ (s - 1)) by (apply Z.pow_pos_nonneg; lia).
  rewrite Z.mul_1_l.
  (* the target is a multiple of [2^s], or [x] is the power [2^(s+52)] *)
  destruct (Z.le_gt_cases s t) as [Hst|Hst].
  - assert (Hkt : k * 2 ^ t = (k * 2 ^ (t - s)) * 2 ^ s).
    { rewrite <- Z.mul_assoc, <- Z.pow_add_r by lia. do 2 f_equal. lia. }
    set (K := k * 2 ^ (t - s)) in *. rewrite Hkt in *.
    assert (HqK : q ≤ K) by (apply Z.div_le_upper_bound; lia).
    destruct (Z.eq_dec q K) as [->|Hne].
    + assert (r = 0) by nia. subst r.
      replace (2 ^ (s - 1) <? x `mod` 2 ^ s) with false by (symmetry; apply Z.ltb_ge; lia).
      replace (x `mod` 2 ^ s =? 2 ^ (s - 1)) with false by (symmetry; apply Z.eqb_neq; lia).
      simpl. lia.
    + destruct (_ || _); nia.
  - assert (Hx' : x = 2 ^ (s + 52)).
    { apply Z.le_antisymm; [|done]. transitivity (k * 2 ^ t); [lia|].
      transitivity (2 ^ 53 * 2 ^ t); [apply Z.mul_le_mono_nonneg_r; lia|].
      rewrite <- Z.pow_add_r by lia. apply Z.pow_le_mono_r; lia. }
    assert (Hq : x = 2 ^ 52 * 2 ^ s) by (rewrite Hx', Z.pow_add_r by lia; lia).
    assert (Hr0 : r = 0).
    { subst r. rewrite Hq. apply Z.mod_mul. lia. }
    assert (Hq' : q = 2 ^ 52) by nia.
    rewrite Hr0.
    replace (2 ^ (s - 1) <? 0) with false by (symmetry; apply Z.ltb_ge; lia).
    replace (0 =? 2 ^ (s - 1)) with false by (symmetry; apply Z.eqb_neq; lia).
    simpl. lia.
Qed.

Lemma rnd_nonneg x : 0 ≤ x → 0 ≤ Float64.rnd x.
Proof.
  intros Hx. pose proof (rnd_ge_representable 0 0 x). lia.
Qed.

Lemma two_26 : 2 ^ 26 = 67108864.
Proof. reflexivity. Qed.

Lemma below_overflow x : x < 2 ^ 53 → (2 ^ 1024 <=? x) = false.
Proof.
  intros Hx. apply Z.leb_gt. eapply Z.lt_trans; [exact Hx|].
  apply Z.pow_lt_mono_r; lia.
Qed.

(** [float(z)] of a small integer is exact. *)
Lemma of_int_small {E} z :
  Z.abs z < 2 ^ 53 →
  @Batches.of_int E z = inr (Batches.mkSigned (z <? 0) (Float64.mk (Z.abs z) 0)).
Proof.
  intros Hz. unfold Batches.of_int. rewrite (rnd_small (Z.abs z)) by done.
  by rewrite below_overflow.
Qed.

(** The rounded quotient of two small positive integers, scaled to an
    integer: between the floor of the exact quotient and the last double
    before the next integer. *)
Lemma div_magnitude_bounds n r :
  1 ≤ n < 2 ^ 26 → 1 ≤ r ≤ 2 ^ 26 →
  ∃ k m,
    Batches.div_magnitude (Float64.mk n 0) (Float64.mk r 0) = Float64.mk m (- (k + 1)) ∧
    26 ≤ k ∧
    (n / r) * 2 ^ (k + 1) ≤ m ≤ ((n / r + 1) * 2 ^ 26 - 1) * 2 ^ (k - 25) ∧
    2 ^ (k - 25) ≤ m.
Proof.
  intros Hn Hr. rewrite two_26 in *.
  unfold Batches.div_magnitude. simpl.
  rewrite (proj2 (Z.eqb_neq n 0)) by lia.
  set (k := Z.max 0 (56 + Z.log2 r - Z.log2 n)).
  assert (Hl2 : Z.log2 n < 26).
  { apply Z.log2_lt_pow2; [lia|]. rewrite two_26. lia. }
  pose proof (Z.log2_nonneg r) as Hlr.
  assert (Hk : 26 ≤ k) by (subst k; lia).
  exists k, (Float64.rnd (2 * (Z.shiftl n k / r)
                          + (if Z.shiftl n k `mod` r =? 0 then 0 else 1))).
  split; [f_equal; lia|]. split; [done|].
  rewrite Z.shiftl_mul_pow2 by lia.
  set (Q := n / r).
  pose proof (Z.div_mod n r ltac:(lia)) as Dn.
  pose proof (Z.mod_pos_bound n r ltac:(lia)) as Mn. fold Q in Dn.
  set (q0 := n * 2 ^ k / r).
  pose proof (Z.div_mod (n * 2 ^ k) r ltac:(lia)) as D0.
  pose proof (Z.mod_pos_bound (n * 2 ^ k) r ltac:(lia)) as M0. fold q0 in D0.
  set (rem := (n * 2 ^ k) `mod` r) in *.
  assert (Hpk : 0 < 2 ^ k) by (apply Z.pow_pos_nonneg; lia).
  assert (Hp1 : 2 ^ (k + 1) = 2 * 2 ^ k) by (rewrite Z.pow_add_r by lia; lia).
  assert (Hp25 : 2 ^ (k - 25) = 2 * 2 ^ (k - 26)).
  { rewrite <- (Z.pow_succ_r 2 (k - 26)) by lia. f_equal. lia. }
  assert (Hp26 : 2 ^ k = 67108864 * 2 ^ (k - 26)).
  { rewrite <- two_26, <- Z.pow_add_r by lia. f_equal. lia. }
  assert (Hpp : 0 < 2 ^ (k - 26)) by (apply Z.pow_pos_nonneg; lia).
  assert (HQ : 0 ≤ Q) by (apply Z.div_pos; lia).
  assert (HQn : Q ≤ n) by (apply Z.div_le_upper_bound; nia).
  set (st := if rem =? 0 then 0 else 1).
  assert (Hst : (st = 0 ∧ rem = 0) ∨ (st = 1 ∧ 1 ≤ rem)).
  { subst st. destruct (Z.eqb_spec rem 0); [left|right]; lia. }
  (* the floor of the scaled quotient *)
  assert (Hlow : Q * 2 ^ k ≤ q0).
  { apply Z.div_le_lower_bound; [lia|]. nia. }
  (* and the bound from above *)
  set (V := ((Q + 1) * 67108864 - 1) * 2 ^ (k - 26)).
  assert (HV : n * 2 ^ k ≤ V * r).
  { subst V. rewrite Hp26. nia. }
  assert (Hup : 2 * q0 + st ≤ 2 * V).
  { destruct Hst as [[-> Hrem]|[-> Hrem]].
    - assert (q0 * r ≤ V * r) by lia. assert (q0 ≤ V) by nia. lia.
    - assert (q0 * r < V * r) by lia. assert (q0 < V) by nia. lia. }
  assert (Hx0 : 0 ≤ 2 * q0 + st) by lia.
  split; [split|].
  - rewrite Hp1.
    pose proof (rnd_ge_representable Q (k + 1) (2 * q0 + st)
                  ltac:(rewrite two_53; lia) ltac:(lia)) as Hge.
    rewrite Hp1 in Hge. apply Hge. lia.
  - pose proof (rnd_le_representable ((Q + 1) * 67108864 - 1) (k - 25) (2 * q0 + st)
                  ltac:(rewrite two_53; nia) ltac:(lia)) as Hle.
    apply Hle. rewrite Hp25. subst V. lia.
  - pose proof (rnd_ge_representable 1 (k - 25) (2 * q0 + st)
                  ltac:(rewrite two_53; lia) ltac:(lia)) as Hge.
    rewrite Z.mul_1_l in Hge. apply Hge.
    assert (2 ^ (k - 26) ≤ q0); [|lia].
    apply Z.div_le_lower_bound; [lia|]. rewrite Hp26. nia.
Qed.

Lemma add_one_zero neg :
  Batches.to_int (Batches.add_one (Batches.mkSigned neg (Float64.mk 0 0))) = 1.
Proof. by destruct neg. Qed.

(** [q + 1] and [int] for a quotient [± m * 2^-(k+1)]. *)
Lemma add_one_scaled neg m k :
  0 ≤ k → 0 ≤ m →
  Batches.to_int (Batches.add_one (Batches.mkSigned neg (Float64.mk m (- (k + 1)))))
  = let sum := (if neg then - m else m) + 2 ^ (k + 1) in
    if sum <? 0 then - (Float64.rnd (- sum) / 2 ^ (k + 1))
    else Float64.rnd sum / 2 ^ (k + 1).
Proof.
  intros Hk Hm. unfold Batches.to_int, Batches.add_one, Float64.to_int.
  cbn [Batches.negative Batches.magnitude Float64.mant Float64.expo].
  rewrite (proj2 (Z.leb_gt 0 (- (k + 1)))) by lia.
  rewrite Z.opp_involutive, (Z.shiftl_mul_pow2 1), Z.mul_1_l by lia.
  rewrite Z.min_l by lia. cbv zeta.
  set (sum := (if neg then - m else m) + 2 ^ (k + 1)).
  rewrite (Z.shiftl_div_pow2 _ (- (k + 1))) by lia. rewrite Z.opp_involutive.
  destruct (Z.ltb_spec sum 0).
  - by rewrite Z.abs_neq by lia.
  - by rewrite Z.abs_eq by lia.
Qed.

(** With a batch size and a row count below [2^26] the quotient is taken
    exactly: there are [n div rows + 1] batches. *)
Lemma sections_positive {E} (n : nat) rows :
  1 ≤ rows ≤ 2 ^ 26 → Z.of_nat n < 2 ^ 26 →
  @Batches.sections E n rows = inr (Z.of_nat n / rows + 1).
Proof.
  intros Hr Hn. unfold Batches.sections.
  assert (H26 : 2 ^ 26 < 2 ^ 53) by (rewrite two_26, two_53; lia).
  rewrite !of_int_small by lia.
  rewrite !Z.abs_eq by lia.
  unfold Batches.div. cbn [Batches.negative Batches.magnitude Float64.mant].
  rewrite (proj2 (Z.eqb_neq rows 0)) by lia. f_equal.
  destruct (decide (Z.of_nat n = 0)) as [H0|H0].
  { rewrite H0. change (Batches.div_magnitude (Float64.mk 0 0) _) with (Float64.mk 0 0).
    rewrite add_one_zero, Z.div_0_l by lia. done. }
  destruct (div_magnitude_bounds (Z.of_nat n) rows ltac:(lia) Hr)
    as (k & m & -> & Hk & [Hlo Hhi] & _).
  set (Q := Z.of_nat n / rows) in *.
  assert (HQ : 0 ≤ Q) by (apply Z.div_pos; lia).
  assert (HQn : Q < 2 ^ 26).
  { apply Z.div_lt_upper_bound; [lia|]. nia. }
  rewrite two_26 in *.
  assert (Hp : 0 < 2 ^ (k + 1)) by (apply Z.pow_pos_nonneg; lia).
  assert (Hm0 : 0 ≤ m) by nia.
  rewrite (proj2 (Z.ltb_ge (Z.of_nat n) 0)), (proj2 (Z.ltb_ge rows 0)) by lia.
  rewrite add_one_scaled by lia. cbn [xorb]. cbv zeta.
  rewrite (proj2 (Z.ltb_ge (m + 2 ^ (k + 1)) 0)) by lia.
  assert (Hp26 : 2 ^ (k + 1) = 67108864 * 2 ^ (k - 25)).
  { rewrite <- two_26, <- Z.pow_add_r by lia. f_equal. lia. }
  assert (Hpp : 0 < 2 ^ (k - 25)) by (apply Z.pow_pos_nonneg; lia).
  pose proof (rnd_ge_representable (Q + 1) (k + 1) (m + 2 ^ (k + 1))
                ltac:(rewrite two_53; lia) ltac:(lia) ltac:(lia)) as Hge.
  pose proof (rnd_le_representable ((Q + 2) * 67108864 - 1) (k - 25) (m + 2 ^ (k + 1))
                ltac:(rewrite two_53; lia) ltac:(lia) ltac:(rewrite Hp26 in *; lia)) as Hle.
  symmetry. apply (Z.div_unique _ _ _ (Float64.rnd (m + 2 ^ (k + 1)) - (Q + 1) * 2 ^ (k + 1))).
  - rewrite Hp26 in *. lia.
  - lia.
Qed.

Lemma sections_zero {E} (n : nat) :
  Z.of_nat n < 2 ^ 53 → @Batches.sections E n 0 = inl ZeroDivisionError.
Proof.
  intros Hn. unfold Batches.sections.
  rewrite (of_int_small 0) by done. rewrite of_int_small by lia. done.
Qed.

(** A negative batch size gives no positive number of batches, unless the
    array is empty. *)
Lemma sections_negative {E} (n : nat) rows :
  - 2 ^ 26 ≤ rows ≤ -1 → 1 ≤ Z.of_nat n < 2 ^ 26 →
  ∃ k, @Batches.sections E n rows = inr k ∧ k ≤ 0.
Proof.
  intros Hr Hn. unfold Batches.sections.
  assert (H26 : 2 ^ 26 < 2 ^ 53) by (rewrite two_26, two_53; lia).
  rewrite !of_int_small by lia.
  rewrite (Z.abs_eq (Z.of_nat n)), (Z.abs_neq rows) by lia.
  unfold Batches.div. cbn [Batches.negative Batches.magnitude Float64.mant].
  rewrite (proj2 (Z.eqb_neq (- rows) 0)) by lia.
  destruct (div_magnitude_bounds (Z.of_nat n) (- rows) ltac:(lia) ltac:(lia))
    as (k & m & -> & Hk & [Hlo Hhi] & Hpos).
  eexists. split; [reflexivity|].
  rewrite two_26 in *.
  assert (Hpp : 0 < 2 ^ (k - 25)) by (apply Z.pow_pos_nonneg; lia).
  assert (Hp26 : 2 ^ (k + 1) = 67108864 * 2 ^ (k - 25)).
  { rewrite <- two_26, <- Z.pow_add_r by lia. f_equal. lia. }
  rewrite (proj2 (Z.ltb_ge (Z.of_nat n) 0)), (proj2 (Z.ltb_lt rows 0)) by lia.
  cbn [xorb]. rewrite add_one_scaled by lia. cbv zeta.
  destruct (Z.ltb_spec (- m + 2 ^ (k + 1)) 0) as [Hneg|Hnn].
  - assert (0 ≤ Float64.rnd (- (- m + 2 ^ (k + 1))) / 2 ^ (k + 1)); [|lia].
    apply Z.div_pos; [|lia]. apply rnd_nonneg. lia.
  - pose proof (rnd_le_representable (67108864 - 1) (k - 25) (- m + 2 ^ (k + 1))
                  ltac:(rewrite two_53; lia) ltac:(lia) ltac:(lia)) as Hle.
    rewrite Z.div_small; [done|]. split; [by apply rnd_nonneg|]. lia.
Qed.

(** ** The batches *)

Lemma div_points_head st sizes : div_points st sizes !!! 0%nat = st.
Proof. by destruct sizes. Qed.

Lemma array_split_sections {A} (ary : list A) st sizes :
  (λ i, slice (div_points st sizes !!! i) (div_points st sizes !!! S i) ary)
    <$> seq 0 (length sizes)
  = reshape sizes (drop st ary).
Proof.
  revert st. induction sizes as [|s sizes IH]; intros st; [done|].
  cbn [length seq fmap list_fmap reshape div_points]. f_equal.
  - unfold slice. change ((st :: div_points (st + s) sizes) !!! 0%nat) with st.
    change ((st :: div_points (st + s) sizes) !!! 1%nat)
      with (div_points (st + s) sizes !!! 0%nat).
    rewrite div_points_head. f_equal. lia.
  - rewrite <- fmap_S_seq, <- list_fmap_compose, drop_drop, <- IH.
    apply list_fmap_ext. intros _ i _. done.
Qed.

Lemma reshape_lengths {A} sizes (l : list A) :
  (sum_list sizes ≤ length l)%nat → length <$> reshape sizes l = sizes.
Proof.
  revert l. induction sizes as [|s sizes IH]; intros l Hl; simpl in *; [done|].
  rewrite length_take, IH by (rewrite length_drop; lia). f_equal. lia.
Qed.

Lemma section_sizes_sum n k : (0 < k)%nat → sum_list (section_sizes n k) = n.
Proof.
  intros Hk. unfold section_sizes. rewrite sum_list_with_app, !sum_list_replicate.
  pose proof (Nat.div_mod n k ltac:(lia)) as Hdm.
  pose proof (Nat.mod_upper_bound n k ltac:(lia)) as Hm.
  nia.
Qed.

Lemma section_sizes_length n k : (0 < k)%nat → length (section_sizes n k) = k.
Proof.
  intros Hk. unfold section_sizes. rewrite length_app, !length_replicate.
  pose proof (Nat.mod_upper_bound n k ltac:(lia)). lia.
Qed.

(** X11.  The batches cover the array.  [np.array_split] refuses a number
    of sections that is not positive.  For [k >= 1] it returns [k]
    sections that concatenate to the array, in order: the first [n mod k]
    have [n div k + 1] rows and the others [n div k], so that no row is
    lost or sent twice and the sections differ in size by one row at
    most. *)
Theorem array_split_covers {A E} (ary : list A) (k : Z) :
  (k ≤ 0 → @array_split A E ary k = inl ValueError) ∧
  (1 ≤ k →
   ∃ sections,
     @array_split A E ary k = inr sections ∧
     sections = reshape (section_sizes (length ary) (Z.to_nat k)) ary ∧
     length sections = Z.to_nat k ∧
     mjoin sections = ary ∧
     length <$> sections
     = replicate (length ary `mod` Z.to_nat k) (length ary `div` Z.to_nat k + 1)%nat
       ++ replicate (Z.to_nat k - length ary `mod` Z.to_nat k)
                    (length ary `div` Z.to_nat k)%nat).
Proof.
  split.
  - intros Hk. unfold array_split. by rewrite (proj2 (Z.leb_le k 0)).
  - intros Hk. unfold array_split. rewrite (proj2 (Z.leb_gt k 0)) by lia.
    set (K := Z.to_nat k). assert (HK : (0 < K)%nat) by (subst K; lia).
    pose proof (array_split_sections ary 0 (section_sizes (length ary) K)) as Hs.
    rewrite section_sizes_length, drop_0 in Hs by done. cbv zeta. rewrite Hs.
    eexists. split; [reflexivity|]. split; [done|]. split_and!.
    + rewrite length_reshape. by apply section_sizes_length.
    + apply join_reshape. by apply section_sizes_sum.
    + rewrite reshape_lengths by (rewrite section_sizes_sum by done; lia).
      done.
Qed.

Lemma array_split_covers_witness :
  @array_split nat unit [10; 11; 12; 13; 14]%nat 3
  = inr [[10; 11]; [12; 13]; [14]]%nat.
Proof.
  destruct (@array_split_covers nat unit [10; 11; 12; 13; 14]%nat 3) as [_ Hpos].
  destruct (Hpos ltac:(lia)) as (sections & -> & -> & _). reflexivity.
Defined.

(** [float(rows)] at the ends of the range of the doubles. *)
Lemma of_int_finite {E} z :
  Z.abs z ≤ (2 ^ 53 - 1) * 2 ^ 971 →
  @Batches.of_int E z
  = inr (Batches.mkSigned (z <? 0) (Float64.mk (Float64.rnd (Z.abs z)) 0)).
Proof.
  intros Hz. unfold Batches.of_int.
  pose proof (rnd_le_representable (2 ^ 53 - 1) 971 (Z.abs z)
                ltac:(rewrite two_53; lia) ltac:(lia) ltac:(lia)) as Hle.
  assert (Hlt : (2 ^ 53 - 1) * 2 ^ 971 < 2 ^ 1024)
    by (apply Z.ltb_lt; vm_compute; reflexivity).
  rewrite (proj2 (Z.leb_gt _ _)); [done|]. eapply Z.le_lt_trans; [exact Hle|exact Hlt].
Qed.

Lemma of_int_overflow {E} z :
  2 ^ 1024 ≤ Z.abs z → @Batches.of_int E z = inl OverflowError.
Proof.
  intros Hz. unfold Batches.of_int.
  assert (Hp : 2 ^ 52 * 2 ^ 972 = 2 ^ 1024) by (vm_compute; reflexivity).
  pose proof (rnd_ge_representable (2 ^ 52) 972 (Z.abs z)
                ltac:(rewrite two_53; split; [|apply Z.ltb_lt]; done) ltac:(lia)
                ltac:(by rewrite Hp)) as Hge.
  rewrite Hp in Hge. by rewrite (proj2 (Z.leb_le _ _)).
Qed.

(** X12.  The number of batches.  For an array of fewer than [2^26] rows:
    with a batch size between 1 and [2^26] the double-precision expression
    [int(n / float(rows) + 1)] is exact and gives [n div rows + 1]; with
    the batch size 0 it raises [ZeroDivisionError]; with a negative batch
    size (down to [-2^26]) it gives a number that is not positive, unless
    the array is empty.  For an empty array it gives 1 for every batch
    size other than 0 that [float] can convert, that is up to the largest
    double [(2^53 - 1) * 2^971] in absolute value.  A batch size of
    absolute value [2^1024] or more makes [float(rows)] raise
    [OverflowError], whatever the array. *)
Theorem number_of_batches {E} (n : nat) (rows : Z) :
  Z.of_nat n < 2 ^ 26 →
  (rows = 0 → @Batches.sections E n rows = inl ZeroDivisionError) ∧
  (1 ≤ rows ≤ 2 ^ 26 → @Batches.sections E n rows = inr (Z.of_nat n / rows + 1)) ∧
  (- 2 ^ 26 ≤ rows ≤ -1 → (1 ≤ n)%nat →
   ∃ k, @Batches.sections E n rows = inr k ∧ k ≤ 0) ∧
  (rows ≠ 0 → Z.abs rows ≤ (2 ^ 53 - 1) * 2 ^ 971 → n = 0%nat →
   @Batches.sections E n rows = inr 1) ∧
  (2 ^ 1024 ≤ Z.abs rows → @Batches.sections E n rows = inl OverflowError).
Proof.
  intros Hn.
  assert (H26 : 2 ^ 26 < 2 ^ 53) by (rewrite two_26, two_53; lia).
  split_and!.
  - intros ->. apply sections_zero. lia.
  - intros Hr. by apply sections_positive.
  - intros Hr Hn1. apply sections_negative; lia.
  - intros Hr Hmax ->. unfold Batches.sections.
    rewrite (of_int_finite rows) by done. rewrite (of_int_small (Z.of_nat 0)) by done.
    pose proof (rnd_ge_representable 1 0 (Z.abs rows)
                  ltac:(rewrite two_53; lia) ltac:(lia) ltac:(lia)) as Hpos.
    unfold Batches.div. cbn [Batches.negative Batches.magnitude Float64.mant].
    rewrite (proj2 (Z.eqb_neq (Float64.rnd (Z.abs rows)) 0)) by lia.
    change (Batches.div_magnitude (Float64.mk (Z.abs (Z.of_nat 0)) 0) _)
      with (Float64.mk 0 0).
    by rewrite add_one_zero.
  - intros Hr. unfold Batches.sections. by rewrite of_int_overflow.
Qed.

Lemma number_of_batches_witness :
  @Batches.sections unit 4119 500 = inr 9 ∧
  @Batches.sections unit 1000 500 = inr 3 ∧
  @Batches.sections unit 0 (- 2 ^ 60) = inr 1 ∧
  @Batches.sections unit 4119 (2 ^ 1024) = inl OverflowError.
Proof.
  assert (Hr : 1 ≤ 500 ≤ 2 ^ 26) by done.
  assert (Hn0 : - 2 ^ 60 ≠ 0) by done.
  assert (Hmax : Z.abs (- 2 ^ 60) ≤ (2 ^ 53 - 1) * 2 ^ 971) by done.
  assert (Hbig : 2 ^ 1024 ≤ Z.abs (2 ^ 1024)) by done.
  destruct (@number_of_batches unit 4119 500 eq_refl) as (_ & H1 & _).
  destruct (@number_of_batches unit 1000 500 eq_refl) as (_ & H2 & _).
  destruct (@number_of_batches unit 0 (- 2 ^ 60) eq_refl) as (_ & _ & _ & H3 & _).
  destruct (@number_of_batches unit 4119 (2 ^ 1024) eq_refl) as (_ & _ & _ & _ & H4).
  pose proof (H1 Hr) as H1'. pose proof (H2 Hr) as H2'.
  pose proof (H3 Hn0 Hmax eq_refl) as H3'. pose proof (H4 Hbig) as H4'.
  split; [exact H1'|]. split; [exact H2'|]. split; [exact H3'|exact H4'].
Defined.

(** ** The function as a whole *)

Section PredictFacts.

Context {A S E B : Type}.
Variable endpoint : list A → S → (E + string) * S.
Variable fromstring : string → B.

Lemma append_empty_r (s : string) : s +:+ "" = s.
Proof.
  induction s as [|c s IH]; [done|].
  change (String c s +:+ "") with (String c (s +:+ "")). by rewrite IH.
Qed.

Lemma predict_loop_send batches predictions s :
  predict_loop endpoint batches predictions s
  = match send_all endpoint batches s with
    | (inl e, s') => (inl (EndpointError e), s')
    | (inr answers, s') => (inr (predictions +:+ led_by_commas answers), s')
    end.
Proof.
  revert predictions s. induction batches as [|batch batches IH]; intros predictions s.
  - simpl. by rewrite append_empty_r.
  - cbn [predict_loop send_all]. destruct (endpoint batch s) as [[e|answer] s']; [done|].
    rewrite IH. destruct (send_all endpoint batches s') as [[e|answers] s'']; [done|].
    cbn [led_by_commas].
    change (String.concat "," [predictions; answer]) with (predictions +:+ "," +:+ answer).
    by rewrite !append_assoc.
Qed.

Lemma from_second_commas answers :
  from_second (led_by_commas answers) = String.concat "," answers.
Proof.
  destruct answers as [|a rest]; [done|]. cbn [led_by_commas].
  change (from_second ("," +:+ a +:+ led_by_commas rest)) with (a +:+ led_by_commas rest).
  revert a. induction rest as [|b rest IH]; intros a.
  - simpl. by rewrite append_empty_r.
  - cbn [led_by_commas]. rewrite (IH b). done.
Qed.

(** No batch is longer than the batch size. *)
Lemma section_sizes_bound (n : nat) rows :
  1 ≤ rows →
  Forall (λ size, Z.of_nat size ≤ rows)
         (section_sizes n (Z.to_nat (Z.of_nat n / rows + 1))).
Proof.
  intros Hr. set (q := Z.of_nat n / rows).
  assert (Hq : 0 ≤ q) by (apply Z.div_pos; lia).
  pose proof (Z.div_mod (Z.of_nat n) rows ltac:(lia)) as Dn.
  pose proof (Z.mod_pos_bound (Z.of_nat n) rows ltac:(lia)) as Mn. fold q in Dn.
  set (K := Z.to_nat (q + 1)). assert (HK : (0 < K)%nat) by (subst K; lia).
  assert (HKr : Z.of_nat n < Z.of_nat K * rows) by (subst K; nia).
  pose proof (Nat.div_mod n K ltac:(lia)) as DK.
  assert (Hbig : Z.of_nat (n `div` K + 1) ≤ rows) by nia.
  unfold section_sizes. apply Forall_app. split; apply Forall_replicate; lia.
Qed.

(** X13.  What [predict] sends and returns.  For a batch size between 1 and
    [2^26] and an array of fewer than [2^26] rows, the endpoint is called on
    [n div rows + 1] batches in turn, which concatenate to the array in
    order and hold at most [rows] rows each (an empty array is sent as one
    empty batch).  If every call answers, the result is [np.fromstring] of
    the answers joined by commas, the leading comma of the accumulated text
    having been cut off; if a call raises, that exception ends the function
    and no later batch is sent. *)
Theorem predict_sends_batches data rows s :
  1 ≤ rows ≤ 2 ^ 26 →
  Z.of_nat (length data) < 2 ^ 26 →
  let k := Z.to_nat (Z.of_nat (length data) / rows + 1) in
  let batches := reshape (section_sizes (length data) k) data in
  length batches = k ∧
  mjoin batches = data ∧
  Forall (λ batch, Z.of_nat (length batch) ≤ rows) batches ∧
  (data = [] → batches = [[]]) ∧
  predict endpoint fromstring data rows s
  = match send_all endpoint batches s with
    | (inl e, s') => (inl (EndpointError e), s')
    | (inr answers, s') => (inr (fromstring (String.concat "," answers)), s')
    end.
Proof.
  intros Hr Hn k batches.
  assert (Hq : 0 ≤ Z.of_nat (length data) / rows) by (apply Z.div_pos; lia).
  destruct (@array_split_covers A E data (Z.of_nat (length data) / rows + 1))
    as [_ Hpos].
  destruct (Hpos ltac:(lia)) as (sections & Hsplit & -> & Hlen & Hcat & Hsizes).
  fold k batches in Hsplit, Hlen, Hcat, Hsizes.
  split_and!; try done.
  - assert (Hl : Forall (λ size, Z.of_nat size ≤ rows) (length <$> batches)).
    { subst batches. rewrite reshape_lengths.
      - apply section_sizes_bound. lia.
      - rewrite section_sizes_sum by (subst k; lia). done. }
    apply Forall_forall. intros batch Hb.
    eapply Forall_forall in Hl; [exact Hl|]. by apply list_elem_of_fmap_2.
  - intros ->. subst batches k. change (Z.of_nat (length (@nil A))) with 0.
    rewrite Z.div_0_l by lia. reflexivity.
  - unfold predict. rewrite sections_positive by done. rewrite Hsplit.
    rewrite predict_loop_send.
    destruct (send_all endpoint batches s) as [[e|answers] s']; [done|].
    change ("" +:+ led_by_commas answers) with (led_by_commas answers).
    by rewrite from_second_commas.
Qed.

(** X14.  A batch size that is not positive, for an array of fewer than
    [2^26] rows.  With [rows = 0] the function raises [ZeroDivisionError];
    with a negative batch size (down to [-2^26]) and an array that is not
    empty it raises [ValueError], from [np.array_split].  In both cases
    the endpoint has not been called: its state is as it was. *)
Theorem predict_bad_batch_size data rows s :
  Z.of_nat (length data) < 2 ^ 26 →
  (rows = 0 → predict endpoint fromstring data rows s = (inl ZeroDivisionError, s)) ∧
  (- 2 ^ 26 ≤ rows ≤ -1 → data ≠ [] →
   predict endpoint fromstring data rows s = (inl ValueError, s)).
Proof.
  intros Hn.
  assert (H26 : 2 ^ 26 < 2 ^ 53) by (rewrite two_26, two_53; lia).
  split.
  - intros ->. unfold predict. rewrite sections_zero by lia. done.
  - intros Hr Hne. unfold predict.
    destruct (@sections_negative E (length data) rows Hr) as (k & -> & Hk).
    { destruct data; [done|]. simpl in *. lia. }
    destruct (@array_split_covers A E data k) as [-> _]; done.
Qed.

End PredictFacts.

Lemma predict_sends_batches_witness :
  predict counting_endpoint id [10; 11; 12; 13; 14]%nat 2 []
  = (inr "11,11,1", [[10; 11]; [12; 13]; [14]]%nat).
Proof.
  assert (Hr : 1 ≤ 2 ≤ 2 ^ 26) by done.
  assert (Hn : Z.of_nat (length [10; 11; 12; 13; 14]%nat) < 2 ^ 26) by done.
  destruct (predict_sends_batches counting_endpoint id [10; 11; 12; 13; 14]%nat 2 []
              Hr Hn) as (_ & _ & _ & _ & Heq).
  rewrite Heq. reflexivity.
Defined.

Lemma predict_bad_batch_size_witness :
  predict counting_endpoint id [10; 11; 12]%nat 0 [] = (inl ZeroDivisionError, []) ∧
  predict counting_endpoint id [10; 11; 12]%nat (-500) [] = (inl ValueError, []).
Proof.
  assert (Hn : Z.of_nat (length [10; 11; 12]%nat) < 2 ^ 26) by done.
  assert (Hr : - 2 ^ 26 ≤ -500 ≤ -1) by done.
  destruct (predict_bad_batch_size counting_endpoint id [10; 11; 12]%nat 0 [] Hn)
    as [H0 _].
  destruct (predict_bad_batch_size counting_endpoint id [10; 11; 12]%nat (-500) [] Hn)
    as [_ Hneg].
  pose proof (H0 eq_refl) as H0'.
  assert (Hne : [10; 11; 12]%nat ≠ []) by done.
  pose proof (Hneg Hr Hne) as Hneg'.
  split; [exact H0'|exact Hneg'].
Defined.
